(** * SAPAN screening engine: indicators, candlestick patterns, scenario
      validation and the per-symbol processing step

    A shallow embedding of the Go sources of the repository.

    Conventions of the embedding.
    - A Go [float64] is a primitive binary64 [float]; every arithmetic
      operation and comparison is the IEEE 754 one, evaluated operation by
      operation (no fused multiply-add, as on amd64).
    - A Go [int] that holds a length, an index or a period is a [nat];
      negative periods are outside the model.  Where the source computes an
      index below zero and reads the slice there, the model returns [None]
      (the run-time panic).
    - A slice [[]T] is a [list T]; [s[a:b]] is [firstn (b - a) (skipn a s)].
    - A counting loop [for i := lo; i < hi; i++] is [for_range (hi - lo) lo]
      over the loop-carried variables.
    - The watch lists are Go maps keyed by time stamps: finite maps over [Z].
    - [error] is [option string]: [None] is [nil].
    - Prices reach the engine through [strconv.ParseFloat], field by field
      and with no check that relates them: a price is any binary64 value. *)

From Stdlib Require Import ZArith List Bool Lia String Floats Uint63 PArith.
From stdpp Require Import gmap.
Import ListNotations.

Set Warnings "-inexact-float".

(** ** Go primitives *)

Module Go.

(** [float64(n)] for an [int] [n]: the conversion rounds to nearest, and is
    exact below 2^53 in magnitude. *)
Definition float64 (n : Z) : float :=
  if (n <? 0)%Z
  then (- PrimFloat.of_uint63 (Uint63.of_Z (- n)))%float
  else PrimFloat.of_uint63 (Uint63.of_Z n).

(** [>], [>=] and [==] on [float64], through the primitive comparisons. *)
Definition gtb (x y : float) : bool := (y <? x)%float.
Definition geb (x y : float) : bool := (y <=? x)%float.

(** [prices[i]] for an index known to be in range. *)
Definition at_ (s : list float) (i : nat) : float := nth i s 0%float.

(** [s[a:b]]. *)
Definition slice {A} (s : list A) (a b : nat) : list A :=
  firstn (b - a) (skipn a s).

(** [for i := start; i < start + count; i++ { st = body i st }]. *)
Fixpoint for_range {St : Type} (count start : nat)
    (body : nat -> St -> St) (st : St) : St :=
  match count with
  | O => st
  | S count' => for_range count' (S start) body (body start st)
  end.

End Go.

Notation "x >? y" := (Go.gtb x y) (at level 70, no associativity) : float_scope.
Notation "x >=? y" := (Go.geb x y) (at level 70, no associativity) : float_scope.

(** ** internal/indicators/ema.go *)

Module EMACalculator.
Import Go.

Definition Calculate (prices : list float) (period : nat) : float :=
  if (length prices <? period)%nat then 0%float
  else
    let multiplier := (2.0 / (float64 (Z.of_nat period) + 1.0))%float in
    let sum :=
      for_range period 0 (fun i sum => (sum + at_ prices i)%float) 0%float in
    let ema := (sum / float64 (Z.of_nat period))%float in
    for_range (length prices - period) period
      (fun i ema =>
         ((at_ prices i * multiplier) + (ema * (1 - multiplier)))%float)
      ema.

Definition ValidateTrend (prices : list float) : bool :=
  let ema20 := Calculate prices 20 in
  let ema50 := Calculate prices 50 in
  let ema100 := Calculate prices 100 in
  let ema200 := Calculate prices 200 in
  (ema20 >? ema50)%float && (ema50 >? ema100)%float
    && (ema100 >? ema200)%float.

Definition ValidateDowntrend (prices : list float) : bool :=
  let ema20 := Calculate prices 20 in
  let ema50 := Calculate prices 50 in
  let ema100 := Calculate prices 100 in
  let ema200 := Calculate prices 200 in
  (ema20 <? ema50)%float && (ema50 <? ema100)%float
    && (ema100 <? ema200)%float.

End EMACalculator.

(** ** RSI (Wilder smoothing) *)

Module RSICalculator.
Import Go.

(** The first loop of [Calculate]: the per-step gains and losses. *)
Definition gainsLosses (prices : list float) : list float * list float :=
  for_range (length prices - 1) 1
    (fun i '(gains, losses) =>
       let change := (at_ prices i - at_ prices (i - 1))%float in
       if (change >? 0)%float
       then (gains ++ [change], losses ++ [0%float])
       else (gains ++ [0%float], losses ++ [(- change)%float]))
    ([], []).

Definition Calculate (prices : list float) (period : nat) : float :=
  if (length prices <? period + 1)%nat then 0%float
  else
    let '(gains, losses) := gainsLosses prices in
    if (length gains <? period)%nat then 0%float
    else
      let '(avgGain, avgLoss) :=
        for_range period 0
          (fun i '(avgGain, avgLoss) =>
             ((avgGain + at_ gains i)%float, (avgLoss + at_ losses i)%float))
          (0%float, 0%float) in
      let avgGain := (avgGain / float64 (Z.of_nat period))%float in
      let avgLoss := (avgLoss / float64 (Z.of_nat period))%float in
      let '(avgGain, avgLoss) :=
        for_range (length gains - period) period
          (fun i '(avgGain, avgLoss) =>
             (((avgGain * float64 (Z.of_nat period - 1) + at_ gains i)
                 / float64 (Z.of_nat period))%float,
              ((avgLoss * float64 (Z.of_nat period - 1) + at_ losses i)
                 / float64 (Z.of_nat period))%float))
          (avgGain, avgLoss) in
      if (avgLoss =? 0)%float then 100%float
      else
        let rs := (avgGain / avgLoss)%float in
        (100 - (100 / (1 + rs)))%float.

End RSICalculator.

(** ** Stochastic RSI *)

Module StochasticRSICalculator.
Import Go.

Record StochasticRSIResult := {
  K : float;
  D : float;
  Crossover : bool
}.

(** The zero value [StochasticRSIResult{}]. *)
Definition zeroResult : StochasticRSIResult :=
  {| K := 0; D := 0; Crossover := false |}.

(** First loop of [Calculate]: one RSI per window [prices[i-rsiPeriod:i+1]]. *)
Definition rsiTrajectory (prices : list float) (rsiPeriod : nat) : list float :=
  for_range (length prices - rsiPeriod) rsiPeriod
    (fun i rsiValues =>
       let rsi :=
         RSICalculator.Calculate
           (slice prices (i - rsiPeriod) (i + 1)) rsiPeriod in
       rsiValues ++ [rsi])
    [].

(** Body of the second loop, for an index [i >= stochKPeriod - 1]: the
    window starts at [i - stochKPeriod + 1], which is never negative there. *)
Definition stochKAt (rsiValues : list float) (stochKPeriod i : nat) : float :=
  let periodStart := i + 1 - stochKPeriod in
  let highestRSI := at_ rsiValues periodStart in
  let lowestRSI := at_ rsiValues periodStart in
  let '(highestRSI, lowestRSI) :=
    for_range (i + 1 - periodStart) periodStart
      (fun j '(highestRSI, lowestRSI) =>
         let highestRSI :=
           if (at_ rsiValues j >? highestRSI)%float
           then at_ rsiValues j else highestRSI in
         let lowestRSI :=
           if (at_ rsiValues j <? lowestRSI)%float
           then at_ rsiValues j else lowestRSI in
         (highestRSI, lowestRSI))
      (highestRSI, lowestRSI) in
  let currentRSI := at_ rsiValues i in
  if (highestRSI =? lowestRSI)%float then 50%float
  else (((currentRSI - lowestRSI) / (highestRSI - lowestRSI)) * 100)%float.

(** Second loop of [Calculate].  With [stochKPeriod = 0] the loop starts at
    [i = -1] and reads [rsiValues[-1]]: the call panics. *)
Definition stochKTrajectory (rsiValues : list float) (stochKPeriod : nat)
    : option (list float) :=
  match stochKPeriod with
  | O => None
  | S k' =>
      Some (for_range (length rsiValues - k') k'
              (fun i stochKValues =>
                 stochKValues ++ [stochKAt rsiValues stochKPeriod i])
              [])
  end.

Definition Calculate (prices : list float)
    (rsiPeriod stochKPeriod stochDPeriod : nat) : option StochasticRSIResult :=
  if (length prices <? rsiPeriod + stochKPeriod + stochDPeriod)%nat
  then Some zeroResult
  else
    let rsiValues := rsiTrajectory prices rsiPeriod in
    if (length rsiValues <? stochKPeriod + stochDPeriod)%nat
    then Some zeroResult
    else
      match stochKTrajectory rsiValues stochKPeriod with
      | None => None
      | Some stochKValues =>
          if (length stochKValues <? stochDPeriod)%nat then Some zeroResult
          else
            let n := length stochKValues in
            let currentK := at_ stochKValues (n - 1) in
            let sum :=
              for_range stochDPeriod (n - stochDPeriod)
                (fun i sum => (sum + at_ stochKValues i)%float) 0%float in
            let currentD := (sum / float64 (Z.of_nat stochDPeriod))%float in
            let crossover :=
              if (2 <=? n)%nat then
                let prevK := at_ stochKValues (n - 2) in
                let prevD :=
                  if (stochDPeriod + 1 <=? n)%nat then
                    let sum :=
                      for_range stochDPeriod (n - stochDPeriod - 1)
                        (fun i sum => (sum + at_ stochKValues i)%float)
                        0%float in
                    (sum / float64 (Z.of_nat stochDPeriod))%float
                  else 0%float in
                (prevK <? prevD)%float && (currentK >? currentD)%float
                  && (prevK <? 30)%float
              else false in
            Some {| K := currentK; D := currentD; Crossover := crossover |}
      end.

Definition IsOversoldWithCrossover (prices : list float)
    (rsiPeriod stochKPeriod stochDPeriod : nat) : option bool :=
  match Calculate prices rsiPeriod stochKPeriod stochDPeriod with
  | None => None
  | Some result => Some ((K result <? 30)%float && Crossover result)
  end.

Definition IsOverboughtWithCrossover (prices : list float)
    (rsiPeriod stochKPeriod stochDPeriod : nat) : option bool :=
  match Calculate prices rsiPeriod stochKPeriod stochDPeriod with
  | None => None
  | Some result => Some ((K result >? 70)%float && Crossover result)
  end.

End StochasticRSICalculator.

(** ** internal/indicators/macd.go *)

Module MACDCalculator.
Import Go.

Record MACDResult := {
  MACD : float;
  Signal : float;
  Histogram : float
}.

Definition zeroResult : MACDResult :=
  {| MACD := 0; Signal := 0; Histogram := 0 |}.

Definition Calculate (prices : list float)
    (fastPeriod slowPeriod signalPeriod : nat) : MACDResult :=
  if (length prices <? slowPeriod)%nat then zeroResult
  else
    let emaFast := EMACalculator.Calculate prices fastPeriod in
    let emaSlow := EMACalculator.Calculate prices slowPeriod in
    let macd := (emaFast - emaSlow)%float in
    let macdValues :=
      for_range (length prices - slowPeriod) slowPeriod
        (fun i macdValues =>
           let fastEMA :=
             EMACalculator.Calculate (slice prices 0 (i + 1)) fastPeriod in
           let slowEMA :=
             EMACalculator.Calculate (slice prices 0 (i + 1)) slowPeriod in
           let macdValue := (fastEMA - slowEMA)%float in
           macdValues ++ [macdValue])
        [] in
    let signal :=
      if (signalPeriod <=? length macdValues)%nat
      then EMACalculator.Calculate macdValues signalPeriod
      else (macd * 0.9)%float in
    let histogram := (macd - signal)%float in
    {| MACD := macd; Signal := signal; Histogram := histogram |}.

Definition IsBullMarket (prices : list float)
    (fastPeriod slowPeriod signalPeriod : nat) : bool :=
  let result := Calculate prices fastPeriod slowPeriod signalPeriod in
  (MACD result >? Signal result)%float.

(** The backward scan of [IsBearMarketAcceptable], entered at index [j] with
    [bearishCount] bars counted: the loop condition [bearishCount < 6] is
    tested first, [j < 1] breaks, a prefix shorter than [slowPeriod] is
    passed over, and the first prefix that is not bearish breaks. *)
Fixpoint bearishScan (prices : list float)
    (fastPeriod slowPeriod signalPeriod : nat)
    (j bearishCount : nat) {struct j} : nat :=
  if (bearishCount <? 6)%nat then
    match j with
    | O => bearishCount
    | S j' =>
        let subCloses := slice prices 0 (j + 1) in
        if (slowPeriod <=? length subCloses)%nat then
          let subResult :=
            Calculate subCloses fastPeriod slowPeriod signalPeriod in
          if (MACD subResult <=? Signal subResult)%float
          then bearishScan prices fastPeriod slowPeriod signalPeriod
                 j' (bearishCount + 1)
          else bearishCount
        else bearishScan prices fastPeriod slowPeriod signalPeriod
               j' bearishCount
    end
  else bearishCount.

Definition IsBearMarketAcceptable (prices : list float)
    (fastPeriod slowPeriod signalPeriod : nat) : bool :=
  let result := Calculate prices fastPeriod slowPeriod signalPeriod in
  if (MACD result >? Signal result)%float then true
  else
    let bearishCount :=
      bearishScan prices fastPeriod slowPeriod signalPeriod
        (length prices - 1) 0 in
    (bearishCount <=? 5)%nat.

Fixpoint bullishScan (prices : list float)
    (fastPeriod slowPeriod signalPeriod : nat)
    (j bullishCount : nat) {struct j} : nat :=
  if (bullishCount <? 6)%nat then
    match j with
    | O => bullishCount
    | S j' =>
        let subCloses := slice prices 0 (j + 1) in
        if (slowPeriod <=? length subCloses)%nat then
          let subResult :=
            Calculate subCloses fastPeriod slowPeriod signalPeriod in
          if (MACD subResult >=? Signal subResult)%float
          then bullishScan prices fastPeriod slowPeriod signalPeriod
                 j' (bullishCount + 1)
          else bullishCount
        else bullishScan prices fastPeriod slowPeriod signalPeriod
               j' bullishCount
    end
  else bullishCount.

Definition IsBullMarketAcceptable (prices : list float)
    (fastPeriod slowPeriod signalPeriod : nat) : bool :=
  let result := Calculate prices fastPeriod slowPeriod signalPeriod in
  if (MACD result <? Signal result)%float then true
  else
    let bullishCount :=
      bullishScan prices fastPeriod slowPeriod signalPeriod
        (length prices - 1) 0 in
    (bullishCount <=? 5)%nat.

End MACDCalculator.

(** ** models/Candle.go, models/Stock.go *)

Module models.

Record Candle := {
  Date : Z;
  Open : float;
  High : float;
  Low : float;
  Close : float;
  Volume : Z
}.

Record CandleData := { Candles : list Candle }.

Record Stock := {
  Symbol : string;
  Name : string;
  Sector : string;
  Industry : string
}.

(** The zero value [Candle{}]. *)
Definition zeroCandle : Candle :=
  {| Date := 0; Open := 0; High := 0; Low := 0; Close := 0; Volume := 0 |}.

End models.

(** ** internal/strategy/candlestick.go *)

Module CandlestickPatternDetector.
Import models.

Inductive PatternType :=
| NoPattern
| Long2CandlestickReversal
| Short2CandlestickReversal
| LongPinbarReversal
| ShortPinbarReversal.

Definition PatternType_eqb (a b : PatternType) : bool :=
  match a, b with
  | NoPattern, NoPattern
  | Long2CandlestickReversal, Long2CandlestickReversal
  | Short2CandlestickReversal, Short2CandlestickReversal
  | LongPinbarReversal, LongPinbarReversal
  | ShortPinbarReversal, ShortPinbarReversal => true
  | _, _ => false
  end.

(** [candles[i]] for an index in range. *)
Definition candleAt (candles : list Candle) (i : nat) : Candle :=
  nth i candles zeroCandle.

Definition abs (x : float) : float :=
  if (x <? 0)%float then (- x)%float else x.

Definition min (a b : float) : float :=
  if (a <? b)%float then a else b.

Definition max (a b : float) : float :=
  if (a >? b)%float then a else b.

Definition getLowestEMA (ema20 ema50 ema100 ema200 : float) : float :=
  let emaSupport := ema20 in
  let emaSupport := if (ema50 <? emaSupport)%float then ema50 else emaSupport in
  let emaSupport := if (ema100 <? emaSupport)%float then ema100 else emaSupport in
  let emaSupport := if (ema200 <? emaSupport)%float then ema200 else emaSupport in
  emaSupport.

Definition getHighestEMA (ema20 ema50 ema100 ema200 : float) : float :=
  let emaResistance := ema20 in
  let emaResistance :=
    if (ema50 >? emaResistance)%float then ema50 else emaResistance in
  let emaResistance :=
    if (ema100 >? emaResistance)%float then ema100 else emaResistance in
  let emaResistance :=
    if (ema200 >? emaResistance)%float then ema200 else emaResistance in
  emaResistance.

Definition isReversalBodyAboveSupport (candle : Candle)
    (ema20 ema50 ema100 ema200 : float) : bool :=
  let emaSupport := getLowestEMA ema20 ema50 ema100 ema200 in
  let reversalBody := ((Open candle + Close candle) / 2)%float in
  (reversalBody >? emaSupport)%float.

Definition isTailPiercingSupport (reversalCandle previousCandle : Candle)
    (ema20 ema50 ema100 ema200 : float) : bool :=
  let emaSupport := getLowestEMA ema20 ema50 ema100 ema200 in
  let reversalLow := Low reversalCandle in
  let previousBearLow := Low previousCandle in
  (reversalLow <? emaSupport)%float && (reversalLow <? previousBearLow)%float.

Definition isBullishConfirmation (confirmationCandle reversalCandle : Candle)
    : bool :=
  if (Close confirmationCandle <=? High reversalCandle)%float then false
  else if (Close confirmationCandle <=? Open confirmationCandle)%float
  then false
  else (Low confirmationCandle >? Low reversalCandle)%float.

Definition isReversalBodyBelowResistance (candle : Candle)
    (ema20 ema50 ema100 ema200 : float) : bool :=
  let emaResistance := getHighestEMA ema20 ema50 ema100 ema200 in
  let reversalBody := ((Open candle + Close candle) / 2)%float in
  (reversalBody <? emaResistance)%float.

Definition isTailPiercingResistance (reversalCandle previousCandle : Candle)
    (ema20 ema50 ema100 ema200 : float) : bool :=
  let emaResistance := getHighestEMA ema20 ema50 ema100 ema200 in
  let reversalHigh := High reversalCandle in
  let previousBullHigh := High previousCandle in
  (reversalHigh >? emaResistance)%float
    && (reversalHigh >? previousBullHigh)%float.

Definition isBearishConfirmation (confirmationCandle reversalCandle : Candle)
    : bool :=
  if (Close confirmationCandle >=? Low reversalCandle)%float then false
  else if (Close confirmationCandle >=? Open confirmationCandle)%float
  then false
  else (High confirmationCandle <? High reversalCandle)%float.

Definition isBullishPinbar (candle : Candle) : bool :=
  let bodySize := abs (Close candle - Open candle)%float in
  let totalRange := (High candle - Low candle)%float in
  if (bodySize / totalRange >? 0.3)%float then false
  else
    let lowerWick := (min (Open candle) (Close candle) - Low candle)%float in
    (lowerWick / totalRange >=? 0.6)%float.

Definition isBearishPinbar (candle : Candle) : bool :=
  let bodySize := abs (Close candle - Open candle)%float in
  let totalRange := (High candle - Low candle)%float in
  if (bodySize / totalRange >? 0.3)%float then false
  else
    let upperWick := (High candle - max (Open candle) (Close candle))%float in
    (upperWick / totalRange >=? 0.6)%float.

Definition DetectLong2CandlestickReversal (candles : list Candle)
    (ema20 ema50 ema100 ema200 : float) : bool :=
  if (length candles <? 3)%nat then false
  else
    let lastCandle := candleAt candles (length candles - 1) in
    let secondCandle := candleAt candles (length candles - 2) in
    let firstCandle := candleAt candles (length candles - 3) in
    if negb (isReversalBodyAboveSupport secondCandle ema20 ema50 ema100 ema200)
    then false
    else if negb (isTailPiercingSupport secondCandle firstCandle
                    ema20 ema50 ema100 ema200)
    then false
    else if negb (isBullishConfirmation lastCandle secondCandle) then false
    else true.

Definition DetectShort2CandlestickReversal (candles : list Candle)
    (ema20 ema50 ema100 ema200 : float) : bool :=
  if (length candles <? 3)%nat then false
  else
    let lastCandle := candleAt candles (length candles - 1) in
    let secondCandle := candleAt candles (length candles - 2) in
    let firstCandle := candleAt candles (length candles - 3) in
    if negb (isReversalBodyBelowResistance secondCandle
               ema20 ema50 ema100 ema200)
    then false
    else if negb (isTailPiercingResistance secondCandle firstCandle
                    ema20 ema50 ema100 ema200)
    then false
    else if negb (isBearishConfirmation lastCandle secondCandle) then false
    else true.

Definition DetectLongPinbarReversal (candles : list Candle)
    (ema20 ema50 ema100 ema200 : float) : bool :=
  if (length candles <? 3)%nat then false
  else
    let pinbar := candleAt candles (length candles - 2) in
    let confirmation := candleAt candles (length candles - 1) in
    if negb (isBullishPinbar pinbar) then false
    else
      let emaSupport := getLowestEMA ema20 ema50 ema100 ema200 in
      let pinbarBody := ((Open pinbar + Close pinbar) / 2)%float in
      if (pinbarBody <=? emaSupport)%float then false
      else if (Low pinbar >=? emaSupport)%float then false
      else if negb (isBullishConfirmation confirmation pinbar) then false
      else true.

Definition DetectShortPinbarReversal (candles : list Candle)
    (ema20 ema50 ema100 ema200 : float) : bool :=
  if (length candles <? 3)%nat then false
  else
    let pinbar := candleAt candles (length candles - 2) in
    let confirmation := candleAt candles (length candles - 1) in
    if negb (isBearishPinbar pinbar) then false
    else
      let emaResistance := getHighestEMA ema20 ema50 ema100 ema200 in
      let pinbarBody := ((Open pinbar + Close pinbar) / 2)%float in
      if (pinbarBody >=? emaResistance)%float then false
      else if (High pinbar <=? emaResistance)%float then false
      else if negb (isBearishConfirmation confirmation pinbar) then false
      else true.

Definition DetectAllPatterns (candles : list Candle)
    (ema20 ema50 ema100 ema200 : float) : PatternType :=
  if (length candles <? 3)%nat then NoPattern
  else if DetectLong2CandlestickReversal candles ema20 ema50 ema100 ema200
  then Long2CandlestickReversal
  else if DetectShort2CandlestickReversal candles ema20 ema50 ema100 ema200
  then Short2CandlestickReversal
  else if DetectLongPinbarReversal candles ema20 ema50 ema100 ema200
  then LongPinbarReversal
  else if DetectShortPinbarReversal candles ema20 ema50 ema100 ema200
  then ShortPinbarReversal
  else NoPattern.

End CandlestickPatternDetector.

(** ** internal/strategy: the SAPAN scenario validator *)

Module SAPANStrategy.
Import models.

Record ValidationResult := {
  IsValid : bool;
  EMATrendValid : bool;
  StochasticValid : bool;
  MACDValid : bool;
  PatternValid : bool;
  PatternType : CandlestickPatternDetector.PatternType;
  Symbol : string;
  ValidationMessage : string
}.

(** The zero value [ValidationResult{}]. *)
Definition zeroResult : ValidationResult :=
  {| IsValid := false; EMATrendValid := false; StochasticValid := false;
     MACDValid := false; PatternValid := false;
     PatternType := CandlestickPatternDetector.NoPattern;
     Symbol := ""; ValidationMessage := "" |}.

Inductive ScenarioType := LongScenario | ShortScenario.

(** Field assignments [result.F = v]. *)
Definition setSymbol (r : ValidationResult) (v : string) :=
  {| IsValid := IsValid r; EMATrendValid := EMATrendValid r;
     StochasticValid := StochasticValid r; MACDValid := MACDValid r;
     PatternValid := PatternValid r; PatternType := PatternType r;
     Symbol := v; ValidationMessage := ValidationMessage r |}.
Definition setValidationMessage (r : ValidationResult) (v : string) :=
  {| IsValid := IsValid r; EMATrendValid := EMATrendValid r;
     StochasticValid := StochasticValid r; MACDValid := MACDValid r;
     PatternValid := PatternValid r; PatternType := PatternType r;
     Symbol := Symbol r; ValidationMessage := v |}.
Definition setEMATrendValid (r : ValidationResult) (v : bool) :=
  {| IsValid := IsValid r; EMATrendValid := v;
     StochasticValid := StochasticValid r; MACDValid := MACDValid r;
     PatternValid := PatternValid r; PatternType := PatternType r;
     Symbol := Symbol r; ValidationMessage := ValidationMessage r |}.
Definition setStochasticValid (r : ValidationResult) (v : bool) :=
  {| IsValid := IsValid r; EMATrendValid := EMATrendValid r;
     StochasticValid := v; MACDValid := MACDValid r;
     PatternValid := PatternValid r; PatternType := PatternType r;
     Symbol := Symbol r; ValidationMessage := ValidationMessage r |}.
Definition setMACDValid (r : ValidationResult) (v : bool) :=
  {| IsValid := IsValid r; EMATrendValid := EMATrendValid r;
     StochasticValid := StochasticValid r; MACDValid := v;
     PatternValid := PatternValid r; PatternType := PatternType r;
     Symbol := Symbol r; ValidationMessage := ValidationMessage r |}.
Definition setPatternValid (r : ValidationResult) (v : bool) :=
  {| IsValid := IsValid r; EMATrendValid := EMATrendValid r;
     StochasticValid := StochasticValid r; MACDValid := MACDValid r;
     PatternValid := v; PatternType := PatternType r;
     Symbol := Symbol r; ValidationMessage := ValidationMessage r |}.
Definition setPatternType (r : ValidationResult)
    (v : CandlestickPatternDetector.PatternType) :=
  {| IsValid := IsValid r; EMATrendValid := EMATrendValid r;
     StochasticValid := StochasticValid r; MACDValid := MACDValid r;
     PatternValid := PatternValid r; PatternType := v;
     Symbol := Symbol r; ValidationMessage := ValidationMessage r |}.
Definition setIsValid (r : ValidationResult) (v : bool) :=
  {| IsValid := v; EMATrendValid := EMATrendValid r;
     StochasticValid := StochasticValid r; MACDValid := MACDValid r;
     PatternValid := PatternValid r; PatternType := PatternType r;
     Symbol := Symbol r; ValidationMessage := ValidationMessage r |}.

Definition extractClosingPrices (candles : list Candle) : list float :=
  map Close candles.

Definition validateEMATrend (closes : list float) : bool :=
  EMACalculator.ValidateTrend closes.

Definition validateEMADowntrend (closes : list float) : bool :=
  EMACalculator.ValidateDowntrend closes.

Definition validateStochasticRSILong (closes : list float) : option bool :=
  StochasticRSICalculator.IsOversoldWithCrossover closes 5 3 3.

Definition validateStochasticRSIShort (closes : list float) : option bool :=
  StochasticRSICalculator.IsOverboughtWithCrossover closes 5 3 3.

Definition validateMACDLong (closes : list float) : bool :=
  MACDCalculator.IsBearMarketAcceptable closes 50 100 9.

Definition validateMACDShort (closes : list float) : bool :=
  MACDCalculator.IsBullMarketAcceptable closes 50 100 9.

(** [None] is a panic raised below (index out of range in the Stochastic
    RSI); every other outcome, the insufficient-data one included, is a
    returned [ValidationResult]. *)
Definition validateSetup (symbol : string) (candles : list Candle)
    (scenario : ScenarioType) : option ValidationResult :=
  let result := setSymbol zeroResult symbol in
  let closes := extractClosingPrices candles in
  if (length closes <? 200)%nat
  then Some (setValidationMessage result "Insufficient data for analysis")
  else
    let result :=
      setEMATrendValid result
        (match scenario with
         | LongScenario => validateEMATrend closes
         | ShortScenario => validateEMADowntrend closes
         end) in
    if negb (EMATrendValid result)
    then Some (setValidationMessage result
                 (match scenario with
                  | LongScenario =>
                      "EMA trend not in uptrend order (20 > 50 > 100 > 200)"
                  | ShortScenario =>
                      "EMA trend not in downtrend order (20 < 50 < 100 < 200)"
                  end))
    else
      match (match scenario with
             | LongScenario => validateStochasticRSILong closes
             | ShortScenario => validateStochasticRSIShort closes
             end) with
      | None => None
      | Some stochasticValid =>
          let result := setStochasticValid result stochasticValid in
          if negb (StochasticValid result)
          then Some (setValidationMessage result
                       (match scenario with
                        | LongScenario =>
                            "Stochastic RSI not in oversold region with crossover"
                        | ShortScenario =>
                            "Stochastic RSI not in overbought region with crossover"
                        end))
          else
            let result :=
              setMACDValid result
                (match scenario with
                 | LongScenario => validateMACDLong closes
                 | ShortScenario => validateMACDShort closes
                 end) in
            if negb (MACDValid result)
            then Some (setValidationMessage result
                         (match scenario with
                          | LongScenario =>
                              "MACD not in bull market or bear market exceeds 5 candlesticks"
                          | ShortScenario =>
                              "MACD not in bear market or bull market exceeds 5 candlesticks"
                          end))
            else
              let result :=
                setPatternType result
                  (CandlestickPatternDetector.DetectAllPatterns candles
                     (EMACalculator.Calculate closes 20)
                     (EMACalculator.Calculate closes 50)
                     (EMACalculator.Calculate closes 100)
                     (EMACalculator.Calculate closes 200)) in
              let result :=
                setPatternValid result
                  (match scenario with
                   | LongScenario =>
                       CandlestickPatternDetector.PatternType_eqb
                         (PatternType result)
                         CandlestickPatternDetector.Long2CandlestickReversal
                       || CandlestickPatternDetector.PatternType_eqb
                            (PatternType result)
                            CandlestickPatternDetector.LongPinbarReversal
                   | ShortScenario =>
                       CandlestickPatternDetector.PatternType_eqb
                         (PatternType result)
                         CandlestickPatternDetector.Short2CandlestickReversal
                       || CandlestickPatternDetector.PatternType_eqb
                            (PatternType result)
                            CandlestickPatternDetector.ShortPinbarReversal
                   end) in
              if negb (PatternValid result)
              then Some (setValidationMessage result
                           (match scenario with
                            | LongScenario =>
                                "Long reversal pattern not detected"
                            | ShortScenario =>
                                "Short reversal pattern not detected"
                            end))
              else
                let result := setIsValid result true in
                Some (setValidationMessage result
                        (match scenario with
                         | LongScenario =>
                             "All SAPAN long strategy conditions met"
                         | ShortScenario =>
                             "All SAPAN short strategy conditions met"
                         end))
      end.

Definition ValidateLongSetup (symbol : string) (candles : list Candle)
    : option ValidationResult :=
  validateSetup symbol candles LongScenario.

Definition ValidateShortSetup (symbol : string) (candles : list Candle)
    : option ValidationResult :=
  validateSetup symbol candles ShortScenario.

End SAPANStrategy.

(** ** internal/watcher: the watch list manager *)

Module WatchListManager.

Record WatchListManager := {
  longWatchList : gmap Z string;
  shortWatchList : gmap Z string
}.

Definition NewWatchListManager : WatchListManager :=
  {| longWatchList := ∅; shortWatchList := ∅ |}.

(** [now] is the value [time.Now().UTC()] returns inside the call. *)
Definition AddToLongWatchList (w : WatchListManager) (now : Z)
    (symbol : string) : WatchListManager :=
  {| longWatchList := <[now := symbol]> (longWatchList w);
     shortWatchList := shortWatchList w |}.

Definition AddToShortWatchList (w : WatchListManager) (now : Z)
    (symbol : string) : WatchListManager :=
  {| longWatchList := longWatchList w;
     shortWatchList := <[now := symbol]> (shortWatchList w) |}.

Definition GetLongWatchList (w : WatchListManager) : gmap Z string :=
  longWatchList w.

Definition GetShortWatchList (w : WatchListManager) : gmap Z string :=
  shortWatchList w.

Definition GetLongCount (w : WatchListManager) : nat :=
  size (longWatchList w).

Definition GetShortCount (w : WatchListManager) : nat :=
  size (shortWatchList w).


End WatchListManager.

(** ** internal/processor: progress counters and the per-symbol step *)

Module ProgressTracker.

(** [int32] arithmetic wraps around. *)
Definition int32 (z : Z) : Z := ((z + 2 ^ 31) mod 2 ^ 32 - 2 ^ 31)%Z.

Record ProgressTracker := {
  total : Z;
  processed : Z;
  valid : Z;
  errors : Z
}.

Definition NewProgressTracker (total : Z) : ProgressTracker :=
  {| total := int32 total; processed := 0; valid := 0; errors := 0 |}.

Definition UpdateProgress (p : ProgressTracker) (success valid_ : bool)
    : ProgressTracker :=
  let p :=
    {| total := total p; processed := int32 (processed p + 1);
       valid := valid p; errors := errors p |} in
  if success then
    if valid_
    then {| total := total p; processed := processed p;
            valid := int32 (valid p + 1); errors := errors p |}
    else p
  else {| total := total p; processed := processed p;
          valid := valid p; errors := int32 (errors p + 1) |}.

Definition IsComplete (p : ProgressTracker) : bool :=
  (total p <=? processed p)%Z.

(** [GetProgress]: the three counters and the percentage, which is left at
    its zero value unless [total > 0]. *)
Definition GetProgress (p : ProgressTracker) : Z * Z * Z * float :=
  let percentage :=
    if (0 <? total p)%Z
    then (Go.float64 (processed p) / Go.float64 (total p) * 100)%float
    else 0%float in
  (processed p, valid p, errors p, percentage).

End ProgressTracker.

Module StockProcessor.
Import models.

Record ProcessingResult := {
  Symbol : string;
  Success : bool;
  Error : option string;
  IsValid : bool;
  IsLongValid : bool;
  IsShortValid : bool;
  Message : string;
  Processed : bool
}.

(** The calls [processStock] makes on its collaborators, in program order. *)
Inductive Call :=
| CallFetchStockData (symbol : string) (outputSize : Z)
| CallLogPrintf (symbol : string) (err : string)
| CallValidateLongSetup (symbol : string)
| CallValidateShortSetup (symbol : string)
| CallAddToLongWatchList (symbol : string)
| CallAddToShortWatchList (symbol : string).

(** What a worker acts on: the shared watch list manager, the number of
    clock reads made so far, and the calls made so far (oldest first). *)
Record World := {
  watchListManager : WatchListManager.WatchListManager;
  timeReads : nat;
  calls : list Call
}.

Definition called (w : World) (c : Call) : World :=
  {| watchListManager := watchListManager w; timeReads := timeReads w;
     calls := calls w ++ [c] |}.

Section WithCollaborators.

(** The external fetch: the candle data and the error it returns. *)
Variable FetchStockData : string -> Z -> CandleData * option string.
(** The value of the n-th read of the clock. *)
Variable timeNow : nat -> Z.

Definition AddToLongWatchList (w : World) (symbol : string) : World :=
  {| watchListManager :=
       WatchListManager.AddToLongWatchList (watchListManager w)
         (timeNow (timeReads w)) symbol;
     timeReads := S (timeReads w);
     calls := calls w ++ [CallAddToLongWatchList symbol] |}.

Definition AddToShortWatchList (w : World) (symbol : string) : World :=
  {| watchListManager :=
       WatchListManager.AddToShortWatchList (watchListManager w)
         (timeNow (timeReads w)) symbol;
     timeReads := S (timeReads w);
     calls := calls w ++ [CallAddToShortWatchList symbol] |}.

(** [None] is a panic raised by a validation. *)
Definition processStock (stock : Stock) (w : World)
    : option (ProcessingResult * World) :=
  let symbol := models.Symbol stock in
  let w := called w (CallFetchStockData symbol 200) in
  let '(candleData, err) := FetchStockData symbol 200 in
  match err with
  | Some e =>
      let w := called w (CallLogPrintf symbol e) in
      Some ({| Symbol := symbol; Success := false; Error := Some e;
               IsValid := false; IsLongValid := false;
               IsShortValid := false; Message := ""; Processed := true |},
            w)
  | None =>
      let w := called w (CallValidateLongSetup symbol) in
      match SAPANStrategy.ValidateLongSetup symbol (Candles candleData) with
      | None => None
      | Some longResult =>
          match
            (if negb (SAPANStrategy.IsValid longResult)
             then
               match SAPANStrategy.ValidateShortSetup symbol
                       (Candles candleData) with
               | None => None
               | Some shortResult =>
                   Some (shortResult,
                         called w (CallValidateShortSetup symbol))
               end
             else Some (SAPANStrategy.zeroResult, w))
          with
          | None => None
          | Some (shortResult, w) =>
              let isLongValid := SAPANStrategy.IsValid longResult in
              let isShortValid :=
                negb (SAPANStrategy.IsValid longResult)
                && SAPANStrategy.IsValid shortResult in
              let isValid :=
                SAPANStrategy.IsValid longResult
                || SAPANStrategy.IsValid shortResult in
              let result (msg : string) :=
                {| Symbol := symbol; Success := true; Error := None;
                   IsValid := isValid; IsLongValid := isLongValid;
                   IsShortValid := isShortValid; Message := msg;
                   Processed := true |} in
              if SAPANStrategy.IsValid longResult then
                Some (result (SAPANStrategy.ValidationMessage longResult),
                      AddToLongWatchList w symbol)
              else if SAPANStrategy.IsValid shortResult then
                Some (result (SAPANStrategy.ValidationMessage shortResult),
                      AddToShortWatchList w symbol)
              else Some (result "No valid SAPAN setups detected"%string, w)
          end
      end
  end.

(** One worker draining the stock channel: a result is sent and the
    progress counters are updated for every stock received. *)
Fixpoint worker (stockChan : list Stock)
    (resultChan : list ProcessingResult)
    (progressTracker : ProgressTracker.ProgressTracker) (w : World)
    : option (list ProcessingResult * ProgressTracker.ProgressTracker
              * World) :=
  match stockChan with
  | [] => Some (resultChan, progressTracker, w)
  | stock :: stockChan' =>
      match processStock stock w with
      | None => None
      | Some (result, w) =>
          worker stockChan' (resultChan ++ [result])
            (ProgressTracker.UpdateProgress progressTracker
               (Success result) (IsValid result))
            w
      end
  end.

End WithCollaborators.

(** The counters of [collectResults] (Go [int]s that count results). *)
Record Summary := {
  successCount : nat;
  errorCount : nat;
  validCount : nat;
  longCount : nat;
  shortCount : nat
}.

(** The line [collectResults] logs for a result. *)
Inductive LogLine :=
| LogValid (symbol message : string)
| LogInvalid (symbol message : string)
| LogError (symbol : string) (err : option string).

Definition logLine (result : ProcessingResult) : LogLine :=
  if Success result then
    if IsValid result then LogValid (Symbol result) (Message result)
    else LogInvalid (Symbol result) (Message result)
  else LogError (Symbol result) (Error result).

(** The loop of [collectResults] over the results received, and the
    total it prints as processed. *)
Definition collectResults (resultChan : list ProcessingResult)
    : Summary * list LogLine :=
  fold_left
    (fun '(s, logged) result =>
       let s :=
         if Success result then
           let s :=
             {| successCount := successCount s + 1;
                errorCount := errorCount s; validCount := validCount s;
                longCount := longCount s; shortCount := shortCount s |} in
           let s :=
             if IsValid result
             then {| successCount := successCount s;
                     errorCount := errorCount s;
                     validCount := validCount s + 1;
                     longCount := longCount s; shortCount := shortCount s |}
             else s in
           let s :=
             if IsLongValid result
             then {| successCount := successCount s;
                     errorCount := errorCount s; validCount := validCount s;
                     longCount := longCount s + 1;
                     shortCount := shortCount s |}
             else s in
           if IsShortValid result
           then {| successCount := successCount s;
                   errorCount := errorCount s; validCount := validCount s;
                   longCount := longCount s;
                   shortCount := shortCount s + 1 |}
           else s
         else
           {| successCount := successCount s;
              errorCount := errorCount s + 1; validCount := validCount s;
              longCount := longCount s; shortCount := shortCount s |} in
       (s, logged ++ [logLine result]))
    resultChan
    ({| successCount := 0; errorCount := 0; validCount := 0;
        longCount := 0; shortCount := 0 |}, []).

Definition totalProcessed (s : Summary) : nat :=
  successCount s + errorCount s.

End StockProcessor.

(** ** internal/config: settings read from the environment *)

Module Config.

Record Config := {
  APIKey : string;
  APIURL : string;
  WorkerCount : Z;
  RequestDelay : Z;
  StocksFile : string;
  OutputSize : Z
}.

(** [time.Duration] is an [int64] of nanoseconds, whose arithmetic wraps
    around. *)
Definition int64 (z : Z) : Z := ((z + 2 ^ 63) mod 2 ^ 64 - 2 ^ 63)%Z.
Definition Second : Z := 1000000000.

Section Environment.

(** [os.Getenv]: the value of a variable, empty when it is not set. *)
Variable Getenv : string -> string.
(** [strconv.Atoi]: the [int] read, or the text of its error. *)
Variable Atoi : string -> Z + string.

(** The configuration, or the text of the error returned with [nil]. *)
Definition LoadConfig : Config + string :=
  let apiKey := Getenv "ALPHA_VANTAGE_API_KEY" in
  if String.eqb apiKey ""
  then inr "ALPHA_VANTAGE_API_KEY environment variable is required"%string
  else
    let apiURL := Getenv "ALPHA_VANTAGE_API_URL" in
    let apiURL :=
      if negb (String.eqb apiURL "") then apiURL
      else "https://www.alphavantage.co/query"%string in
    let workerCountStr := Getenv "WORKER_COUNT" in
    match (if negb (String.eqb workerCountStr "") then Atoi workerCountStr
           else inl 5%Z) with
    | inr err => inr ("invalid WORKER_COUNT value: " ++ err)%string
    | inl workerCount =>
        let requestDelayStr := Getenv "REQUEST_DELAY_SECONDS" in
        match (if negb (String.eqb requestDelayStr "")
               then match Atoi requestDelayStr with
                    | inl requestDelay => inl (int64 (requestDelay * Second))
                    | inr err => inr err
                    end
               else inl (int64 (Second * 2))) with
        | inr err =>
            inr ("invalid REQUEST_DELAY_SECONDS value: " ++ err)%string
        | inl requestDelay =>
            let stocksFile := Getenv "STOCKS_FILE" in
            let stocksFile :=
              if negb (String.eqb stocksFile "") then stocksFile
              else "dist/Stocks.json"%string in
            let outputSizeStr := Getenv "OUTPUT_SIZE" in
            match (if negb (String.eqb outputSizeStr "")
                   then Atoi outputSizeStr else inl 200%Z) with
            | inr err => inr ("invalid OUTPUT_SIZE value: " ++ err)%string
            | inl outputSize =>
                inl {| APIKey := apiKey; APIURL := apiURL;
                       WorkerCount := workerCount;
                       RequestDelay := requestDelay;
                       StocksFile := stocksFile;
                       OutputSize := outputSize |}
            end
        end
    end.

End Environment.

Definition GetOptimalWorkerCount (c : Config) : Z :=
  if (WorkerCount c >? 10)%Z then 10%Z
  else if (WorkerCount c <? 1)%Z then 1%Z
  else WorkerCount c.

End Config.


(** * Specification-side definitions

    What the statements below compare the code with: the indicator
    formulas as folds over lists, the scan of the MACD prefixes as a run
    length, the first-match reading of the pattern priority, and an
    order-preserving rank of the binary64 numbers. *)

Module Float64.

(** An integer rank of the numbers of the format, increasing with the
    number: the two zeros share rank 0 and a NaN is given rank 0 too (it is
    never compared through its rank). *)
Definition SFrank (x : spec_float) : Z :=
  match x with
  | S754_zero _ => 0
  | S754_nan => 0
  | S754_infinity false => 3000 * 2 ^ 53
  | S754_infinity true => - (3000 * 2 ^ 53)
  | S754_finite false m e => (e + 1075) * 2 ^ 53 + Zpos m
  | S754_finite true m e => - ((e + 1075) * 2 ^ 53 + Zpos m)
  end%Z.

Definition rank (x : float) : Z := SFrank (Prim2SF x).

(** [x != x] in Go: the test for a NaN. *)
Definition isNaN (x : float) : bool := negb (x =? x)%float.

Definition SFzeroOrNaN (x : spec_float) : bool :=
  match x with
  | S754_zero _ | S754_nan => true
  | _ => false
  end.

Definition zeroOrNaN (x : float) : bool := SFzeroOrNaN (Prim2SF x).

(** A zero, a positive number or a NaN. *)
Definition SFnonnegOrNaN (x : spec_float) : bool :=
  match x with
  | S754_zero _ | S754_nan => true
  | S754_infinity s | S754_finite s _ _ => negb s
  end.

Definition nonnegOrNaN (x : float) : bool := SFnonnegOrNaN (Prim2SF x).

(** The definitions below are on integers. *)
Local Open Scope Z_scope.

(** The record reached from an exact mantissa [M] after [k] right shifts. *)
Definition shifted (M k : Z) : shr_record :=
  {| shr_m := M / 2 ^ k;
     shr_r := (0 <? k) && Z.odd (M / 2 ^ (k - 1));
     shr_s := (0 <? k) && negb (M mod 2 ^ (k - 1) =? 0) |}.

(** Round to nearest, ties to even, of [M / 2^k]. *)
Definition rne (M k : Z) : Z :=
  let q := M / 2 ^ k in
  let r := M mod 2 ^ k in
  if 2 * r <? 2 ^ k then q
  else if (2 * r =? 2 ^ k) && Z.even q then q
  else q + 1.

(** The value of a number in units of 2^-1074, the infinities standing for
    the first power of two out of range. *)
Definition SFscaled (x : spec_float) : Z :=
  match x with
  | S754_zero _ | S754_nan => 0
  | S754_infinity false => 2 ^ 2098
  | S754_infinity true => - 2 ^ 2098
  | S754_finite false m e => Zpos m * 2 ^ (e + 1074)
  | S754_finite true m e => - (Zpos m * 2 ^ (e + 1074))
  end.

(** Rounding of a positive number of units to 53 significant bits. *)
Definition roundZ (V : Z) : Z :=
  let k := Z.max 0 (Zdigits2 V - 53) in
  Z.min (rne V k * 2 ^ k) (2 ^ 2098).

Definition SFfinite (x : spec_float) : bool :=
  match x with
  | S754_zero _ | S754_finite _ _ _ => true
  | _ => false
  end.

(** A NaN, or a number between 0 and 100. *)
Definition SFpercent (r : spec_float) : bool :=
  match r with
  | S754_nan => true
  | _ => SFleb (S754_zero false) r && SFleb r (Prim2SF 100)
  end.

Definition percentOrNaN (x : float) : bool :=
  isNaN x || ((0 <=? x)%float && (x <=? 100)%float).

End Float64.

Module Spec.
Import Go Float64.

(** EMA as the spec words it: the sentinel 0 on a short series, otherwise
    the mean of the first [period] prices pushed through the recurrence
    [ema = price * alpha + ema * (1 - alpha)] over the remaining prices. *)
Definition EMA (prices : list float) (period : nat) : float :=
  if (length prices <? period)%nat then 0%float
  else
    let alpha := (2 / (float64 (Z.of_nat period) + 1))%float in
    let seed :=
      (fold_left PrimFloat.add (firstn period prices) 0
         / float64 (Z.of_nat period))%float in
    fold_left (fun ema price => (price * alpha + ema * (1 - alpha))%float)
      (skipn period prices) seed.

(** A price series that rises at every step. *)
Fixpoint strictlyIncreasing (prices : list float) : bool :=
  match prices with
  | x :: (y :: _) as rest => (x <? y)%float && strictlyIncreasing rest
  | _ => true
  end.

(** The simple average of a window of [n] values. *)
Definition sma (window : list float) (n : nat) : float :=
  (fold_left PrimFloat.add window 0 / float64 (Z.of_nat n))%float.

Definition lastN {A} (n : nat) (l : list A) : list A :=
  skipn (length l - n) l.

(** %D of a %K trajectory: the average of its last [d] values. *)
Definition percentD (ks : list float) (d : nat) : float :=
  sma (lastN d ks) d.

(** The crossover test on a %K trajectory: the previous %K below the
    previous %D (the %D of the trajectory without its last bar), the current
    %K above the current %D, and the previous %K below 30. *)
Definition crossoverTest (ks : list float) (d : nat) : bool :=
  match rev ks with
  | currentK :: prevK :: _ =>
      (prevK <? percentD (removelast ks) d)%float
      && (currentK >? percentD ks d)%float
      && (prevK <? 30)%float
  | _ => false
  end.

(** The %K trajectory of a price series (empty where the code panics). *)
Definition percentKValues (prices : list float) (r k : nat) : list float :=
  match StochasticRSICalculator.stochKTrajectory
          (StochasticRSICalculator.rsiTrajectory prices r) k with
  | Some ks => ks
  | None => []
  end.

(** The %K window that ends at index [i]: the [k] RSI values up to [i]. *)
Definition window (rsiValues : list float) (k i : nat) : list float :=
  firstn k (skipn (i + 1 - k) rsiValues).

Definition windowHighest (w : list float) : float :=
  fold_left (fun hi x => if (x >? hi)%float then x else hi) w (hd 0%float w).

Definition windowLowest (w : list float) : float :=
  fold_left (fun lo x => if (x <? lo)%float then x else lo) w (hd 0%float w).

Definition noNaN (w : list float) : bool :=
  forallb (fun x => negb (isNaN x)) w.

(** The prefixes [prices[:j+1]] the backward scan visits, last bar first:
    [j] runs from [len(prices) - 1] down to 1. *)
Definition prefixesBackward (prices : list float) : list (list float) :=
  map (fun j => firstn (j + 1) prices) (rev (seq 1 (length prices - 1))).

(** The length of the initial run of elements that satisfy [P]. *)
Fixpoint consecutive {A} (P : A -> bool) (l : list A) : nat :=
  match l with
  | [] => 0
  | x :: l' => if P x then S (consecutive P l') else 0
  end.

Definition atOrBelowSignal (f s g : nat) (p : list float) : bool :=
  let r := MACDCalculator.Calculate p f s g in
  (MACDCalculator.MACD r <=? MACDCalculator.Signal r)%float.

Definition atOrAboveSignal (f s g : nat) (p : list float) : bool :=
  let r := MACDCalculator.Calculate p f s g in
  (MACDCalculator.MACD r >=? MACDCalculator.Signal r)%float.

(** The bars counted by the bear-market check: the consecutive prefixes,
    among those long enough for MACD, whose MACD is at or below the signal,
    capped at 6. *)
Definition bearishBars (prices : list float) (f s g : nat) : nat :=
  Nat.min 6
    (consecutive (atOrBelowSignal f s g)
       (List.filter (fun p => (s <=? length p)%nat) (prefixesBackward prices))).

Definition bullishBars (prices : list float) (f s g : nat) : nat :=
  Nat.min 6
    (consecutive (atOrAboveSignal f s g)
       (List.filter (fun p => (s <=? length p)%nat) (prefixesBackward prices))).

(** The four gates of a scenario, each on its own. *)
Definition emaGate (scenario : SAPANStrategy.ScenarioType)
    (closes : list float) : bool :=
  match scenario with
  | SAPANStrategy.LongScenario => EMACalculator.ValidateTrend closes
  | SAPANStrategy.ShortScenario => EMACalculator.ValidateDowntrend closes
  end.

Definition stochasticGate (scenario : SAPANStrategy.ScenarioType)
    (closes : list float) : bool :=
  match (match scenario with
         | SAPANStrategy.LongScenario =>
             StochasticRSICalculator.IsOversoldWithCrossover closes 5 3 3
         | SAPANStrategy.ShortScenario =>
             StochasticRSICalculator.IsOverboughtWithCrossover closes 5 3 3
         end) with
  | Some b => b
  | None => false
  end.

Definition macdGate (scenario : SAPANStrategy.ScenarioType)
    (closes : list float) : bool :=
  match scenario with
  | SAPANStrategy.LongScenario =>
      MACDCalculator.IsBearMarketAcceptable closes 50 100 9
  | SAPANStrategy.ShortScenario =>
      MACDCalculator.IsBullMarketAcceptable closes 50 100 9
  end.

(** The pattern of a history, at the four EMA levels of its closes. *)
Definition patternOf (candles : list models.Candle)
    : CandlestickPatternDetector.PatternType :=
  let closes := map models.Close candles in
  CandlestickPatternDetector.DetectAllPatterns candles
    (EMACalculator.Calculate closes 20) (EMACalculator.Calculate closes 50)
    (EMACalculator.Calculate closes 100) (EMACalculator.Calculate closes 200).

Definition patternGate (scenario : SAPANStrategy.ScenarioType)
    (candles : list models.Candle) : bool :=
  match scenario, patternOf candles with
  | SAPANStrategy.LongScenario,
    (CandlestickPatternDetector.Long2CandlestickReversal
     | CandlestickPatternDetector.LongPinbarReversal) => true
  | SAPANStrategy.ShortScenario,
    (CandlestickPatternDetector.Short2CandlestickReversal
     | CandlestickPatternDetector.ShortPinbarReversal) => true
  | _, _ => false
  end.

(** The priority order of the pattern variants: the first predicate that
    matches decides. *)
Definition firstMatch (candles : list models.Candle)
    (ema20 ema50 ema100 ema200 : float) : CandlestickPatternDetector.PatternType :=
  if CandlestickPatternDetector.DetectLong2CandlestickReversal
       candles ema20 ema50 ema100 ema200
  then CandlestickPatternDetector.Long2CandlestickReversal
  else if CandlestickPatternDetector.DetectShort2CandlestickReversal
            candles ema20 ema50 ema100 ema200
  then CandlestickPatternDetector.Short2CandlestickReversal
  else if CandlestickPatternDetector.DetectLongPinbarReversal
            candles ema20 ema50 ema100 ema200
  then CandlestickPatternDetector.LongPinbarReversal
  else if CandlestickPatternDetector.DetectShortPinbarReversal
            candles ema20 ema50 ema100 ema200
  then CandlestickPatternDetector.ShortPinbarReversal
  else CandlestickPatternDetector.NoPattern.

(** The pattern types of each direction. *)
Definition isLongPattern (p : CandlestickPatternDetector.PatternType) : bool :=
  match p with
  | CandlestickPatternDetector.Long2CandlestickReversal
  | CandlestickPatternDetector.LongPinbarReversal => true
  | _ => false
  end.

Definition isShortPattern (p : CandlestickPatternDetector.PatternType) : bool :=
  match p with
  | CandlestickPatternDetector.Short2CandlestickReversal
  | CandlestickPatternDetector.ShortPinbarReversal => true
  | _ => false
  end.

(** The flags of a processing result agree: a failure sets none, and the
    flags of a success are exclusive and make up IsValid. *)
Definition resultFlagsOk (r : StockProcessor.ProcessingResult) : bool :=
  if StockProcessor.Success r
  then eqb (StockProcessor.IsValid r)
         (StockProcessor.IsLongValid r || StockProcessor.IsShortValid r)
       && negb (StockProcessor.IsLongValid r && StockProcessor.IsShortValid r)
  else negb (StockProcessor.IsValid r) && negb (StockProcessor.IsLongValid r)
       && negb (StockProcessor.IsShortValid r).

(** The number of elements that pass a test. *)
Definition countIf {A} (P : A -> bool) (l : list A) : nat :=
  length (List.filter P l).


End Spec.

(** * Example data *)

Module Examples.
Import models.

Definition candle (o h l c : float) : Candle :=
  {| Date := 0; Open := o; High := h; Low := l; Close := c; Volume := 0 |}.

(** A tail that is both a long 2-candlestick reversal and a long pinbar
    reversal over a support of 100: a bar before, a pinbar whose long lower
    wick pierces the support and the previous low, and a bullish bar that
    closes above the pinbar's high with a higher low. *)
Definition reversalTail : list Candle :=
  [ candle 100 101 99 100;
    candle 101 102 95 101.5;
    candle 101.5 104 101 103 ].

(** Zero-range candles whose open and close lie outside [Low, High]. *)
Definition flatAbove : Candle := candle 5 3 3 5.
Definition flatBelow : Candle := candle 1 3 3 1.

(** Finite, positive prices whose gains and losses overflow when summed. *)
Definition overflowingPrices : list float :=
  [ 1; 0x1p1023; 1; 0x1p1023; 1; 0x1p1023;
    1; 0x1p1023; 1; 0x1p1023; 1; 0x1p1023 ]%float.

(** A short price series, its RSI and %K trajectories for the periods 5
    and 3, and what the Stochastic RSI returns on it (periods 5/3/3). *)
Definition swingPrices : list float :=
  [ 1; 2; 1; 3; 1; 5; 2; 4; 3; 6; 2; 7; 8; 3; 9 ]%float.

Definition swingRSI : list float :=
  Eval vm_compute in StochasticRSICalculator.rsiTrajectory swingPrices 5.

Definition swingK : list float :=
  Eval vm_compute in Spec.percentKValues swingPrices 5 3.

Definition swingResult : StochasticRSICalculator.StochasticRSIResult :=
  Eval vm_compute in
    match StochasticRSICalculator.Calculate swingPrices 5 3 3 with
    | Some result => result
    | None => StochasticRSICalculator.zeroResult
    end.

(** A falling series, long enough for MACD with the periods 2/3/2 at each
    of the six prefixes the scan can reach. *)
Definition fallingPrices : list float :=
  [ 9; 8; 7; 6; 5; 4; 3; 2; 1; 0.5 ]%float.

Definition noStock (symbol : string) : Stock :=
  {| Symbol := symbol; Name := ""; Sector := ""; Industry := "" |}.

(** A fetch that succeeds with an empty history, one that always fails, and
    a clock that ticks once per read. *)
Definition fetchEmpty (symbol : string) (outputSize : Z)
    : CandleData * option string :=
  ({| Candles := [] |}, None).


Definition tick (n : nat) : Z := Z.of_nat n.

Definition emptyWorld : StockProcessor.World :=
  {| StockProcessor.watchListManager := WatchListManager.NewWatchListManager;
     StockProcessor.timeReads := 0;
     StockProcessor.calls := [] |}.

(** Closing prices of a rising and of a falling market, 203 bars each, on
    which every gate of the Long and of the Short scenario passes. *)
Definition trendCloses : list float :=
  [
    99.51; 99.62; 100.13; 101.44; 102.33; 102.6; 103.96; 103.42;
    104.53; 105.48; 104.23; 105.74; 105.04; 107.48; 106.02; 108.09;
    108.81; 108.05; 108.94; 110.1; 110.0; 111.3; 111.59; 110.54;
    112.26; 113.05; 112.25; 113.44; 113.41; 114.8; 115.37; 115.81;
    115.04; 116.4; 117.15; 117.43; 117.82; 119.28; 118.54; 119.97;
    119.35; 121.17; 121.41; 121.41; 122.41; 123.27; 122.45; 123.51;
    123.8; 124.95; 124.49; 125.56; 126.46; 126.89; 126.16; 127.71;
    128.76; 128.14; 128.6; 128.6; 129.16; 131.0; 130.77; 131.62;
    131.23; 131.73; 132.96; 134.13; 133.9; 135.13; 135.13; 134.65;
    136.83; 136.97; 136.51; 136.58; 138.46; 139.47; 139.52; 138.91;
    140.13; 140.33; 141.71; 142.09; 141.78; 142.77; 143.49; 143.54;
    144.25; 145.49; 145.58; 144.8; 145.4; 145.63; 147.4; 146.83;
    148.75; 148.9; 148.27; 148.95; 150.79; 149.65; 150.66; 150.8;
    152.91; 153.25; 153.18; 152.67; 155.0; 153.62; 154.03; 155.96;
    156.72; 156.3; 156.68; 157.68; 157.56; 159.33; 158.9; 158.62;
    159.26; 159.84; 161.31; 161.32; 161.31; 162.87; 162.11; 164.49;
    164.3; 163.8; 164.04; 166.12; 166.05; 166.52; 166.14; 166.56;
    167.04; 168.29; 169.53; 169.3; 170.75; 171.03; 170.9; 171.63;
    171.3; 171.51; 172.72; 174.4; 174.76; 174.61; 175.11; 175.39;
    176.56; 175.83; 177.86; 177.98; 178.44; 178.2; 179.03; 178.74;
    180.87; 180.99; 180.4; 182.14; 182.95; 182.85; 183.03; 183.29;
    184.51; 184.0; 185.75; 184.51; 186.33; 185.79; 187.25; 188.17;
    188.43; 187.83; 188.99; 190.0; 189.09; 190.69; 190.29; 192.36;
    191.56; 192.4; 193.91; 193.34; 194.61; 194.77; 194.61; 196.46;
    195.89; 196.44; 197.93; 197.24; 198.92; 199.24; 196.73; 194.62;
    194.27; 192.76; 193.5
  ]%float.

Definition downtrendCloses : list float :=
  [
    299.37; 298.93; 298.57; 297.67; 298.64; 297.63; 297.31; 296.08;
    296.55; 296.42; 296.0; 293.58; 293.62; 292.68; 292.95; 292.82;
    292.22; 291.21; 291.93; 290.75; 290.99; 289.35; 289.29; 287.7;
    288.07; 287.79; 286.47; 286.75; 285.26; 285.42; 285.21; 284.46;
    283.3; 282.88; 282.75; 282.8; 281.87; 280.9; 280.68; 280.12;
    279.28; 279.68; 278.94; 278.15; 277.0; 278.33; 276.09; 275.73;
    275.59; 276.08; 275.87; 275.02; 273.41; 274.18; 272.06; 271.72;
    271.22; 271.63; 271.19; 270.75; 270.9; 270.0; 269.49; 267.85;
    268.82; 268.34; 267.66; 265.66; 266.43; 265.54; 265.07; 264.04;
    264.55; 264.11; 263.54; 262.1; 262.47; 260.67; 261.36; 259.56;
    259.01; 258.71; 259.31; 259.47; 257.94; 257.79; 257.17; 257.18;
    256.94; 256.14; 254.66; 253.64; 254.79; 253.06; 253.52; 253.23;
    251.34; 250.89; 250.85; 251.19; 250.7; 250.49; 248.55; 248.75;
    248.75; 247.25; 247.17; 245.95; 246.71; 245.39; 244.97; 244.81;
    243.64; 244.13; 242.92; 242.36; 242.45; 241.83; 241.42; 241.25;
    240.62; 239.32; 239.29; 239.23; 237.11; 237.82; 237.05; 236.31;
    235.24; 235.08; 235.5; 235.27; 234.97; 234.01; 233.76; 233.15;
    231.33; 231.88; 231.74; 231.0; 229.55; 229.9; 228.78; 228.37;
    228.46; 227.85; 226.27; 226.78; 225.12; 224.91; 225.65; 225.33;
    223.51; 224.03; 222.36; 222.5; 221.7; 220.67; 220.87; 220.6;
    220.7; 218.71; 218.58; 217.51; 217.42; 217.03; 217.64; 217.38;
    215.43; 215.46; 215.05; 214.48; 214.92; 214.4; 212.08; 212.32;
    212.06; 211.8; 211.06; 211.14; 209.2; 209.42; 209.66; 207.84;
    207.35; 207.73; 206.29; 206.59; 205.25; 204.87; 204.67; 205.07;
    204.22; 203.72; 203.26; 202.29; 202.01; 201.44; 204.26; 200.69;
    197.19; 196.42; 196.36
  ]%float.

(** A bar whose four prices are one value. *)
Definition flat (c : float) : Candle := candle c c c c.

(** The histories: flat bars on the first 201 closes, then a reversal bar
    whose tail pierces the lowest (highest) EMA and the previous low (high),
    and a confirmation bar that closes beyond it. *)
Definition trendCandles : list Candle :=
  (map flat (firstn 201 trendCloses)
     ++ [ candle 192.76 192.76 100 192.76;
          candle 192.76 193.5 192.76 193.5 ])%list.

Definition downtrendCandles : list Candle :=
  (map flat (firstn 201 downtrendCloses)
     ++ [ candle 196.42 250 196.42 196.42;
          candle 196.42 196.42 196.36 196.36 ])%list.

(** A fetch that knows the two histories. *)
Definition fetchHistory (symbol : string) (outputSize : Z)
    : CandleData * option string :=
  if String.eqb symbol "UP" then ({| Candles := trendCandles |}, None)
  else if String.eqb symbol "DOWN" then ({| Candles := downtrendCandles |}, None)
  else ({| Candles := [] |}, Some "unknown symbol"%string).

(** The verdict of the Long scenario on the rising history. *)
Definition trendVerdict : SAPANStrategy.ValidationResult :=
  {| SAPANStrategy.IsValid := true;
     SAPANStrategy.EMATrendValid := true;
     SAPANStrategy.StochasticValid := true;
     SAPANStrategy.MACDValid := true;
     SAPANStrategy.PatternValid := true;
     SAPANStrategy.PatternType :=
       CandlestickPatternDetector.Long2CandlestickReversal;
     SAPANStrategy.Symbol := "UP";
     SAPANStrategy.ValidationMessage :=
       "All SAPAN long strategy conditions met" |}.

End Examples.

(** * Loops as folds *)

Section ForRange.
Import Go.
Context {St : Type}.

Lemma for_range_ext (body body' : nat -> St -> St) count start st :
  (forall i s, start <= i < start + count -> body i s = body' i s) ->
  for_range count start body st = for_range count start body' st.
Proof.
  revert start st. induction count as [|c IH]; intros start st Hb; simpl.
  - reflexivity.
  - rewrite Hb by lia. apply IH. intros i s Hi. apply Hb. lia.
Qed.

Lemma for_range_S (body : nat -> St -> St) count start st :
  for_range (S count) start body st =
  body (start + count) (for_range count start body st).
Proof.
  revert start st. induction count as [|c IH]; intros start st.
  - simpl. now rewrite Nat.add_0_r.
  - change (for_range (S (S c)) start body st)
      with (for_range (S c) (S start) body (body start st)).
    rewrite IH. simpl. f_equal. lia.
Qed.

(** A loop that reads [l[i]] at each index is a fold over that stretch of
    the slice. *)
Lemma for_range_fold {A} (f : St -> A -> St) (l : list A) (d : A) count start st :
  start + count <= length l ->
  for_range count start (fun i s => f s (nth i l d)) st =
  fold_left f (firstn count (skipn start l)) st.
Proof.
  revert start st. induction count as [|c IH]; intros start st Hlen; simpl.
  - reflexivity.
  - rewrite IH by lia.
    destruct (skipn start l) as [|x l'] eqn:E.
    + exfalso. apply (f_equal (@length A)) in E.
      rewrite length_skipn in E. simpl in E. lia.
    + simpl.
      assert (Hx : nth start l d = x).
      { rewrite <- (firstn_skipn start l) at 1.
        rewrite app_nth2; rewrite length_firstn; [|lia].
        replace (start - Nat.min start (length l)) with 0 by lia. now rewrite E. }
      assert (Hl : skipn (S start) l = l').
      { change (S start) with (1 + start). rewrite <- skipn_skipn. now rewrite E. }
      now rewrite Hx, Hl.
Qed.

(** Loop invariants: [P c] holds of the state after [c] iterations. *)
Lemma for_range_inv (P : nat -> St -> Prop) (body : nat -> St -> St) count start st :
  P 0 st ->
  (forall c s, c < count -> P c s -> P (S c) (body (start + c) s)) ->
  P count (for_range count start body st).
Proof.
  intros H0 Hstep. induction count as [|c IH].
  - exact H0.
  - rewrite for_range_S. apply Hstep; [lia|].
    apply IH. intros c' s Hc. apply Hstep. lia.
Qed.

End ForRange.

Lemma for_range_snoc_map {A} (g : nat -> A) count start acc :
  Go.for_range count start (fun i acc => acc ++ [g i]) acc =
  acc ++ map g (seq start count).
Proof.
  revert start acc. induction count as [|c IH]; intros; simpl.
  - now rewrite app_nil_r.
  - rewrite IH, <- app_assoc. reflexivity.
Qed.

Lemma fold_left_pair {A B C} (f : A -> C -> A) (g : B -> C -> B) (l : list C) a b :
  fold_left (fun '(a, b) x => (f a x, g b x)) l (a, b) =
  (fold_left f l a, fold_left g l b).
Proof.
  revert a b. induction l as [|x l IH]; intros; simpl; [reflexivity|apply IH].
Qed.

Lemma slice_0 {A} (l : list A) b : Go.slice l 0 b = firstn b l.
Proof. unfold Go.slice. now rewrite Nat.sub_0_r. Qed.

Lemma rev_seq_S a n : rev (seq a (S n)) = (a + n) :: rev (seq a n).
Proof. rewrite seq_S, rev_app_distr. reflexivity. Qed.

Lemma last_nth (l : list float) :
  l <> [] -> List.last l 0%float = nth (length l - 1) l 0%float.
Proof.
  destruct l as [|a l] using rev_ind; [congruence|intros _].
  rewrite last_last, length_app. simpl. rewrite app_nth2 by lia.
  replace (length l + 1 - 1 - length l) with 0 by lia. reflexivity.
Qed.

Lemma rev_two {A} (l : list A) (d : A) :
  2 <= length l ->
  exists l', rev l = nth (length l - 1) l d :: nth (length l - 2) l d :: l'.
Proof.
  intros H. destruct (rev l) as [|a [|b l']] eqn:E.
  - apply (f_equal (@length A)) in E. rewrite length_rev in E. simpl in E. lia.
  - apply (f_equal (@length A)) in E. rewrite length_rev in E. simpl in E. lia.
  - exists l'.
    assert (El : l = rev l' ++ [b; a]).
    { rewrite <- (rev_involutive l), E. simpl. now rewrite <- app_assoc. }
    rewrite El at 1 2 3 4. rewrite !length_app, length_rev. simpl.
    rewrite !app_nth2 by (rewrite length_rev; lia).
    rewrite length_rev.
    replace (length l' + 2 - 1 - length l') with 1 by lia.
    replace (length l' + 2 - 2 - length l') with 0 by lia. reflexivity.
Qed.

(** * Facts on binary64 arithmetic

    The primitive operations are specified by [Prim2SF] and the operations
    of [SpecFloat]; the facts below are read off those definitions. *)

Import Go Float64 Spec.



(** digits *)
Lemma digits2_pos_bounds (p : positive) :
  (2 ^ (Zpos (digits2_pos p) - 1) <= Zpos p < 2 ^ Zpos (digits2_pos p))%Z.
Proof.
  induction p as [p IH|p IH|]; cbn [digits2_pos].
  - rewrite Pos2Z.inj_succ, Z.pow_succ_r by lia.
    replace (Z.succ (Zpos (digits2_pos p)) - 1)%Z with (Z.succ (Zpos (digits2_pos p) - 1)) by lia.
    rewrite Z.pow_succ_r by lia. lia.
  - rewrite Pos2Z.inj_succ, Z.pow_succ_r by lia.
    replace (Z.succ (Zpos (digits2_pos p)) - 1)%Z with (Z.succ (Zpos (digits2_pos p) - 1)) by lia.
    rewrite Z.pow_succ_r by lia. lia.
  - simpl. lia.
Qed.

Lemma Zdigits2_le (m : Z) (k : Z) :
  (0 < m)%Z -> (0 <= k)%Z -> (m < 2 ^ k)%Z -> (Zdigits2 m <= k)%Z.
Proof.
  intros Hm Hk Hlt. destruct m as [|p|p]; try lia. cbn [Zdigits2].
  pose proof (digits2_pos_bounds p) as [Hlo _].
  destruct (Z_le_gt_dec (Zpos (digits2_pos p)) k) as [|Hgt]; [assumption|exfalso].
  assert (2 ^ k <= 2 ^ (Zpos (digits2_pos p) - 1))%Z by (apply Z.pow_le_mono_r; lia).
  lia.
Qed.

Lemma Zdigits2_pos_bounds (m : Z) :
  (0 < m)%Z -> (0 < Zdigits2 m /\ 2 ^ (Zdigits2 m - 1) <= m < 2 ^ Zdigits2 m)%Z.
Proof.
  intros Hm. destruct m as [|p|p]; try lia. cbn [Zdigits2].
  split; [lia|apply digits2_pos_bounds].
Qed.

(** right shifts *)
Lemma shr_1_m (mrs : shr_record) :
  (0 <= shr_m mrs)%Z -> shr_m (shr_1 mrs) = (shr_m mrs / 2)%Z.
Proof.
  destruct mrs as [m r s]. cbn [shr_m]. intros Hm. unfold shr_1.
  destruct m as [|[p|p|]|p]; cbn [shr_m]; try lia; try reflexivity.
  - apply Z.div_unique with (r := 1%Z); lia.
  - apply Z.div_unique with (r := 0%Z); lia.
Qed.

Lemma iter_pos_shr_1_m (q : positive) : forall mrs,
  (0 <= shr_m mrs)%Z ->
  shr_m (SpecFloat.iter_pos shr_1 q mrs) = (shr_m mrs / 2 ^ Zpos q)%Z.
Proof.
  induction q as [q IH|q IH|]; intros mrs Hm; cbn [SpecFloat.iter_pos].
  - assert (H1 : (0 <= shr_m (shr_1 mrs))%Z) by (rewrite shr_1_m by assumption; apply Z.div_pos; lia).
    assert (H2 : (0 <= shr_m (SpecFloat.iter_pos shr_1 q (shr_1 mrs)))%Z)
      by (rewrite IH by assumption; apply Z.div_pos; [lia|apply Z.pow_pos_nonneg; lia]).
    rewrite IH, IH, shr_1_m by assumption.
    rewrite !Z.div_div by (try apply Z.pow_pos_nonneg; lia).
    f_equal.
    assert (E : Zpos q~1 = (1 + Zpos q + Zpos q)%Z) by lia.
    rewrite E, !Z.pow_add_r by lia. lia.
  - assert (H2 : (0 <= shr_m (SpecFloat.iter_pos shr_1 q mrs))%Z)
      by (rewrite IH by assumption; apply Z.div_pos; [lia|apply Z.pow_pos_nonneg; lia]).
    rewrite IH, IH by assumption.
    rewrite !Z.div_div by (try apply Z.pow_pos_nonneg; lia).
    f_equal.
    assert (E : Zpos q~0 = (Zpos q + Zpos q)%Z) by lia.
    rewrite E, Z.pow_add_r by lia. reflexivity.
  - rewrite shr_1_m by assumption. reflexivity.
Qed.


Lemma shr_record_of_loc_m m l : shr_m (shr_record_of_loc m l) = m.
Proof. destruct l as [|[]]; reflexivity. Qed.

(** [shr_fexp] on a positive mantissa, with an exponent not below [emin]. *)
Lemma shr_fexp_pos (m e : Z) (l : location) :
  (0 < m)%Z -> (-1074 <= e)%Z ->
  (0 < shr_m (fst (shr_fexp prec emax m e l))
   /\ snd (shr_fexp prec emax m e l) = Z.max e (fexp prec emax (Zdigits2 m + e))
   /\ Zdigits2 (shr_m (fst (shr_fexp prec emax m e l))) + snd (shr_fexp prec emax m e l)
      <= Zdigits2 m + e)%Z.
Proof.
  intros Hm He. unfold shr_fexp, shr.
  pose proof (Zdigits2_pos_bounds m Hm) as (Hd & Hlo & Hhi).
  
  destruct (fexp prec emax (Zdigits2 m + e) - e)%Z as [|q|q] eqn:En;
    cbn [fst snd].
  - rewrite shr_record_of_loc_m. unfold fexp, SpecFloat.emin, prec, emax in *. lia.
  - rewrite iter_pos_shr_1_m by (rewrite shr_record_of_loc_m; lia).
    rewrite shr_record_of_loc_m.
    assert (Hq : (Zpos q = Zdigits2 m - 53)%Z) by (unfold fexp, SpecFloat.emin, prec, emax in En; lia).
    assert (Hpow : (2 ^ Zpos q <= m)%Z).
    { transitivity (2 ^ (Zdigits2 m - 1))%Z; [apply Z.pow_le_mono_r; lia|assumption]. }
    assert (Hquo : (0 < m / 2 ^ Zpos q)%Z).
    { apply Z.div_str_pos. split; [apply Z.pow_pos_nonneg; lia|assumption]. }
    split; [assumption|]. split; [unfold fexp, emin, prec, emax in *; lia|].
    assert (Zdigits2 (m / 2 ^ Zpos q) <= Zdigits2 m - Zpos q)%Z; [|lia].
    apply Zdigits2_le; [assumption|lia|].
    apply Z.div_lt_upper_bound; [apply Z.pow_pos_nonneg; lia|].
    rewrite <- Z.pow_add_r by lia. replace (Zpos q + (Zdigits2 m - Zpos q))%Z with (Zdigits2 m) by lia.
    assumption.
  - rewrite shr_record_of_loc_m. unfold fexp, SpecFloat.emin, prec, emax in *. lia.
Qed.

Lemma round_nearest_even_bounds m l :
  (m <= round_nearest_even m l <= m + 1)%Z.
Proof.
  unfold round_nearest_even. destruct l as [|[]]; try lia. destruct (Z.even m); lia.
Qed.

Lemma Zdigits2_succ_le m k :
  (0 < m)%Z -> (Zdigits2 m <= k)%Z -> forall m', (m <= m' <= m + 1)%Z -> (Zdigits2 m' <= k + 1)%Z.
Proof.
  intros Hm Hk m' Hm'.
  pose proof (Zdigits2_pos_bounds m Hm) as (Hd & Hlo & Hhi).
  apply Zdigits2_le; [lia|lia|].
  assert (2 ^ Zdigits2 m <= 2 ^ k)%Z by (apply Z.pow_le_mono_r; lia).
  rewrite Z.pow_add_r by lia. lia.
Qed.

(** Rounding a positive mantissa never gives a zero, a NaN or a change of
    sign; it gives a finite number when the value is below 2^(emax-1). *)
Lemma binary_round_aux_pos (sx : bool) (m e : Z) (l : location) :
  (0 < m)%Z -> (-1074 <= e)%Z ->
  (exists m' e', binary_round_aux prec emax sx m e l = S754_finite sx m' e')
  \/ (binary_round_aux prec emax sx m e l = S754_infinity sx
      /\ (emax - prec < e \/ emax <= Zdigits2 m + e)%Z).
Proof.
  intros Hm He. unfold binary_round_aux.
  pose proof (shr_fexp_pos m e l Hm He) as (H1 & H2 & H3).
  destruct (shr_fexp prec emax m e l) as [mrs' e'] eqn:E1. cbn [fst snd] in *.
  set (m1 := round_nearest_even (shr_m mrs') (loc_of_shr_record mrs')).
  pose proof (round_nearest_even_bounds (shr_m mrs') (loc_of_shr_record mrs')) as Hr.
  fold m1 in Hr.
  assert (Hm1 : (0 < m1)%Z) by lia.
  assert (He' : (-1074 <= e')%Z) by lia.
  pose proof (shr_fexp_pos m1 e' loc_Exact Hm1 He') as (H4 & H5 & H6).
  destruct (shr_fexp prec emax m1 e' loc_Exact) as [mrs'' e''] eqn:E2. cbn [fst snd] in *.
  destruct (shr_m mrs'') as [|p|p] eqn:Ep; try lia.
  destruct (e'' <=? emax - prec)%Z eqn:Ee.
  - left. eauto.
  - right. split; [reflexivity|]. apply Z.leb_gt in Ee.
    pose proof (Zdigits2_succ_le (shr_m mrs') (Zdigits2 (shr_m mrs')) H1 (Z.le_refl _) m1 Hr) as Hd1.
    unfold fexp, SpecFloat.emin, prec, emax in *. lia.
Qed.

(** left shifts *)
Lemma Pos_iter_xO (p d : positive) :
  Zpos (Pos.iter xO p d) = (Zpos p * 2 ^ Zpos d)%Z.
Proof.
  induction d as [|d IH] using Pos.peano_ind.
  - cbn [Pos.iter]. lia.
  - rewrite Pos.iter_succ, Pos2Z.inj_xO, IH, Pos2Z.inj_succ, Z.pow_succ_r by lia. lia.
Qed.

Lemma shl_align_spec (m : positive) (e e' : Z) :
  (e' <= e)%Z ->
  Zpos (fst (shl_align m e e')) = (Zpos m * 2 ^ (e - e'))%Z
  /\ snd (shl_align m e e') = e'.
Proof.
  intros He. unfold shl_align.
  destruct (e' - e)%Z as [|d|d] eqn:Ed; cbn [fst snd]; try lia.
  - replace (e - e')%Z with 0%Z by lia. simpl. lia.
  - rewrite Pos_iter_xO. replace (e - e')%Z with (Zpos d) by lia. split; reflexivity.
Qed.

Lemma shl_align_ge (m : positive) (e e' : Z) :
  (e <= e')%Z -> shl_align m e e' = (m, e).
Proof.
  intros He. unfold shl_align. destruct (e' - e)%Z eqn:Ed; try reflexivity; lia.
Qed.

Lemma binary_round_pos (sx : bool) (p : positive) (e : Z) :
  (-1074 <= e)%Z ->
  (exists m' e', binary_round prec emax sx p e = S754_finite sx m' e')
  \/ (binary_round prec emax sx p e = S754_infinity sx
      /\ (971 < e \/ 1024 <= Zpos (digits2_pos p) + e)%Z).
Proof.
  intros He. unfold binary_round.
  set (e' := fexp prec emax (Zpos (digits2_pos p) + e)).
  assert (He' : (-1074 <= e')%Z) by (unfold e', fexp, SpecFloat.emin, prec, emax; lia).
  destruct (Z_le_gt_dec e e') as [Hle|Hgt].
  - rewrite shl_align_ge by assumption.
    destruct (binary_round_aux_pos sx (Zpos p) e loc_Exact) as [H|[H1 H2]]; try lia.
    + left. exact H.
    + right. split; [exact H1|]. cbn [Zdigits2] in H2. unfold prec, emax in H2. lia.
  - pose proof (shl_align_spec p e e' ltac:(lia)) as [Hm Hs].
    destruct (shl_align p e e') as [mz ez]. cbn [fst snd] in *. subst ez.
    destruct (binary_round_aux_pos sx (Zpos mz) e' loc_Exact) as [H|[H1 H2]]; try lia.
    + left. exact H.
    + right. split; [exact H1|]. cbn [Zdigits2] in H2. unfold prec, emax in H2.
      assert (Zpos (digits2_pos mz) <= Zpos (digits2_pos p) + (e - e'))%Z; [|lia].
      apply (Zdigits2_le (Zpos mz)); [lia|lia|].
      rewrite Hm, Z.pow_add_r by lia.
      pose proof (digits2_pos_bounds p) as [_ Hhi].
      apply Z.mul_lt_mono_pos_r; [apply Z.pow_pos_nonneg; lia|assumption].
Qed.

(** validity of a finite number *)
Lemma valid_finite (s : bool) (m : positive) (e : Z) :
  valid_binary (S754_finite s m e) = true ->
  (-1074 <= e <= 971)%Z /\ (Zpos (digits2_pos m) <= 53)%Z
  /\ ((-1074 < e)%Z -> Zpos (digits2_pos m) = 53%Z).
Proof.
  cbn [SpecFloat.valid_binary]. unfold bounded, canonical_mantissa.
  intros H. apply andb_prop in H. destruct H as [H1 H2].
  apply Z.eqb_eq in H1. apply Z.leb_le in H2.
  unfold fexp, SpecFloat.emin, prec, emax in *. lia.
Qed.

Lemma finite_mantissa_bounds (s : bool) (m : positive) (e : Z) :
  valid_binary (S754_finite s m e) = true ->
  (Zpos m < 2 ^ 53)%Z /\ ((-1074 < e)%Z -> (2 ^ 52 <= Zpos m)%Z).
Proof.
  intros V. apply valid_finite in V. destruct V as (_ & Hd & Hn).
  pose proof (digits2_pos_bounds m) as [Hlo Hhi]. split.
  - assert (2 ^ Zpos (digits2_pos m) <= 2 ^ 53)%Z by (apply Z.pow_le_mono_r; lia). lia.
  - intros He. rewrite (Hn He) in Hlo. exact Hlo.
Qed.

(** The aligned mantissa of the larger of two valid numbers of one sign is
    the larger one. *)
Lemma aligned_lt (s s' : bool) (m m' : positive) (e e' : Z) :
  valid_binary (S754_finite s m e) = true ->
  valid_binary (S754_finite s' m' e') = true ->
  (e < e')%Z \/ (e = e' /\ (m < m')%positive) ->
  (Zpos (fst (shl_align m e (Z.min e' e)))
   < Zpos (fst (shl_align m' e' (Z.min e' e))))%Z.
Proof.
  intros V V' H.
  pose proof (valid_finite _ _ _ V) as (He & _).
  pose proof (valid_finite _ _ _ V') as (He' & _).
  pose proof (finite_mantissa_bounds _ _ _ V) as [Hm _].
  pose proof (finite_mantissa_bounds _ _ _ V') as [_ Hm'].
  destruct (shl_align_spec m e (Z.min e' e) ltac:(lia)) as [-> _].
  destruct (shl_align_spec m' e' (Z.min e' e) ltac:(lia)) as [-> _].
  destruct H as [Hlt|[-> Hlt]].
  - replace (Z.min e' e) with e by lia. replace (e - e)%Z with 0%Z by lia.
    assert (2 ^ 1 <= 2 ^ (e' - e))%Z by (apply Z.pow_le_mono_r; lia).
    specialize (Hm' ltac:(lia)). change (2 ^ 0)%Z with 1%Z. change (2 ^ 1)%Z with 2%Z in *.
    change (2 ^ 53)%Z with (2 * 2 ^ 52)%Z in Hm. nia.
  - replace (Z.min e' e') with e' by lia. replace (e' - e')%Z with 0%Z by lia.
    change (2 ^ 0)%Z with 1%Z. lia.
Qed.

Lemma SFltb_zero_round (p : positive) (e : Z) :
  (-1074 <= e)%Z ->
  SFltb (S754_zero false) (binary_round prec emax false p e) = true.
Proof.
  intros He. destruct (binary_round_pos false p e He) as [(m' & e' & ->)|[-> _]]; reflexivity.
Qed.

(** [x < y] makes [y - x] positive: the difference of two distinct numbers is
    never rounded to zero. *)
Lemma SFsub_lt_pos (x y : spec_float) :
  valid_binary x = true -> valid_binary y = true ->
  SFltb x y = true ->
  SFltb (S754_zero false) (SFsub prec emax y x) = true.
Proof.
  intros Vx Vy.
  destruct x as [sx|sx| |sx mx ex], y as [sy|sy| |sy my ey];
    unfold SFltb at 1; cbn [SFcompare SFsub];
    try solve [ discriminate
              | repeat (match goal with s : bool |- _ => destruct s end);
                (discriminate || (intros _; reflexivity)) ].
  - (* finite, finite *)
    intros H.
    pose proof (valid_finite _ _ _ Vx) as (Hex & _).
    pose proof (valid_finite _ _ _ Vy) as (Hey & _).
    assert (Hpos : (0 < cond_Zopp sy (Zpos (fst (shl_align my ey (Z.min ey ex))))
                 - cond_Zopp sx (Zpos (fst (shl_align mx ex (Z.min ey ex)))))%Z).
    { destruct sx, sy; cbn [cond_Zopp]; try discriminate; try lia.
      - (* both negative: |x| > |y| *)
        assert (Hc : (ey < ex)%Z \/ (ey = ex /\ (my < mx)%positive)).
        { destruct (Z.compare_spec ex ey) as [E|E|E]; try discriminate; [right|left; lia].
          split; [lia|]. apply Pos.compare_gt_iff.
          destruct (Pos.compare_cont Eq mx my) eqn:Em; try discriminate. exact Em. }
        pose proof (aligned_lt _ _ _ _ _ _ Vy Vx Hc) as Hal.
        rewrite (Z.min_comm ex ey) in Hal. lia.
      - (* both positive *)
        assert (Hc : (ex < ey)%Z \/ (ex = ey /\ (mx < my)%positive)).
        { destruct (Z.compare_spec ex ey) as [E|E|E]; try discriminate; [right|left; lia].
          split; [lia|]. apply Pos.compare_lt_iff.
          destruct (Pos.compare_cont Eq mx my) eqn:Em; try discriminate. exact Em. }
        pose proof (aligned_lt _ _ _ _ _ _ Vx Vy Hc) as Hal. lia. }
    destruct (_ - _)%Z as [|p|p] eqn:Ez; try lia.
    cbn [binary_normalize]. apply SFltb_zero_round. lia.
Qed.

Lemma Prim2SF_zero : Prim2SF 0%float = S754_zero false.
Proof. reflexivity. Qed.

Lemma sub_pos (x y : float) :
  (x <? y)%float = true -> (0 <? y - x)%float = true.
Proof.
  rewrite !FloatAxioms.ltb_spec, FloatAxioms.sub_spec, Prim2SF_zero.
  apply SFsub_lt_pos; apply Prim2SF_valid.
Qed.

Lemma SFrank_finite (s : bool) (m : positive) (e : Z) :
  valid_binary (S754_finite s m e) = true ->
  (2 ^ 53 < (e + 1075) * 2 ^ 53 + Zpos m < 2048 * 2 ^ 53)%Z.
Proof.
  intros V. pose proof (valid_finite _ _ _ V) as (He & _).
  pose proof (finite_mantissa_bounds _ _ _ V) as [Hm _]. lia.
Qed.

Lemma SFcompare_rank (x y : spec_float) :
  valid_binary x = true -> valid_binary y = true ->
  x <> S754_nan -> y <> S754_nan ->
  SFcompare x y = Some (SFrank x ?= SFrank y)%Z.
Proof.
  intros Vx Vy Nx Ny.
  destruct x as [sx|sx| |sx mx ex], y as [sy|sy| |sy my ey]; try congruence;
    try pose proof (SFrank_finite _ _ _ Vx) as Hx;
    try pose proof (SFrank_finite _ _ _ Vy) as Hy;
    cbn [SFcompare SFrank].
  all: try (pose proof (finite_mantissa_bounds _ _ _ Vx) as [Hmx _]).
  all: try (pose proof (finite_mantissa_bounds _ _ _ Vy) as [Hmy _]).
  all: repeat (match goal with s : bool |- _ => destruct s end).
  all: f_equal; symmetry.
  all: try (apply Z.compare_eq_iff; lia).
  all: try (apply Z.compare_lt_iff; lia).
  all: try (apply Z.compare_gt_iff; lia).
  - (* both negative *)
    destruct (Z.compare_spec ex ey) as [E|E|E].
    + subst ey. destruct (Pos.compare_spec mx my) as [E'|E'|E'];
        change (Pos.compare_cont Eq mx my) with (mx ?= my)%positive;
        [ rewrite (proj2 (Pos.compare_eq_iff mx my) E')
        | rewrite (proj2 (Pos.compare_lt_iff mx my) E')
        | rewrite (proj2 (Pos.compare_gt_iff mx my) E') ]; cbn [CompOpp].
      * apply Z.compare_eq_iff. lia.
      * apply Z.compare_gt_iff. lia.
      * apply Z.compare_lt_iff. lia.
    + apply Z.compare_gt_iff. nia.
    + apply Z.compare_lt_iff. nia.
  - (* both positive *)
    destruct (Z.compare_spec ex ey) as [E|E|E].
    + subst ey. destruct (Pos.compare_spec mx my) as [E'|E'|E'];
        change (Pos.compare_cont Eq mx my) with (mx ?= my)%positive;
        [ rewrite (proj2 (Pos.compare_eq_iff mx my) E')
        | rewrite (proj2 (Pos.compare_lt_iff mx my) E')
        | rewrite (proj2 (Pos.compare_gt_iff mx my) E') ].
      * apply Z.compare_eq_iff. lia.
      * apply Z.compare_lt_iff. lia.
      * apply Z.compare_gt_iff. lia.
    + apply Z.compare_lt_iff. nia.
    + apply Z.compare_gt_iff. nia.
Qed.

Lemma isNaN_spec (x : float) : isNaN x = true <-> Prim2SF x = S754_nan.
Proof.
  unfold isNaN. rewrite FloatAxioms.eqb_spec. unfold SFeqb.
  pose proof (Prim2SF_valid x) as V.
  destruct (Prim2SF x) as [s|s| |s m e] eqn:E.
  - split; discriminate.
  - destruct s; split; discriminate.
  - split; reflexivity.
  - rewrite (SFcompare_rank _ _ V V) by discriminate.
    rewrite Z.compare_refl. split; discriminate.
Qed.

Lemma isNaN_false (x : float) : isNaN x = false <-> Prim2SF x <> S754_nan.
Proof.
  rewrite <- isNaN_spec. destruct (isNaN x); split; congruence.
Qed.

(** The three comparisons, read on ranks. *)
Lemma compare_rank (x y : float) :
  isNaN x = false -> isNaN y = false ->
  SFcompare (Prim2SF x) (Prim2SF y) = Some (rank x ?= rank y)%Z.
Proof.
  intros Hx Hy. apply SFcompare_rank; try apply Prim2SF_valid; now apply isNaN_false.
Qed.

Lemma compare_NaN (x y : float) :
  isNaN x = true \/ isNaN y = true ->
  SFcompare (Prim2SF x) (Prim2SF y) = None.
Proof.
  intros [H|H]; apply isNaN_spec in H; rewrite H.
  - reflexivity.
  - destruct (Prim2SF x); reflexivity.
Qed.

Lemma ltb_rank (x y : float) :
  (x <? y)%float = true <->
  isNaN x = false /\ isNaN y = false /\ (rank x < rank y)%Z.
Proof.
  rewrite FloatAxioms.ltb_spec. unfold SFltb.
  destruct (isNaN x) eqn:Hx; [rewrite compare_NaN by auto; split; [discriminate|intros (H & _); discriminate]|].
  destruct (isNaN y) eqn:Hy; [rewrite compare_NaN by auto; split; [discriminate|intros (_ & H & _); discriminate]|].
  rewrite compare_rank by assumption.
  destruct (Z.compare_spec (rank x) (rank y)); split; intros; try discriminate; try lia; auto.
Qed.

Lemma leb_rank (x y : float) :
  (x <=? y)%float = true <->
  isNaN x = false /\ isNaN y = false /\ (rank x <= rank y)%Z.
Proof.
  rewrite FloatAxioms.leb_spec. unfold SFleb.
  destruct (isNaN x) eqn:Hx; [rewrite compare_NaN by auto; split; [discriminate|intros (H & _); discriminate]|].
  destruct (isNaN y) eqn:Hy; [rewrite compare_NaN by auto; split; [discriminate|intros (_ & H & _); discriminate]|].
  rewrite compare_rank by assumption.
  destruct (Z.compare_spec (rank x) (rank y)); split; intros; try discriminate; try lia; auto.
Qed.

Lemma eqb_rank (x y : float) :
  (x =? y)%float = true <->
  isNaN x = false /\ isNaN y = false /\ rank x = rank y.
Proof.
  rewrite FloatAxioms.eqb_spec. unfold SFeqb.
  destruct (isNaN x) eqn:Hx; [rewrite compare_NaN by auto; split; [discriminate|intros (H & _); discriminate]|].
  destruct (isNaN y) eqn:Hy; [rewrite compare_NaN by auto; split; [discriminate|intros (_ & H & _); discriminate]|].
  rewrite compare_rank by assumption.
  destruct (Z.compare_spec (rank x) (rank y)); split; intros; try discriminate; try lia; auto.
Qed.

Lemma ltb_false_rank (x y : float) :
  isNaN x = false -> isNaN y = false ->
  (x <? y)%float = false -> (rank y <= rank x)%Z.
Proof.
  intros Hx Hy H.
  destruct (Z_le_gt_dec (rank y) (rank x)) as [|Hgt]; [assumption|].
  assert ((x <? y)%float = true) by (apply ltb_rank; repeat split; auto; lia).
  congruence.
Qed.

Lemma eqb_false_rank (x y : float) :
  isNaN x = false -> isNaN y = false ->
  (x =? y)%float = false -> rank x <> rank y.
Proof.
  intros Hx Hy H E.
  assert ((x =? y)%float = true) by (apply eqb_rank; auto).
  congruence.
Qed.

Lemma SFrank_eq_inv (x y : spec_float) :
  valid_binary x = true -> valid_binary y = true ->
  x <> S754_nan -> y <> S754_nan -> SFrank x = SFrank y ->
  match x, y with
  | S754_zero _, S754_zero _ => True
  | S754_infinity s, S754_infinity s' => s = s'
  | S754_finite s m e, S754_finite s' m' e' => s = s' /\ m = m' /\ e = e'
  | _, _ => False
  end.
Proof.
  intros Vx Vy Nx Ny.
  destruct x as [sx|sx| |sx mx ex], y as [sy|sy| |sy my ey]; try congruence;
    try pose proof (SFrank_finite _ _ _ Vx) as Hx;
    try pose proof (SFrank_finite _ _ _ Vy) as Hy;
    try (pose proof (finite_mantissa_bounds _ _ _ Vx) as [Hmx _]);
    try (pose proof (finite_mantissa_bounds _ _ _ Vy) as [Hmy _]);
    cbn [SFrank];
    repeat (match goal with s : bool |- _ => destruct s end);
    intros E; try exact I; try reflexivity; lia.
Qed.

Lemma SFsub_same_rank (x y : spec_float) :
  valid_binary x = true -> valid_binary y = true ->
  x <> S754_nan -> y <> S754_nan -> SFrank x = SFrank y ->
  SFzeroOrNaN (SFsub prec emax x y) = true.
Proof.
  intros Vx Vy Nx Ny E.
  pose proof (SFrank_eq_inv x y Vx Vy Nx Ny E) as H.
  destruct x as [sx|sx| |sx mx ex], y as [sy|sy| |sy my ey]; try contradiction; try congruence.
  - destruct sx, sy; reflexivity.
  - subst. destruct sy; reflexivity.
  - destruct H as (-> & -> & ->). cbn [SFsub]. rewrite Z.sub_diag. reflexivity.
Qed.

Lemma sub_same_rank (x y : float) :
  isNaN x = false -> isNaN y = false -> rank x = rank y ->
  zeroOrNaN (x - y) = true.
Proof.
  intros Hx Hy E. unfold zeroOrNaN. rewrite FloatAxioms.sub_spec.
  apply SFsub_same_rank; try apply Prim2SF_valid; try (now apply isNaN_false). exact E.
Qed.

Lemma div_zeroOrNaN (a b : float) :
  zeroOrNaN a = true -> zeroOrNaN b = true -> isNaN (a / b) = true.
Proof.
  unfold zeroOrNaN. intros Ha Hb. apply isNaN_spec. rewrite FloatAxioms.div_spec.
  destruct (Prim2SF a), (Prim2SF b); try discriminate; reflexivity.
Qed.

Lemma zeroOrNaN_ltb_zero (a : float) :
  zeroOrNaN a = true -> (a <? 0)%float = false.
Proof.
  unfold zeroOrNaN. intros Ha. rewrite FloatAxioms.ltb_spec, Prim2SF_zero.
  destruct (Prim2SF a); try discriminate; reflexivity.
Qed.

Lemma NaN_gtb (x y : float) : isNaN x = true -> (x >? y)%float = false.
Proof.
  intros H. unfold Go.gtb. destruct (y <? x)%float eqn:E; [|reflexivity].
  apply ltb_rank in E. destruct E as (_ & E & _). congruence.
Qed.

Lemma NaN_geb (x y : float) : isNaN x = true -> (x >=? y)%float = false.
Proof.
  intros H. unfold Go.geb. destruct (y <=? x)%float eqn:E; [|reflexivity].
  apply leb_rank in E. destruct E as (_ & E & _). congruence.
Qed.


Lemma float64_pos (n : Z) :
  (0 < n < 2 ^ 63)%Z ->
  exists m e, Prim2SF (float64 n) = S754_finite false m e.
Proof.
  intros Hn. unfold float64.
  rewrite (proj2 (Z.ltb_ge n 0)) by lia.
  rewrite of_uint63_spec, Uint63.of_Z_spec.
  rewrite Z.mod_small by (change wB with (2 ^ 63)%Z; lia).
  destruct n as [|p|p]; try lia. cbn [binary_normalize].
  destruct (binary_round_pos false p 0 ltac:(lia)) as [H|[_ H]]; [exact H|exfalso].
  assert (Zpos (digits2_pos p) <= 63)%Z by (apply (Zdigits2_le (Zpos p)); lia).
  lia.
Qed.

Lemma float64_0 : float64 0 = 0%float.
Proof. reflexivity. Qed.

Lemma zero_div_pos (y : float) (m : positive) (e : Z) :
  Prim2SF y = S754_finite false m e -> (0 / y)%float = 0%float.
Proof.
  intros H. apply Prim2SF_inj. rewrite FloatAxioms.div_spec, H. reflexivity.
Qed.

Lemma zero_mul_pos (y : float) (m : positive) (e : Z) :
  Prim2SF y = S754_finite false m e -> (0 * y)%float = 0%float.
Proof.
  intros H. apply Prim2SF_inj. rewrite FloatAxioms.mul_spec, H. reflexivity.
Qed.


(** ** Rounding to nearest

    The rounding of [SpecFloat], read on integers: a right shift keeps the
    bits it drops in its round and sticky flags, the rounding of an exact
    mantissa is [roundZ] of its value, which is monotone, and the rounding
    of any mantissa whose value stays below a number of the format gives
    at most that number. *)

Section RoundToNearest.
Local Open Scope Z_scope.

Lemma shr_1_spec (m : Z) (r s : bool) :
  0 <= m ->
  shr_1 {| shr_m := m; shr_r := r; shr_s := s |}
  = {| shr_m := m / 2; shr_r := Z.odd m; shr_s := r || s |}.
Proof.
  intros Hm. unfold shr_1.
  destruct m as [|[p|p|]|p]; try lia; try reflexivity.
  - f_equal. rewrite Pos2Z.inj_xI. 
    apply Z.div_unique with (r := 1); lia.
  - f_equal. rewrite Pos2Z.inj_xO.
    apply Z.div_unique with (r := 0); lia.
Qed.

Lemma mod_pow2_succ (M k : Z) :
  0 <= k ->
  M mod 2 ^ (k + 1) = M mod 2 ^ k + 2 ^ k * ((M / 2 ^ k) mod 2).
Proof.
  intros Hk. rewrite Z.pow_add_r by lia. change (2 ^ 1) with 2.
  apply Z.rem_mul_r; [|lia]. apply Z.pow_nonzero; lia.
Qed.

Lemma shr_1_shifted (M k : Z) :
  0 <= M -> 0 <= k -> shr_1 (shifted M k) = shifted M (k + 1).
Proof.
  intros HM Hk. unfold shifted.
  rewrite shr_1_spec by (apply Z.div_pos; [lia|apply Z.pow_pos_nonneg; lia]).
  replace (k + 1 - 1) with k by lia.
  rewrite (proj2 (Z.ltb_lt 0 (k + 1))) by lia. cbn [andb].
  f_equal.
  - rewrite Z.div_div by (try apply Z.pow_pos_nonneg; lia).
    rewrite Z.pow_add_r by lia. reflexivity.
  - destruct (Z.eq_dec k 0) as [->|Hk0].
    + simpl. rewrite Z.mod_1_r. reflexivity.
    + rewrite (proj2 (Z.ltb_lt 0 k)) by lia. cbn [andb].
      pose proof (mod_pow2_succ M (k - 1) ltac:(lia)) as E.
      replace (k - 1 + 1) with k in E by lia.
      assert (Hp : 0 < 2 ^ (k - 1)) by (apply Z.pow_pos_nonneg; lia).
      pose proof (Z.mod_pos_bound M (2 ^ (k - 1)) Hp) as Hb.
      pose proof (Z.mod_pos_bound (M / 2 ^ (k - 1)) 2 ltac:(lia)) as Hb2.
      rewrite E.
      destruct (Z.odd (M / 2 ^ (k - 1))) eqn:Eo.
      * cbn [orb]. symmetry. apply negb_true_iff, Z.eqb_neq.
        rewrite Zmod_odd, Eo. nia.
      * cbn [orb]. rewrite Zmod_odd, Eo. rewrite Z.mul_0_r, Z.add_0_r. reflexivity.
Qed.

Lemma iter_pos_shifted (q : positive) : forall M k,
  0 <= M -> 0 <= k ->
  SpecFloat.iter_pos shr_1 q (shifted M k) = shifted M (k + Zpos q).
Proof.
  induction q as [q IH|q IH|]; intros M k HM Hk; cbn [SpecFloat.iter_pos].
  - rewrite shr_1_shifted, IH, IH by lia. f_equal. lia.
  - rewrite IH, IH by lia. f_equal. lia.
  - apply shr_1_shifted; assumption.
Qed.

Lemma shifted_0 (M : Z) : shifted M 0 = shr_record_of_loc M loc_Exact.
Proof. unfold shifted. simpl. rewrite Z.div_1_r. reflexivity. Qed.

Lemma rne_shifted (M k : Z) :
  0 <= M -> 0 <= k ->
  round_nearest_even (shr_m (shifted M k)) (loc_of_shr_record (shifted M k))
  = rne M k.
Proof.
  intros HM Hk. unfold rne. cbv zeta.
  destruct (Z.eq_dec k 0) as [->|Hk0].
  - rewrite shifted_0. simpl. rewrite Z.mod_1_r, Z.div_1_r. reflexivity.
  - unfold shifted. cbn [shr_m loc_of_shr_record].
    rewrite (proj2 (Z.ltb_lt 0 k)) by lia. cbn [andb].
    pose proof (mod_pow2_succ M (k - 1) ltac:(lia)) as E.
    replace (k - 1 + 1) with k in E by lia.
    assert (Hp : 0 < 2 ^ (k - 1)) by (apply Z.pow_pos_nonneg; lia).
    assert (E2 : 2 ^ k = 2 * 2 ^ (k - 1)).
    { replace k with (1 + (k - 1)) at 1 by lia. rewrite Z.pow_add_r by lia. reflexivity. }
    pose proof (Z.mod_pos_bound M (2 ^ (k - 1)) Hp) as Hb.
    rewrite E, E2. rewrite Zmod_odd.
    destruct (Z.odd (M / 2 ^ (k - 1))) eqn:Eo.
    + destruct (M mod 2 ^ (k - 1) =? 0) eqn:Ez; cbn [negb].
      * apply Z.eqb_eq in Ez. rewrite Ez.
        rewrite (proj2 (Z.ltb_ge _ _)) by lia.
        rewrite (proj2 (Z.eqb_eq _ _)) by lia. cbn [andb round_nearest_even].
        reflexivity.
      * apply Z.eqb_neq in Ez.
        rewrite (proj2 (Z.ltb_ge _ _)) by lia.
        rewrite (proj2 (Z.eqb_neq _ _)) by lia. reflexivity.
    + rewrite (proj2 (Z.ltb_lt _ _)) by lia.
      destruct (M mod 2 ^ (k - 1) =? 0); reflexivity.
Qed.

Lemma shr_fexp_exact (m e : Z) :
  0 <= m ->
  shr_fexp prec emax m e loc_Exact
  = (shifted m (Z.max 0 (fexp prec emax (Zdigits2 m + e) - e)),
     e + Z.max 0 (fexp prec emax (Zdigits2 m + e) - e)).
Proof.
  intros Hm. unfold shr_fexp, shr.
  destruct (fexp prec emax (Zdigits2 m + e) - e) as [|q|q] eqn:En.
  - rewrite Z.max_id, shifted_0, Z.add_0_r. reflexivity.
  - rewrite Z.max_r by lia. rewrite <- shifted_0, iter_pos_shifted by lia.
    reflexivity.
  - rewrite Z.max_l by lia. rewrite shifted_0, Z.add_0_r. reflexivity.
Qed.

Lemma rne_bounds (M k : Z) : M / 2 ^ k <= rne M k <= M / 2 ^ k + 1.
Proof.
  unfold rne. cbv zeta. destruct (_ <? _); [lia|]. destruct (_ && _); lia.
Qed.

Lemma Zdigits2_unique (m d : Z) :
  2 ^ (d - 1) <= m < 2 ^ d -> 0 < d -> Zdigits2 m = d.
Proof.
  intros [Hlo Hhi] Hd.
  assert (Hm : 0 < m).
  { assert (0 < 2 ^ (d - 1)) by (apply Z.pow_pos_nonneg; lia). lia. }
  pose proof (Zdigits2_pos_bounds m Hm) as (Hd' & Hlo' & Hhi').
  destruct (Z.lt_trichotomy (Zdigits2 m) d) as [H|[H|H]]; [exfalso|assumption|exfalso].
  - assert (2 ^ Zdigits2 m <= 2 ^ (d - 1)) by (apply Z.pow_le_mono_r; lia). lia.
  - assert (2 ^ d <= 2 ^ (Zdigits2 m - 1)) by (apply Z.pow_le_mono_r; lia). lia.
Qed.

Lemma Zdigits2_mul_pow2 (m j : Z) :
  0 < m -> 0 <= j -> Zdigits2 (m * 2 ^ j) = Zdigits2 m + j.
Proof.
  intros Hm Hj. pose proof (Zdigits2_pos_bounds m Hm) as (Hd & Hlo & Hhi).
  apply Zdigits2_unique; [|lia].
  replace (Zdigits2 m + j - 1) with (Zdigits2 m - 1 + j) by lia.
  rewrite !Z.pow_add_r by lia.
  assert (0 < 2 ^ j) by (apply Z.pow_pos_nonneg; lia). nia.
Qed.

(** What the rounding of an exact, aligned, positive mantissa returns. *)
Lemma binary_round_aux_exact (m e : Z) :
  0 < m -> -1074 <= e -> e <= fexp prec emax (Zdigits2 m + e) ->
  let n := fexp prec emax (Zdigits2 m + e) - e in
  let m1 := rne m n in
  let E := e + n in
  binary_round_aux prec emax false m e loc_Exact
  = (if m1 <? 2 ^ 53
     then if E <=? 971 then S754_finite false (Z.to_pos m1) E
          else S754_infinity false
     else if E + 1 <=? 971 then S754_finite false (Z.to_pos (2 ^ 52)) (E + 1)
          else S754_infinity false)
  /\ 0 < m1 <= 2 ^ 53 /\ (-1074 < E -> 2 ^ 52 <= m1).
Proof.
  intros Hm He Hal n m1 E.
  pose proof (Zdigits2_pos_bounds m Hm) as (Hd & Hlo & Hhi).
  assert (Hn : 0 <= n) by (unfold n; lia).
  assert (HE : E = fexp prec emax (Zdigits2 m + e)) by (unfold E, n; lia).
  pose proof (rne_bounds m n) as Hr. fold m1 in Hr.
  assert (Hp : 0 < 2 ^ n) by (apply Z.pow_pos_nonneg; lia).
  assert (Hq : (-1074 < E -> 2 ^ 52 <= m / 2 ^ n) /\ 0 < m / 2 ^ n < 2 ^ 53).
  { unfold fexp, SpecFloat.emin, prec, emax in HE.
    destruct (Z_le_gt_dec (-1074) (Zdigits2 m + e - 53)) as [Hc|Hc].
    - assert (En : n = Zdigits2 m - 53) by lia.
      assert (E1 : 2 ^ (Zdigits2 m - 1) = 2 ^ 52 * 2 ^ n).
      { rewrite <- Z.pow_add_r by lia. f_equal. lia. }
      assert (E2 : 2 ^ Zdigits2 m = 2 ^ 53 * 2 ^ n).
      { rewrite <- Z.pow_add_r by lia. f_equal. lia. }
      assert (2 ^ 52 <= m / 2 ^ n) by (apply Z.div_le_lower_bound; lia).
      assert (m / 2 ^ n < 2 ^ 53) by (apply Z.div_lt_upper_bound; lia).
      lia.
    - assert (En : n = 0) by lia. rewrite En in *. rewrite Z.div_1_r.
      assert (Zdigits2 m <= 52) by lia.
      assert (2 ^ Zdigits2 m <= 2 ^ 52) by (apply Z.pow_le_mono_r; lia).
      lia. }
  destruct Hq as [Hq1 Hq2].
  split; [|lia].
  unfold binary_round_aux. rewrite shr_fexp_exact by lia.
  rewrite Z.max_r by lia. fold n. rewrite rne_shifted by lia. fold m1 E.
  rewrite shr_fexp_exact by lia.
  destruct (m1 <? 2 ^ 53) eqn:E53.
  - apply Z.ltb_lt in E53.
    assert (Hd1 : Zdigits2 m1 <= 53) by (apply Zdigits2_le; lia).
    rewrite Z.max_l by (unfold fexp, SpecFloat.emin, prec, emax in *; lia).
    rewrite shifted_0, Z.add_0_r. cbn [shr_record_of_loc shr_m].
    destruct m1 as [|p|p]; try lia. reflexivity.
  - apply Z.ltb_ge in E53. assert (E1 : m1 = 2 ^ 53) by lia.
    rewrite E1.
    replace (Z.max 0 (fexp prec emax (Zdigits2 (2 ^ 53) + E) - E)) with 1
      by (change (Zdigits2 (2 ^ 53)) with 54;
          unfold fexp, SpecFloat.emin, prec, emax in *; lia).
    reflexivity.
Qed.

Lemma rne_shift (M n j : Z) :
  0 <= n -> 0 <= j -> rne (M * 2 ^ j) (n + j) = rne M n.
Proof.
  intros Hn Hj. unfold rne. cbv zeta.
  assert (Hpn : 0 < 2 ^ n) by (apply Z.pow_pos_nonneg; lia).
  assert (Hpj : 0 < 2 ^ j) by (apply Z.pow_pos_nonneg; lia).
  rewrite Z.pow_add_r by lia.
  rewrite Z.div_mul_cancel_r by lia.
  rewrite Z.mul_mod_distr_r by lia.
  set (r := M mod 2 ^ n). set (q := M / 2 ^ n).
  assert (E1 : (2 * (r * 2 ^ j) <? 2 ^ n * 2 ^ j) = (2 * r <? 2 ^ n)).
  { destruct (Z.ltb_spec (2 * r) (2 ^ n)).
    - apply Z.ltb_lt. nia.
    - apply Z.ltb_ge. nia. }
  assert (E2 : (2 * (r * 2 ^ j) =? 2 ^ n * 2 ^ j) = (2 * r =? 2 ^ n)).
  { destruct (Z.eqb_spec (2 * r) (2 ^ n)).
    - apply Z.eqb_eq. nia.
    - apply Z.eqb_neq. nia. }
  rewrite E1, E2. reflexivity.
Qed.

Lemma pow2_2098 : 2 ^ 2098 = 2 ^ 53 * 2 ^ 2045.
Proof. rewrite <- Z.pow_add_r by lia. reflexivity. Qed.

Lemma binary_round_aux_scaled (m e : Z) :
  0 < m -> -1074 <= e -> e <= fexp prec emax (Zdigits2 m + e) ->
  SFscaled (binary_round_aux prec emax false m e loc_Exact)
  = roundZ (m * 2 ^ (e + 1074))
  /\ SFltb (S754_zero false) (binary_round_aux prec emax false m e loc_Exact)
     = true.
Proof.
  intros Hm He Hal.
  destruct (binary_round_aux_exact m e Hm He Hal) as (-> & Hm1 & Hnorm).
  cbv zeta in *.
  set (n := fexp prec emax (Zdigits2 m + e) - e) in *.
  set (m1 := rne m n) in *. set (E := e + n) in *.
  assert (Hn : 0 <= n) by (unfold n; lia).
  assert (HE : -1074 <= E) by (unfold E; lia).
  unfold roundZ. cbv zeta.
  rewrite Zdigits2_mul_pow2 by lia.
  replace (Z.max 0 (Zdigits2 m + (e + 1074) - 53)) with (n + (e + 1074))
    by (unfold n, fexp, SpecFloat.emin, prec, emax in *; lia).
  rewrite rne_shift by lia. fold m1.
  replace (n + (e + 1074)) with (E + 1074) by (unfold E; lia).
  rewrite pow2_2098.
  assert (HX : 0 < 2 ^ (E + 1074)) by (apply Z.pow_pos_nonneg; lia).
  destruct (m1 <? 2 ^ 53) eqn:E53.
  - apply Z.ltb_lt in E53. destruct (E <=? 971) eqn:E971.
    + apply Z.leb_le in E971. split; [|reflexivity].
      cbn [SFscaled]. rewrite Z2Pos.id by lia.
      assert (2 ^ (E + 1074) <= 2 ^ 2045) by (apply Z.pow_le_mono_r; lia).
      rewrite Z.min_l; [reflexivity|]. nia.
    + apply Z.leb_gt in E971. split; [|reflexivity].
      cbn [SFscaled]. rewrite pow2_2098.
      assert (2 ^ 2046 <= 2 ^ (E + 1074)) by (apply Z.pow_le_mono_r; lia).
      assert (E2 : 2 ^ 2046 = 2 * 2 ^ 2045)
        by (rewrite <- (Z.pow_succ_r 2 2045) by lia; reflexivity).
      specialize (Hnorm ltac:(lia)).
      assert (0 < 2 ^ 2045) by (apply Z.pow_pos_nonneg; lia).
      rewrite Z.min_r; [reflexivity|].
      change (2 ^ 53) with (2 * 2 ^ 52) in *. nia.
  - apply Z.ltb_ge in E53. assert (E1 : m1 = 2 ^ 53) by lia. rewrite E1.
    destruct (E + 1 <=? 971) eqn:E971.
    + apply Z.leb_le in E971. split; [|reflexivity].
      cbn [SFscaled]. rewrite Z2Pos.id by lia.
      replace (E + 1 + 1074) with (1 + (E + 1074)) by lia.
      rewrite (Z.pow_add_r 2 1) by lia.
      assert (2 * 2 ^ (E + 1074) <= 2 ^ 2045).
      { rewrite <- (Z.pow_succ_r 2 (E + 1074)) by lia.
        apply Z.pow_le_mono_r; lia. }
      rewrite Z.min_l; [change (2 ^ 53) with (2 * 2 ^ 52); change (2 ^ 1) with 2; lia|].
      change (2 ^ 53) with (2 * 2 ^ 52). lia.
    + apply Z.leb_gt in E971. split; [|reflexivity].
      cbn [SFscaled]. rewrite pow2_2098.
      assert (2 ^ 2045 <= 2 ^ (E + 1074)) by (apply Z.pow_le_mono_r; lia).
      rewrite Z.min_r; [reflexivity|]. nia.
Qed.

Lemma binary_round_scaled (p : positive) (e : Z) :
  -1074 <= e ->
  SFscaled (binary_round prec emax false p e) = roundZ (Zpos p * 2 ^ (e + 1074))
  /\ SFltb (S754_zero false) (binary_round prec emax false p e) = true.
Proof.
  intros He. unfold binary_round.
  set (e' := fexp prec emax (Zpos (digits2_pos p) + e)).
  assert (He' : -1074 <= e') by (unfold e', fexp, SpecFloat.emin, prec, emax; lia).
  destruct (Z_le_gt_dec e e') as [Hle|Hgt].
  - rewrite shl_align_ge by assumption.
    apply binary_round_aux_scaled; [lia|assumption|exact Hle].
  - pose proof (shl_align_spec p e e' ltac:(lia)) as [Hm Hs].
    destruct (shl_align p e e') as [mz ez]. cbn [fst snd] in *. subst ez.
    assert (Hd : Zdigits2 (Zpos mz) + e' = Zpos (digits2_pos p) + e).
    { rewrite Hm, Zdigits2_mul_pow2 by lia. cbn [Zdigits2]. lia. }
    assert (Hv : Zpos mz * 2 ^ (e' + 1074) = Zpos p * 2 ^ (e + 1074)).
    { rewrite Hm, <- Z.mul_assoc, <- Z.pow_add_r by lia. do 2 f_equal. lia. }
    rewrite <- Hv. apply binary_round_aux_scaled; [lia|assumption|].
    rewrite Hd. fold e'. lia.
Qed.

Lemma rne_mono (M M' k : Z) :
  0 <= k -> M <= M' -> rne M k <= rne M' k.
Proof.
  intros Hk HM.
  assert (Hp : 0 < 2 ^ k) by (apply Z.pow_pos_nonneg; lia).
  pose proof (Z.div_le_mono M M' (2 ^ k) Hp HM) as Hq.
  pose proof (rne_bounds M k) as Hb. pose proof (rne_bounds M' k) as Hb'.
  destruct (Z.eq_dec (M / 2 ^ k) (M' / 2 ^ k)) as [E|E]; [|lia].
  assert (Hr : M mod 2 ^ k <= M' mod 2 ^ k).
  { pose proof (Z.div_mod M (2 ^ k) ltac:(lia)).
    pose proof (Z.div_mod M' (2 ^ k) ltac:(lia)). nia. }
  unfold rne. cbv zeta. rewrite <- E.
  destruct (Z.ltb_spec (2 * (M mod 2 ^ k)) (2 ^ k)) as [H1|H1];
    destruct (Z.ltb_spec (2 * (M' mod 2 ^ k)) (2 ^ k)) as [H2|H2]; try lia.
  - destruct (_ && _); lia.
  - destruct (Z.eqb_spec (2 * (M mod 2 ^ k)) (2 ^ k)) as [H3|H3];
      destruct (Z.eqb_spec (2 * (M' mod 2 ^ k)) (2 ^ k)) as [H4|H4];
      cbn [andb]; try lia; destruct (Z.even (M / 2 ^ k)); lia.
Qed.

Lemma Zdigits2_mono (m m' : Z) :
  0 < m -> m <= m' -> Zdigits2 m <= Zdigits2 m'.
Proof.
  intros Hm Hle.
  pose proof (Zdigits2_pos_bounds m Hm) as (Hd & Hlo & Hhi).
  pose proof (Zdigits2_pos_bounds m' ltac:(lia)) as (Hd' & Hlo' & Hhi').
  apply Zdigits2_le; lia.
Qed.

Lemma roundZ_mono (V V' : Z) :
  0 < V -> V <= V' -> roundZ V <= roundZ V'.
Proof.
  intros HV Hle. unfold roundZ. cbv zeta.
  apply Z.min_le_compat_r.
  pose proof (Zdigits2_mono V V' HV Hle) as Hd.
  pose proof (Zdigits2_pos_bounds V HV) as (Hd0 & Hlo & Hhi).
  pose proof (Zdigits2_pos_bounds V' ltac:(lia)) as (Hd0' & Hlo' & Hhi').
  set (k := Z.max 0 (Zdigits2 V - 53)). set (k' := Z.max 0 (Zdigits2 V' - 53)).
  assert (Hk : 0 <= k <= k') by (unfold k, k'; lia).
  assert (Hp : 0 < 2 ^ k) by (apply Z.pow_pos_nonneg; lia).
  assert (Hp' : 0 < 2 ^ k') by (apply Z.pow_pos_nonneg; lia).
  destruct (Z.eq_dec k k') as [E|E].
  - rewrite <- E. apply Z.mul_le_mono_nonneg_r; [lia|].
    apply rne_mono; lia.
  - assert (Hdd : Zdigits2 V <= Zdigits2 V' - 1) by (unfold k, k' in *; lia).
    transitivity (2 ^ Zdigits2 V).
    + pose proof (rne_bounds V k) as Hb.
      assert (E1 : 2 ^ Zdigits2 V = 2 ^ (Zdigits2 V - k) * 2 ^ k).
      { rewrite <- Z.pow_add_r by (unfold k; lia). f_equal. lia. }
      assert (V / 2 ^ k < 2 ^ (Zdigits2 V - k))
        by (apply Z.div_lt_upper_bound; lia).
      rewrite E1. apply Z.mul_le_mono_nonneg_r; lia.
    + transitivity (2 ^ (Zdigits2 V' - 1)); [apply Z.pow_le_mono_r; lia|].
      pose proof (rne_bounds V' k') as Hb.
      assert (E1 : 2 ^ (Zdigits2 V' - 1) = 2 ^ (Zdigits2 V' - 1 - k') * 2 ^ k').
      { rewrite <- Z.pow_add_r by (unfold k, k' in *; lia). f_equal. lia. }
      assert (2 ^ (Zdigits2 V' - 1 - k') <= V' / 2 ^ k')
        by (apply Z.div_le_lower_bound; lia).
      rewrite E1. apply Z.mul_le_mono_nonneg_r; lia.
Qed.

(** A number of the format rounds to itself. *)
Lemma roundZ_finite (s : bool) (m : positive) (e : Z) :
  valid_binary (S754_finite s m e) = true ->
  roundZ (Zpos m * 2 ^ (e + 1074)) = Zpos m * 2 ^ (e + 1074).
Proof.
  intros V. pose proof (valid_finite _ _ _ V) as (He & Hd & Hn).
  pose proof (finite_mantissa_bounds _ _ _ V) as [Hm _].
  unfold roundZ. cbv zeta.
  rewrite Zdigits2_mul_pow2 by lia. cbn [Zdigits2].
  replace (Z.max 0 (Zpos (digits2_pos m) + (e + 1074) - 53)) with (0 + (e + 1074))
    by (destruct (Z.eq_dec e (-1074)); [lia|rewrite Hn by lia; lia]).
  rewrite rne_shift by lia.
  assert (E0 : rne (Zpos m) 0 = Zpos m).
  { unfold rne. simpl (2 ^ 0). rewrite Z.mod_1_r, Z.div_1_r. reflexivity. }
  rewrite E0, Z.add_0_l, pow2_2098.
  assert (0 < 2 ^ (e + 1074)) by (apply Z.pow_pos_nonneg; lia).
  assert (2 ^ (e + 1074) <= 2 ^ 2045) by (apply Z.pow_le_mono_r; lia).
  apply Z.min_l. nia.
Qed.

(** The order of the numbers is the order of their values. *)
Lemma scaled_finite_bounds (s : bool) (m : positive) (e : Z) :
  valid_binary (S754_finite s m e) = true ->
  0 < Zpos m * 2 ^ (e + 1074) < 2 ^ 2098.
Proof.
  intros V. pose proof (valid_finite _ _ _ V) as (He & _).
  pose proof (finite_mantissa_bounds _ _ _ V) as [Hm _].
  assert (0 < 2 ^ (e + 1074)) by (apply Z.pow_pos_nonneg; lia).
  assert (2 ^ (e + 1074) <= 2 ^ 2045) by (apply Z.pow_le_mono_r; lia).
  rewrite pow2_2098. nia.
Qed.

Lemma scaled_lt_exp (s s' : bool) (m m' : positive) (e e' : Z) :
  valid_binary (S754_finite s m e) = true ->
  valid_binary (S754_finite s' m' e') = true ->
  e < e' ->
  Zpos m * 2 ^ (e + 1074) < Zpos m' * 2 ^ (e' + 1074).
Proof.
  intros V V' Hlt.
  pose proof (valid_finite _ _ _ V) as (He & _).
  pose proof (valid_finite _ _ _ V') as (He' & _).
  pose proof (finite_mantissa_bounds _ _ _ V) as [Hm _].
  pose proof (finite_mantissa_bounds _ _ _ V') as [_ Hm'].
  specialize (Hm' ltac:(lia)).
  assert (HX : 0 < 2 ^ (e + 1074)) by (apply Z.pow_pos_nonneg; lia).
  assert (E : 2 ^ (e' + 1074) = 2 ^ (e' - e) * 2 ^ (e + 1074)).
  { rewrite <- Z.pow_add_r by lia. f_equal. lia. }
  assert (2 ^ 1 <= 2 ^ (e' - e)) by (apply Z.pow_le_mono_r; lia).
  rewrite E. change (2 ^ 1) with 2 in *. change (2 ^ 53) with (2 * 2 ^ 52) in Hm.
  nia.
Qed.

Lemma SFcompare_scaled (x y : spec_float) :
  valid_binary x = true -> valid_binary y = true ->
  x <> S754_nan -> y <> S754_nan ->
  SFcompare x y = Some (SFscaled x ?= SFscaled y).
Proof.
  intros Vx Vy Nx Ny.
  assert (HP : 0 < 2 ^ 2098) by (apply Z.pow_pos_nonneg; lia).
  destruct x as [sx|sx| |sx mx ex], y as [sy|sy| |sy my ey]; try congruence;
    try pose proof (scaled_finite_bounds _ _ _ Vx) as Hx;
    try pose proof (scaled_finite_bounds _ _ _ Vy) as Hy;
    cbn [SFcompare SFscaled].
  all: repeat (match goal with s : bool |- _ => destruct s end).
  all: f_equal; symmetry.
  all: try (apply Z.compare_eq_iff; lia).
  all: try (apply Z.compare_lt_iff; lia).
  all: try (apply Z.compare_gt_iff; lia).
  - (* both negative *)
    destruct (Z.compare_spec ex ey) as [E|E|E].
    + subst ey.
      assert (HX : 0 < 2 ^ (ex + 1074)) by (apply Z.pow_pos_nonneg; pose proof (valid_finite _ _ _ Vx); lia).
      destruct (Pos.compare_spec mx my) as [E'|E'|E'];
        change (Pos.compare_cont Eq mx my) with (mx ?= my)%positive;
        [ rewrite (proj2 (Pos.compare_eq_iff mx my) E')
        | rewrite (proj2 (Pos.compare_lt_iff mx my) E')
        | rewrite (proj2 (Pos.compare_gt_iff mx my) E') ]; cbn [CompOpp].
      * apply Z.compare_eq_iff. subst. lia.
      * apply Z.compare_gt_iff. nia.
      * apply Z.compare_lt_iff. nia.
    + apply Z.compare_gt_iff. pose proof (scaled_lt_exp _ _ _ _ _ _ Vx Vy E). lia.
    + apply Z.compare_lt_iff. pose proof (scaled_lt_exp _ _ _ _ _ _ Vy Vx E). lia.
  - (* both positive *)
    destruct (Z.compare_spec ex ey) as [E|E|E].
    + subst ey.
      assert (HX : 0 < 2 ^ (ex + 1074)) by (apply Z.pow_pos_nonneg; pose proof (valid_finite _ _ _ Vx); lia).
      destruct (Pos.compare_spec mx my) as [E'|E'|E'];
        change (Pos.compare_cont Eq mx my) with (mx ?= my)%positive;
        [ rewrite (proj2 (Pos.compare_eq_iff mx my) E')
        | rewrite (proj2 (Pos.compare_lt_iff mx my) E')
        | rewrite (proj2 (Pos.compare_gt_iff mx my) E') ].
      * apply Z.compare_eq_iff. subst. lia.
      * apply Z.compare_lt_iff. nia.
      * apply Z.compare_gt_iff. nia.
    + apply Z.compare_lt_iff. pose proof (scaled_lt_exp _ _ _ _ _ _ Vx Vy E). lia.
    + apply Z.compare_gt_iff. pose proof (scaled_lt_exp _ _ _ _ _ _ Vy Vx E). lia.
Qed.

Lemma SFrank_scaled (x y : spec_float) :
  valid_binary x = true -> valid_binary y = true ->
  x <> S754_nan -> y <> S754_nan ->
  (SFrank x ?= SFrank y) = (SFscaled x ?= SFscaled y).
Proof.
  intros Vx Vy Nx Ny.
  pose proof (SFcompare_rank x y Vx Vy Nx Ny) as H1.
  pose proof (SFcompare_scaled x y Vx Vy Nx Ny) as H2.
  congruence.
Qed.

Lemma shl_align_scaled (m : positive) (e ez : Z) :
  -1074 <= ez -> ez <= e ->
  Zpos (fst (shl_align m e ez)) * 2 ^ (ez + 1074) = Zpos m * 2 ^ (e + 1074).
Proof.
  intros Hz He. destruct (shl_align_spec m e ez He) as [-> _].
  rewrite <- Z.mul_assoc, <- Z.pow_add_r by lia. do 2 f_equal. lia.
Qed.

(** The difference of two finite numbers, the first one the larger, is the
    rounding of the exact difference. *)
Lemma SFsub_scaled (x y : spec_float) :
  valid_binary x = true -> valid_binary y = true ->
  SFfinite x = true -> SFfinite y = true ->
  SFscaled y < SFscaled x ->
  SFscaled (SFsub prec emax x y) = roundZ (SFscaled x - SFscaled y).
Proof.
  intros Vx Vy Fx Fy.
  destruct x as [sx|sx| |sx mx ex], y as [sy|sy| |sy my ey]; try discriminate;
    try pose proof (scaled_finite_bounds _ _ _ Vx) as Hx;
    try pose proof (scaled_finite_bounds _ _ _ Vy) as Hy.
  - cbn [SFsub]. destruct sy; cbn [SFscaled negb]; [|lia]. intros _.
    rewrite <- (roundZ_finite true my ey Vy) at 1. f_equal. lia.
  - cbn [SFsub]. destruct sx; cbn [SFscaled]; [lia|]. intros _.
    rewrite <- (roundZ_finite false mx ex Vx) at 1. f_equal. lia.
  - pose proof (valid_finite _ _ _ Vx) as (Hex & _).
    pose proof (valid_finite _ _ _ Vy) as (Hey & _).
    cbn [SFsub]. intros Hlt.
    pose proof (shl_align_scaled mx ex (Z.min ex ey) ltac:(lia) ltac:(lia)) as Ax.
    pose proof (shl_align_scaled my ey (Z.min ex ey) ltac:(lia) ltac:(lia)) as Ay.
    set (ax := Zpos (fst (shl_align mx ex (Z.min ex ey)))) in *.
    set (ay := Zpos (fst (shl_align my ey (Z.min ex ey)))) in *.
    assert (HX : 0 < 2 ^ (Z.min ex ey + 1074)) by (apply Z.pow_pos_nonneg; lia).
    assert (ED : (cond_Zopp sx ax - cond_Zopp sy ay) * 2 ^ (Z.min ex ey + 1074)
                 = SFscaled (S754_finite sx mx ex) - SFscaled (S754_finite sy my ey)).
    { destruct sx, sy; cbn [cond_Zopp SFscaled]; lia. }
    rewrite <- ED.
    destruct (cond_Zopp sx ax - cond_Zopp sy ay) as [|p|p] eqn:Ep; try nia.
    cbn [binary_normalize].
    apply binary_round_scaled. lia.
Qed.

Lemma shr_fexp_m (m e : Z) (l : location) :
  0 <= m ->
  shr_m (fst (shr_fexp prec emax m e l))
  = m / 2 ^ Z.max 0 (fexp prec emax (Zdigits2 m + e) - e)
  /\ snd (shr_fexp prec emax m e l)
     = e + Z.max 0 (fexp prec emax (Zdigits2 m + e) - e).
Proof.
  intros Hm. unfold shr_fexp, shr.
  destruct (fexp prec emax (Zdigits2 m + e) - e) as [|q|q] eqn:En; cbn [fst snd].
  - rewrite shr_record_of_loc_m, Z.max_id, Z.div_1_r. split; [reflexivity|lia].
  - rewrite iter_pos_shr_1_m by (rewrite shr_record_of_loc_m; lia).
    rewrite shr_record_of_loc_m, Z.max_r by lia. split; reflexivity.
  - rewrite shr_record_of_loc_m, Z.max_l by lia. simpl (2 ^ 0).
    rewrite Z.div_1_r. split; [reflexivity|lia].
Qed.

Lemma Zdigits2_nonneg (m : Z) : 0 <= Zdigits2 m.
Proof. destruct m; cbn [Zdigits2]; lia. Qed.

Lemma Zdigits2_lower (m : Z) : 0 < m -> 2 ^ (Zdigits2 m - 1) <= m.
Proof. intros Hm. apply Zdigits2_pos_bounds. assumption. Qed.

(** One truncation to the exponent of the format keeps a mantissa under a
    bound that is a number of the format. *)
Lemma shr_under_bound (m e : Z) (mB : positive) (eB : Z) :
  0 <= m -> valid_binary (S754_finite false mB eB) = true ->
  e <= eB -> m <= Zpos mB * 2 ^ (eB - e) ->
  let n := Z.max 0 (fexp prec emax (Zdigits2 m + e) - e) in
  e + n <= eB
  /\ m / 2 ^ n <= Zpos mB * 2 ^ (eB - (e + n))
  /\ (m < Zpos mB * 2 ^ (eB - e) -> m / 2 ^ n < Zpos mB * 2 ^ (eB - (e + n)))
  /\ m / 2 ^ n < 2 ^ 53.
Proof.
  intros Hm VB He Hle n.
  pose proof (valid_finite _ _ _ VB) as (HeB & _).
  pose proof (finite_mantissa_bounds _ _ _ VB) as [HmB _].
  pose proof (Zdigits2_nonneg m) as Hd0.
  assert (Hn : 0 <= n) by (unfold n; lia).
  assert (Hp : 0 < 2 ^ n) by (apply Z.pow_pos_nonneg; lia).
  assert (HpB : 0 < 2 ^ (eB - e)) by (apply Z.pow_pos_nonneg; lia).
  assert (HE : e + n <= eB).
  { destruct (Z_le_gt_dec (e + n) eB) as [|Hgt]; [assumption|exfalso].
    assert (Hm0 : 0 < m).
    { destruct (Z.eq_dec m 0) as [->|]; [|lia].
      unfold n, fexp, SpecFloat.emin, prec, emax in *. cbn [Zdigits2] in *. lia. }
    pose proof (Zdigits2_lower m Hm0) as Hlo.
    assert (53 + (eB - e) <= Zdigits2 m - 1)
      by (unfold n, fexp, SpecFloat.emin, prec, emax in *; lia).
    assert (2 ^ (53 + (eB - e)) <= 2 ^ (Zdigits2 m - 1))
      by (apply Z.pow_le_mono_r; lia).
    rewrite Z.pow_add_r in * by lia. nia. }
  assert (EB : 2 ^ (eB - e) = 2 ^ (eB - (e + n)) * 2 ^ n).
  { rewrite <- Z.pow_add_r by lia. f_equal. lia. }
  assert (HpE : 0 < 2 ^ (eB - (e + n))) by (apply Z.pow_pos_nonneg; lia).
  split; [exact HE|]. split; [|split].
  - apply Z.div_le_upper_bound; [lia|]. rewrite EB in Hle. lia.
  - intros Hlt. apply Z.div_lt_upper_bound; [lia|]. rewrite EB in Hlt. lia.
  - destruct (Z.eq_dec m 0) as [->|Hm0]; [rewrite Z.div_0_l by lia; lia|].
    pose proof (Zdigits2_pos_bounds m ltac:(lia)) as (Hd & _ & Hhi).
    apply Z.div_lt_upper_bound; [lia|].
    rewrite <- Z.pow_add_r by lia.
    assert (2 ^ Zdigits2 m <= 2 ^ (n + 53)); [|lia].
    apply Z.pow_le_mono_r; [lia|].
    unfold n, fexp, SpecFloat.emin, prec, emax. lia.
Qed.

(** Rounding a non-negative mantissa whose value, whatever its location,
    stays below a number of the format gives at most that number. *)
Lemma binary_round_aux_le (m e : Z) (l : location) (mB : positive) (eB : Z) :
  0 <= m -> valid_binary (S754_finite false mB eB) = true ->
  e <= eB -> m + 1 <= Zpos mB * 2 ^ (eB - e) ->
  SFnonnegOrNaN (binary_round_aux prec emax false m e l) = true
  /\ binary_round_aux prec emax false m e l <> S754_nan
  /\ SFrank (binary_round_aux prec emax false m e l)
     <= SFrank (S754_finite false mB eB).
Proof.
  intros Hm VB He Hle.
  pose proof (valid_finite _ _ _ VB) as (HeB & _).
  pose proof (finite_mantissa_bounds _ _ _ VB) as [HmB _].
  unfold binary_round_aux.
  pose proof (shr_fexp_m m e l Hm) as [E1 E2].
  pose proof (shr_under_bound m e mB eB Hm VB He ltac:(lia)) as (B1 & _ & B3 & _).
  cbv zeta in B1, B3. specialize (B3 ltac:(lia)).
  destruct (shr_fexp prec emax m e l) as [mrs' e']. cbn [fst snd] in E1, E2.
  set (n := Z.max 0 (fexp prec emax (Zdigits2 m + e) - e)) in *.
  pose proof (round_nearest_even_bounds (shr_m mrs') (loc_of_shr_record mrs')) as Hr.
  set (m1 := round_nearest_even (shr_m mrs') (loc_of_shr_record mrs')) in *.
  assert (Hq : 0 <= m / 2 ^ n)
    by (apply Z.div_pos; [lia|apply Z.pow_pos_nonneg; unfold n; lia]).
  assert (Hm1 : 0 <= m1) by lia.
  rewrite E2 in *. clear E2.
  pose proof (shr_fexp_m m1 (e + n) loc_Exact Hm1) as [F1 F2].
  pose proof (shr_under_bound m1 (e + n) mB eB Hm1 VB B1 ltac:(lia))
    as (C1 & C2 & _ & C4).
  cbv zeta in C1, C2, C4.
  destruct (shr_fexp prec emax m1 (e + n) loc_Exact) as [mrs'' e''].
  cbn [fst snd] in F1, F2.
  set (n2 := Z.max 0 (fexp prec emax (Zdigits2 m1 + (e + n)) - (e + n))) in *.
  rewrite F1. rewrite F2 in *.
  assert (Hq2 : 0 <= m1 / 2 ^ n2)
    by (apply Z.div_pos; [lia|apply Z.pow_pos_nonneg; unfold n2; lia]).
  destruct (m1 / 2 ^ n2) as [|p|p] eqn:Ep; try lia.
  - cbn [SFnonnegOrNaN SFrank]. split; [reflexivity|]. split; [discriminate|]. lia.
  - rewrite (proj2 (Z.leb_le (e + n + n2) (emax - prec)))
      by (unfold emax, prec; lia).
    cbn [SFnonnegOrNaN SFrank negb]. split; [reflexivity|]. split; [discriminate|].
    destruct (Z.eq_dec (e + n + n2) eB) as [Ee|Ee].
    + rewrite Ee in *. rewrite Z.sub_diag in C2. simpl (2 ^ 0) in C2. lia.
    + nia.
Qed.

Lemma pow2_lt_shift (A B x y x' y' : Z) :
  0 <= x -> 0 <= y -> 0 <= x' -> 0 <= y' -> x - y = x' - y' ->
  A * 2 ^ x < B * 2 ^ y -> A * 2 ^ x' < B * 2 ^ y'.
Proof.
  intros Hx Hy Hx' Hy' E H.
  destruct (Z_le_gt_dec x x') as [Hle|Hgt].
  - replace x' with (x + (x' - x)) by lia. replace y' with (y + (x' - x)) by lia.
    rewrite !Z.pow_add_r by lia.
    assert (0 < 2 ^ (x' - x)) by (apply Z.pow_pos_nonneg; lia). nia.
  - replace x with (x' + (x - x')) in H by lia.
    replace y with (y' + (x - x')) in H by lia.
    rewrite !Z.pow_add_r in H by lia.
    assert (0 < 2 ^ (x - x')) by (apply Z.pow_pos_nonneg; lia). nia.
Qed.

Lemma div_eucl_div_mod (a b : Z) : Z.div_eucl a b = (a / b, a mod b).
Proof. unfold Z.div, Z.modulo. destruct (Z.div_eucl a b). reflexivity. Qed.

Lemma new_location_0 (n : Z) : new_location n 0 = loc_Exact.
Proof. unfold new_location. destruct (Z.even n); reflexivity. Qed.

Lemma Prim2SF_one : Prim2SF 1 = S754_finite false 4503599627370496 (-52).
Proof. reflexivity. Qed.

Lemma Prim2SF_100 : Prim2SF 100 = S754_finite false 7036874417766400 (-46).
Proof. reflexivity. Qed.

(** A finite number divided by itself is 1. *)
Lemma SFdiv_same (s : bool) (m : positive) (e : Z) :
  SFdiv prec emax (S754_finite s m e) (S754_finite s m e) = Prim2SF 1.
Proof.
  cbn [SFdiv]. unfold SFdiv_core_binary.
  rewrite !Z.sub_diag.
  change (Z.min (fexp prec emax 0) 0) with (-53).
  change (0 - -53) with 53.
  cbv iota. rewrite Z.shiftl_mul_pow2 by lia.
  rewrite div_eucl_div_mod.
  rewrite (Z.mul_comm (Zpos m)), Z.div_mul, Z.mod_mul by lia.
  rewrite new_location_0. destruct s; reflexivity.
Qed.

(** A positive finite number divided by a larger one is at most 1. *)
Lemma SFdiv_le_one (ma mb : positive) (ea eb : Z) :
  valid_binary (S754_finite false ma ea) = true ->
  valid_binary (S754_finite false mb eb) = true ->
  Zpos ma * 2 ^ (ea + 1074) < Zpos mb * 2 ^ (eb + 1074) ->
  let r := SFdiv prec emax (S754_finite false ma ea) (S754_finite false mb eb) in
  SFnonnegOrNaN r = true /\ r <> S754_nan /\ SFrank r <= SFrank (Prim2SF 1).
Proof.
  intros Va Vb Hlt r. unfold r. clear r.
  pose proof (valid_finite _ _ _ Va) as (Hea & _).
  pose proof (valid_finite _ _ _ Vb) as (Heb & _).
  cbn [SFdiv xorb]. unfold SFdiv_core_binary.
  set (e' := Z.min (fexp prec emax (Zdigits2 (Zpos ma) + ea - (Zdigits2 (Zpos mb) + eb)))
               (ea - eb)).
  pose proof (Zdigits2_pos_bounds (Zpos ma) ltac:(lia)) as (Hda & Hloa & _).
  pose proof (Zdigits2_pos_bounds (Zpos mb) ltac:(lia)) as (Hdb & _ & Hhib).
  assert (Hd : Zdigits2 (Zpos ma) + ea <= Zdigits2 (Zpos mb) + eb).
  { assert (HXa : 0 < 2 ^ (ea + 1074)) by (apply Z.pow_pos_nonneg; lia).
    assert (HXb : 0 < 2 ^ (eb + 1074)) by (apply Z.pow_pos_nonneg; lia).
    assert (H : 2 ^ (Zdigits2 (Zpos ma) - 1 + (ea + 1074))
                < 2 ^ (Zdigits2 (Zpos mb) + (eb + 1074))).
    { rewrite (Z.pow_add_r 2 (Zdigits2 (Zpos ma) - 1)) by lia.
      rewrite (Z.pow_add_r 2 (Zdigits2 (Zpos mb))) by lia. nia. }
    apply Z.pow_lt_mono_r_iff in H; lia. }
  assert (He' : e' <= -53 /\ e' <= ea - eb)
    by (unfold e', fexp, SpecFloat.emin, prec, emax; lia).
  destruct He' as [He1 He2].
  set (m' := match ea - eb - e' with
             | 0 => Zpos ma
             | Zpos _ => Z.shiftl (Zpos ma) (ea - eb - e')
             | Zneg _ => 0
             end).
  assert (Em : m' = Zpos ma * 2 ^ (ea - eb - e')).
  { unfold m'. destruct (ea - eb - e') as [|p|p] eqn:Es; try lia.
    rewrite Z.shiftl_mul_pow2 by lia. reflexivity. }
  rewrite div_eucl_div_mod.
  assert (Hq : 0 <= m' / Zpos mb).
  { apply Z.div_pos; [|lia]. rewrite Em.
    assert (0 < 2 ^ (ea - eb - e')) by (apply Z.pow_pos_nonneg; lia). lia. }
  assert (Hlt' : m' < Zpos mb * 2 ^ (- e')).
  { rewrite Em.
    apply (pow2_lt_shift _ _ (ea + 1074) (eb + 1074)); lia. }
  rewrite Prim2SF_one.
  apply binary_round_aux_le; [exact Hq|reflexivity|lia|].
  replace (-52 - e') with (52 + (- e' - 52 - 52)) by lia.
  assert (m' / Zpos mb < 2 ^ (- e')) by (apply Z.div_lt_upper_bound; lia).
  assert (E : Zpos 4503599627370496 * 2 ^ (52 + (- e' - 52 - 52)) = 2 ^ (- e')).
  { change (Zpos 4503599627370496) with (2 ^ 52).
    rewrite <- Z.pow_add_r by lia. f_equal. lia. }
  rewrite E. lia.
Qed.

(** A positive finite number below 1, times 100, is at most 100. *)
Lemma SFmul_le_100 (mq : positive) (eq : Z) :
  valid_binary (S754_finite false mq eq) = true ->
  Zpos mq * 2 ^ (eq + 1074) < 2 ^ 1074 ->
  let r := SFmul prec emax (S754_finite false mq eq) (Prim2SF 100) in
  SFnonnegOrNaN r = true /\ r <> S754_nan /\ SFrank r <= SFrank (Prim2SF 100).
Proof.
  intros Vq Hlt r. unfold r. clear r.
  pose proof (valid_finite _ _ _ Vq) as (Heq & _).
  rewrite Prim2SF_100. cbn [SFmul xorb].
  assert (He : eq < 0).
  { assert (H : 2 ^ (eq + 1074) < 2 ^ 1074).
    { assert (0 < 2 ^ (eq + 1074)) by (apply Z.pow_pos_nonneg; lia). nia. }
    apply Z.pow_lt_mono_r_iff in H; lia. }
  assert (Hm : Zpos mq < 2 ^ (- eq)).
  { pose proof (pow2_lt_shift (Zpos mq) 1 (eq + 1074) 1074 0 (- eq)
                  ltac:(lia) ltac:(lia) ltac:(lia) ltac:(lia) ltac:(lia)
                  ltac:(lia)) as H.
    simpl (2 ^ 0) in H. lia. }
  apply binary_round_aux_le; [lia|reflexivity|lia|].
  replace (-46 - (eq + -46)) with (- eq) by lia.
  rewrite Pos2Z.inj_mul. nia.
Qed.

Lemma percentOrNaN_spec (x : float) : percentOrNaN x = SFpercent (Prim2SF x).
Proof.
  unfold percentOrNaN. rewrite !FloatAxioms.leb_spec, Prim2SF_zero.
  destruct (isNaN x) eqn:En.
  - apply isNaN_spec in En. rewrite En. reflexivity.
  - apply isNaN_false in En. destruct (Prim2SF x); try congruence; reflexivity.
Qed.

Lemma SFpercent_bounded (r : spec_float) :
  valid_binary r = true -> SFnonnegOrNaN r = true -> r <> S754_nan ->
  SFrank r <= SFrank (Prim2SF 100) -> SFpercent r = true.
Proof.
  intros V Hs Hn Hr.
  assert (E1 : SFleb (S754_zero false) r = true).
  { destruct r as [s|s| |s m e]; try congruence; try reflexivity;
      destruct s; try discriminate; reflexivity. }
  assert (E2 : SFleb r (Prim2SF 100) = true).
  { unfold SFleb. rewrite (SFcompare_rank r (Prim2SF 100) V (Prim2SF_valid _) Hn)
      by (rewrite Prim2SF_100; discriminate).
    destruct (Z.compare_spec (SFrank r) (SFrank (Prim2SF 100))); try reflexivity; lia. }
  destruct r; try congruence; cbn [SFpercent]; rewrite E1, E2; reflexivity.
Qed.

Lemma SFltb_zero_inv (r : spec_float) :
  SFltb (S754_zero false) r = true ->
  r = S754_infinity false \/ exists m e, r = S754_finite false m e.
Proof.
  destruct r as [s|s| |s m e]; try discriminate; destruct s; try discriminate;
    intros _; [left; reflexivity|right; eauto].
Qed.

Lemma SFsub_finite_inv (x y : spec_float) (s : bool) (m : positive) (e : Z) :
  SFsub prec emax x y = S754_finite s m e ->
  SFfinite x = true /\ SFfinite y = true.
Proof.
  destruct x as [sx|sx| |sx mx ex], y as [sy|sy| |sy my ey]; cbn [SFsub SFfinite];
    try (split; reflexivity); try discriminate;
    repeat (match goal with b : bool |- _ => destruct b end); discriminate.
Qed.

Lemma SFpercent_div_inf (a : spec_float) :
  SFpercent (SFmul prec emax (SFdiv prec emax a (S754_infinity false)) (Prim2SF 100))
  = true.
Proof.
  rewrite Prim2SF_100. destruct a as [s|s| |s m e]; try reflexivity; destruct s; reflexivity.
Qed.

Lemma SFpercent_zero_div (a : spec_float) (mb : positive) (eb : Z) :
  SFzeroOrNaN a = true ->
  SFpercent (SFmul prec emax (SFdiv prec emax a (S754_finite false mb eb)) (Prim2SF 100))
  = true.
Proof.
  rewrite Prim2SF_100. destruct a as [s|s| |s m e]; try discriminate; intros _;
    try reflexivity; destruct s; reflexivity.
Qed.

Lemma SFfinite_between (lo x hi : spec_float) :
  valid_binary lo = true -> valid_binary x = true -> valid_binary hi = true ->
  SFfinite lo = true -> SFfinite hi = true -> x <> S754_nan ->
  SFrank lo <= SFrank x <= SFrank hi -> SFfinite x = true.
Proof.
  intros Vl Vx Vh Fl Fh Nx [H1 H2].
  assert (Bl : - (2048 * 2 ^ 53) < SFrank lo).
  { destruct lo as [s|s| |s m e]; try discriminate; cbn [SFrank]; [lia|].
    pose proof (SFrank_finite _ _ _ Vl). destruct s; lia. }
  assert (Bh : SFrank hi < 2048 * 2 ^ 53).
  { destruct hi as [s|s| |s m e]; try discriminate; cbn [SFrank]; [lia|].
    pose proof (SFrank_finite _ _ _ Vh). destruct s; lia. }
  destruct x as [s|s| |s m e]; try congruence; try reflexivity.
  destruct s; cbn [SFrank] in *; lia.
Qed.

Lemma SFscaled_le_rank (x y : spec_float) :
  valid_binary x = true -> valid_binary y = true ->
  x <> S754_nan -> y <> S754_nan ->
  (SFrank x <= SFrank y <-> SFscaled x <= SFscaled y)
  /\ (SFrank x < SFrank y <-> SFscaled x < SFscaled y)
  /\ (SFrank x = SFrank y <-> SFscaled x = SFscaled y).
Proof.
  intros Vx Vy Nx Ny. pose proof (SFrank_scaled x y Vx Vy Nx Ny) as E.
  split; [|split].
  - unfold Z.le. rewrite E. reflexivity.
  - unfold Z.lt. rewrite E. reflexivity.
  - rewrite <- !Z.compare_eq_iff, E. reflexivity.
Qed.

(** The %K formula on three numbers in order, the outer two distinct. *)
Lemma SFpercentK_range (lo cur hi : spec_float) :
  valid_binary lo = true -> valid_binary cur = true -> valid_binary hi = true ->
  lo <> S754_nan -> cur <> S754_nan -> hi <> S754_nan ->
  SFrank lo <= SFrank cur -> SFrank cur <= SFrank hi -> SFrank lo < SFrank hi ->
  valid_binary (SFsub prec emax cur lo) = true ->
  valid_binary (SFsub prec emax hi lo) = true ->
  valid_binary (SFdiv prec emax (SFsub prec emax cur lo) (SFsub prec emax hi lo))
    = true ->
  valid_binary
    (SFmul prec emax
       (SFdiv prec emax (SFsub prec emax cur lo) (SFsub prec emax hi lo))
       (Prim2SF 100)) = true ->
  SFpercent
    (SFmul prec emax
       (SFdiv prec emax (SFsub prec emax cur lo) (SFsub prec emax hi lo))
       (Prim2SF 100)) = true.
Proof.
  intros Vl Vc Vh Nl Nc Nh Hlc Hch Hlh Va Vb Vq VK.
  assert (Hb : SFltb (S754_zero false) (SFsub prec emax hi lo) = true).
  { apply SFsub_lt_pos; auto. unfold SFltb.
    rewrite (SFcompare_rank lo hi) by assumption.
    rewrite (proj2 (Z.compare_lt_iff _ _) Hlh). reflexivity. }
  destruct (SFltb_zero_inv _ Hb) as [Eb|(mb & eb & Eb)].
  { rewrite Eb. apply SFpercent_div_inf. }
  destruct (SFsub_finite_inv _ _ _ _ _ Eb) as [Fh Fl].
  assert (Fc : SFfinite cur = true)
    by (apply (SFfinite_between lo cur hi); auto).
  destruct (SFscaled_le_rank lo cur Vl Vc Nl Nc) as (L1 & L2 & L3).
  destruct (SFscaled_le_rank cur hi Vc Vh Nc Nh) as (M1 & _ & _).
  destruct (SFscaled_le_rank lo hi Vl Vh Nl Nh) as (_ & N2 & _).
  assert (Hcases : SFrank lo = SFrank cur \/ SFrank lo < SFrank cur) by lia.
  destruct Hcases as [Heq|Hlt].
  { rewrite Eb. apply SFpercent_zero_div.
    apply SFsub_same_rank; auto. }
  assert (Ha : SFltb (S754_zero false) (SFsub prec emax cur lo) = true).
  { apply SFsub_lt_pos; auto. unfold SFltb.
    rewrite (SFcompare_rank lo cur) by assumption.
    rewrite (proj2 (Z.compare_lt_iff _ _) Hlt). reflexivity. }
  pose proof (SFsub_scaled cur lo Vc Vl Fc Fl (proj1 L2 Hlt)) as Sa.
  pose proof (SFsub_scaled hi lo Vh Vl Fh Fl (proj1 N2 Hlh)) as Sb.
  assert (Hmono : SFscaled (SFsub prec emax cur lo)
                  <= SFscaled (SFsub prec emax hi lo)).
  { rewrite Sa, Sb. apply roundZ_mono; lia. }
  assert (Na : SFsub prec emax cur lo <> S754_nan)
    by (intros E; rewrite E in Ha; discriminate).
  assert (Nb : SFsub prec emax hi lo <> S754_nan)
    by (rewrite Eb; discriminate).
  destruct (SFscaled_le_rank _ _ Va Vb Na Nb) as (P1 & P2 & P3).
  apply P1 in Hmono.
  destruct (SFltb_zero_inv _ Ha) as [Ea|(ma & ea & Ea)].
  { exfalso. rewrite Ea, Eb in Hmono. rewrite Eb in Vb.
    pose proof (SFrank_finite _ _ _ Vb). cbn [SFrank] in Hmono. lia. }
  assert (Hcases : SFrank (SFsub prec emax cur lo) = SFrank (SFsub prec emax hi lo)
                   \/ SFrank (SFsub prec emax cur lo)
                      < SFrank (SFsub prec emax hi lo)) by lia.
  destruct Hcases as [Heq|Hlt'].
  { pose proof (SFrank_eq_inv _ _ Va Vb Na Nb Heq) as Hinv.
    rewrite Ea, Eb in Hinv. destruct Hinv as (_ & -> & ->).
    rewrite Ea, Eb, SFdiv_same. reflexivity. }
  apply P2 in Hlt'.
  revert Vq VK. rewrite Ea, Eb in *. cbn [SFscaled] in Hlt'. intros Vq VK.
  destruct (SFdiv_le_one ma mb ea eb Va Vb Hlt') as (Q1 & Q2 & Q3).
  cbv zeta in Q1, Q2, Q3.
  set (q := SFdiv prec emax (S754_finite false ma ea) (S754_finite false mb eb)) in *.
  destruct q as [sq|sq| |sq mq eq] eqn:Eq; try congruence.
  - rewrite Prim2SF_100. destruct sq; reflexivity.
  - exfalso. destruct sq; [discriminate|]. rewrite Prim2SF_one in Q3.
    cbn [SFrank] in Q3. lia.
  - destruct sq; [discriminate|].
    assert (V1 : valid_binary (Prim2SF 1) = true) by apply Prim2SF_valid.
    assert (N1 : Prim2SF 1 <> S754_nan) by (rewrite Prim2SF_one; discriminate).
    assert (Hcases : SFrank (S754_finite false mq eq) = SFrank (Prim2SF 1)
                     \/ SFrank (S754_finite false mq eq) < SFrank (Prim2SF 1))
      by lia.
    destruct Hcases as [Heq|Hlt1].
    + pose proof (SFrank_eq_inv _ _ Vq V1 Q2 N1 Heq) as Hinv.
      rewrite Prim2SF_one in Hinv. destruct Hinv as (_ & -> & ->). reflexivity.
    + destruct (SFscaled_le_rank _ _ Vq V1 Q2 N1) as (_ & R2 & _).
      apply R2 in Hlt1. rewrite Prim2SF_one in Hlt1. cbn [SFscaled] in Hlt1.
      change (Zpos 4503599627370496 * 2 ^ (-52 + 1074)) with (2 ^ 1074) in Hlt1.
      destruct (SFmul_le_100 mq eq Vq Hlt1) as (K1 & K2 & K3).
      apply SFpercent_bounded; assumption.
Qed.

Lemma percentK_range (lo cur hi : float) :
  isNaN lo = false -> isNaN cur = false -> isNaN hi = false ->
  (rank lo <= rank cur)%Z -> (rank cur <= rank hi)%Z -> (rank lo < rank hi)%Z ->
  percentOrNaN (((cur - lo) / (hi - lo)) * 100) = true.
Proof.
  intros Hlo Hcur Hhi H1 H2 H3.
  rewrite percentOrNaN_spec.
  pose proof (Prim2SF_valid (cur - lo)) as Va.
  pose proof (Prim2SF_valid (hi - lo)) as Vb.
  pose proof (Prim2SF_valid ((cur - lo) / (hi - lo))) as Vq.
  pose proof (Prim2SF_valid (((cur - lo) / (hi - lo)) * 100)) as VK.
  rewrite FloatAxioms.mul_spec in *. rewrite FloatAxioms.div_spec in *.
  rewrite !FloatAxioms.sub_spec in *.
  apply SFpercentK_range; try apply Prim2SF_valid; try (now apply isNaN_false);
    assumption.
Qed.

End RoundToNearest.

Lemma NaN_percentK (lo cur hi : float) :
  isNaN lo = true \/ isNaN cur = true ->
  isNaN (((cur - lo) / (hi - lo)) * 100) = true.
Proof.
  intros H. apply isNaN_spec.
  rewrite FloatAxioms.mul_spec, FloatAxioms.div_spec, !FloatAxioms.sub_spec.
  destruct H as [H|H]; apply isNaN_spec in H; rewrite H.
  - destruct (Prim2SF cur); reflexivity.
  - reflexivity.
Qed.

(** * EMA *)

(** C5: for every price series and period, EMA returns the sentinel 0 when
    the series is shorter than the period, and otherwise the value obtained
    by seeding with the mean of the first [period] prices and applying
    [ema = price[i] * alpha + ema * (1 - alpha)], [alpha = 2 / (period + 1)],
    for every index from [period] to the end. *)
Theorem EMA_Calculate_is_recurrence : forall (prices : list float) (period : nat),
  EMACalculator.Calculate prices period = Spec.EMA prices period.
Proof.
  intros prices period. unfold EMACalculator.Calculate, Spec.EMA.
  destruct (length prices <? period)%nat eqn:E; [reflexivity|].
  apply Nat.ltb_ge in E. unfold at_.
  rewrite (for_range_fold (fun s x => (s + x)%float) prices 0%float period 0) by lia.
  rewrite (for_range_fold (fun ema x => (x * _ + ema * _)%float) prices 0%float) by lia.
  simpl skipn at 1.
  rewrite firstn_all2 with (n := length prices - period)
    by (rewrite length_skipn; lia).
  reflexivity.
Qed.

(** * RSI *)

Lemma strictlyIncreasing_nth (prices : list float) :
  strictlyIncreasing prices = true ->
  forall i, i + 1 < length prices ->
  (nth i prices 0 <? nth (i + 1) prices 0)%float = true.
Proof.
  induction prices as [|x [|y rest] IH]; intros H i Hi; simpl in Hi; try lia.
  cbn [strictlyIncreasing] in H. apply andb_prop in H. destruct H as [Hxy Hrest].
  destruct i as [|i].
  - exact Hxy.
  - change (nth (S i) (x :: y :: rest) 0%float) with (nth i (y :: rest) 0%float).
    change (nth (S i + 1) (x :: y :: rest) 0%float)
      with (nth (i + 1) (y :: rest) 0%float).
    apply IH; [exact Hrest|simpl; lia].
Qed.

(** On a rising series every step is a gain and every loss is 0. *)
Lemma gainsLosses_increasing (prices : list float) :
  strictlyIncreasing prices = true ->
  length (fst (RSICalculator.gainsLosses prices)) = length prices - 1
  /\ snd (RSICalculator.gainsLosses prices) = repeat 0%float (length prices - 1).
Proof.
  intros Hinc. unfold RSICalculator.gainsLosses.
  apply (for_range_inv (fun c st => length (fst st) = c /\ snd st = repeat 0%float c)).
  - split; reflexivity.
  - intros c [gains losses] Hc [Hg Hl]. cbn [fst snd] in *.
    unfold at_. replace (1 + c - 1) with c by lia.
    pose proof (strictlyIncreasing_nth prices Hinc c ltac:(lia)) as Hlt.
    replace (c + 1) with (1 + c) in Hlt by lia.
    apply sub_pos in Hlt. unfold gtb. rewrite Hlt. cbn [fst snd].
    rewrite length_app, Hg, Hl. simpl. split; [lia|].
    rewrite <- repeat_cons. reflexivity.
Qed.

Lemma at_repeat_zero n i : at_ (repeat 0%float n) i = 0%float.
Proof.
  unfold at_. revert i. induction n as [|n IH]; intros [|i]; simpl; auto.
Qed.

(** C7, as amended: for every period of at least 1 and every strictly
    increasing price series of at least [period + 1] prices (a Go slice, so
    shorter than 2^63), RSI returns exactly 100: every step is a gain, and
    the average loss stays exactly zero through the Wilder smoothing. *)
Theorem RSI_Calculate_increasing : forall (prices : list float) (period : nat),
  1 <= period ->
  period + 1 <= length prices ->
  (Z.of_nat (length prices) < 2 ^ 63)%Z ->
  strictlyIncreasing prices = true ->
  RSICalculator.Calculate prices period = 100%float.
Proof.
  intros prices period Hp Hlen Hbig Hinc. unfold RSICalculator.Calculate.
  rewrite (proj2 (Nat.ltb_ge _ _)) by lia.
  destruct (gainsLosses_increasing prices Hinc) as [Hg Hl].
  destruct (RSICalculator.gainsLosses prices) as [gains losses]. cbn [fst snd] in *.
  rewrite (proj2 (Nat.ltb_ge _ _)) by lia.
  destruct (float64_pos (Z.of_nat period) ltac:(lia)) as (mp & ep & Hfp).
  assert (Hsum : snd (for_range period 0
            (fun i '(avgGain, avgLoss) =>
               ((avgGain + at_ gains i)%float, (avgLoss + at_ losses i)%float))
            (0%float, 0%float)) = 0%float).
  { apply (for_range_inv (fun _ st => snd st = 0%float)); [reflexivity|].
    intros c [g l] _ Hs. cbn [snd] in *. subst l losses.
    rewrite at_repeat_zero. reflexivity. }
  destruct (for_range period 0 _ _) as [sumGain sumLoss].
  cbn [snd] in Hsum. subst sumLoss.
  rewrite (zero_div_pos _ _ _ Hfp).
  assert (Hw : forall g0, snd (for_range (length gains - period) period
            (fun i '(avgGain, avgLoss) =>
               (((avgGain * float64 (Z.of_nat period - 1) + at_ gains i)
                   / float64 (Z.of_nat period))%float,
                ((avgLoss * float64 (Z.of_nat period - 1) + at_ losses i)
                   / float64 (Z.of_nat period))%float))
            (g0, 0%float)) = 0%float).
  { intros g0. apply (for_range_inv (fun _ st => snd st = 0%float)); [reflexivity|].
    intros c [g l] _ Hs. cbn [snd] in *. subst l losses. rewrite at_repeat_zero.
    assert (Hm : (0 * float64 (Z.of_nat period - 1))%float = 0%float).
    { assert (E : (Z.of_nat period - 1 = 0 \/ 0 < Z.of_nat period - 1)%Z) by lia.
      destruct E as [E|E].
      - rewrite E. reflexivity.
      - destruct (float64_pos (Z.of_nat period - 1) ltac:(lia)) as (m' & e' & H').
        apply (zero_mul_pos _ _ _ H'). }
    rewrite Hm. change (0 + 0)%float with 0%float. apply (zero_div_pos _ _ _ Hfp). }
  specialize (Hw (sumGain / float64 (Z.of_nat period))%float).
  destruct (for_range (length gains - period) period _ _) as [avgGain avgLoss].
  cbn [snd] in Hw. subst avgLoss. reflexivity.
Qed.

Lemma RSI_Calculate_increasing_witness :
  RSICalculator.Calculate [1; 2; 3; 4; 5; 6; 7; 8]%float 5 = 100%float.
Proof.
  apply (RSI_Calculate_increasing [1; 2; 3; 4; 5; 6; 7; 8]%float 5).
  - lia.
  - simpl. lia.
  - reflexivity.
  - reflexivity.
Defined.

(** C7 as stated fails at period 0: the series 1, 2, 3 is strictly
    increasing and has at least [0 + 1] prices, and RSI returns a NaN (the
    averages are divided by [float64(0)]), which is not 100. *)
Lemma RSI_Calculate_period_zero :
  strictlyIncreasing [1; 2; 3]%float = true
  /\ 0 + 1 <= length [1; 2; 3]%float
  /\ isNaN (RSICalculator.Calculate [1; 2; 3]%float 0) = true
  /\ (RSICalculator.Calculate [1; 2; 3]%float 0 =? 100)%float = false.
Proof. repeat split; try reflexivity. simpl. lia. Qed.

(** * Stochastic RSI *)

Lemma for_range_snoc_length {A} (g : nat -> A) count start acc :
  length (for_range count start (fun i acc => acc ++ [g i]) acc) =
  length acc + count.
Proof. now rewrite for_range_snoc_map, length_app, length_map, length_seq. Qed.

Lemma length_rsiTrajectory prices r :
  length (StochasticRSICalculator.rsiTrajectory prices r) = length prices - r.
Proof.
  unfold StochasticRSICalculator.rsiTrajectory.
  now rewrite (for_range_snoc_length (fun i => _)).
Qed.

Lemma length_stochKTrajectory rsi k ks :
  StochasticRSICalculator.stochKTrajectory rsi k = Some ks ->
  1 <= k /\ length ks = length rsi - (k - 1).
Proof.
  destruct k as [|k']; simpl; [discriminate|]. intros [= <-].
  rewrite (for_range_snoc_length (fun i => _)). simpl. lia.
Qed.

(** The Stochastic RSI panics for no %K period of at least 1. *)
Lemma stochastic_Calculate_returns prices r k d :
  1 <= k ->
  exists result, StochasticRSICalculator.Calculate prices r k d = Some result.
Proof.
  intros Hk. unfold StochasticRSICalculator.Calculate.
  destruct (_ <? _)%nat; [eauto|].
  destruct (_ <? _)%nat; [eauto|].
  destruct k as [|k']; [lia|]. cbn [StochasticRSICalculator.stochKTrajectory].
  match goal with |- context [if ?c then _ else _] => destruct c end; eauto.
Qed.

(** The crossover test, read on the indices the code uses. *)
Lemma crossoverTest_nth ks d :
  d + 1 <= length ks ->
  crossoverTest ks d =
  if (2 <=? length ks)%nat then
    (nth (length ks - 2) ks 0 <?
       fold_left PrimFloat.add (firstn d (skipn (length ks - d - 1) ks)) 0
         / float64 (Z.of_nat d))%float
    && (nth (length ks - 1) ks 0 >?
          fold_left PrimFloat.add (firstn d (skipn (length ks - d) ks)) 0
            / float64 (Z.of_nat d))%float
    && (nth (length ks - 2) ks 0 <? 30)%float
  else false.
Proof.
  intros Hd. unfold crossoverTest.
  destruct (2 <=? length ks)%nat eqn:E4.
  - apply Nat.leb_le in E4.
    destruct (rev_two ks 0%float E4) as [l' ->].
    unfold percentD, sma, lastN.
    rewrite removelast_firstn_len, length_firstn, skipn_firstn_comm.
    replace (Nat.min (Nat.pred (length ks)) (length ks) - d)
      with (length ks - d - 1) by lia.
    replace (Nat.pred (length ks) - (length ks - d - 1)) with d by lia.
    rewrite (firstn_all2 (n := d) (skipn (length ks - d) ks))
      by (rewrite length_skipn; lia).
    reflexivity.
  - apply Nat.leb_gt in E4.
    destruct ks as [|a [|b ks]]; simpl in *; try lia; reflexivity.
Qed.

(** On a series that passes the length guard, the result is read off the
    %K trajectory; the two later guards and the [prevD = 0] default of the
    code are never taken. *)
Lemma stochastic_Calculate_long prices r k d ks :
  r + k + d <= length prices ->
  StochasticRSICalculator.stochKTrajectory
    (StochasticRSICalculator.rsiTrajectory prices r) k = Some ks ->
  StochasticRSICalculator.Calculate prices r k d =
  Some {| StochasticRSICalculator.K := List.last ks 0%float;
          StochasticRSICalculator.D := percentD ks d;
          StochasticRSICalculator.Crossover := crossoverTest ks d |}.
Proof.
  intros Hlen Eks. unfold StochasticRSICalculator.Calculate.
  pose proof (length_rsiTrajectory prices r) as Hr.
  pose proof (length_stochKTrajectory _ _ _ Eks) as [Hk Hn].
  rewrite (proj2 (Nat.ltb_ge _ _)) by lia.
  rewrite (proj2 (Nat.ltb_ge _ _)) by lia.
  rewrite Eks.
  rewrite (proj2 (Nat.ltb_ge _ _)) by lia.
  rewrite crossoverTest_nth by lia.
  rewrite (proj2 (Nat.leb_le (d + 1) _)) by lia.
  unfold at_.
  rewrite !(for_range_fold (fun s x => (s + x)%float) ks 0%float d) by lia.
  rewrite last_nth by (intros ->; simpl in Hn; lia).
  unfold percentD, sma, lastN.
  rewrite (firstn_all2 (n := d) (skipn (length ks - d) ks))
    by (rewrite length_skipn; lia).
  reflexivity.
Qed.

(** C3: whenever the Stochastic RSI returns, its crossover flag is true iff
    the series passes the length guard and, on its %K trajectory, the
    previous %K is below the previous %D, the current %K is above the current
    %D and the previous %K is below 30 (K and D of the result being that
    current %K and %D); IsOversoldWithCrossover and IsOverboughtWithCrossover
    both use this one flag, with K < 30 and K > 70 respectively. *)
Theorem stochastic_crossover_shared : forall prices r k d result,
  StochasticRSICalculator.Calculate prices r k d = Some result ->
  StochasticRSICalculator.Crossover result =
    (r + k + d <=? length prices)%nat
    && crossoverTest (percentKValues prices r k) d
  /\ (r + k + d <= length prices ->
      StochasticRSICalculator.K result = List.last (percentKValues prices r k) 0%float
      /\ StochasticRSICalculator.D result = percentD (percentKValues prices r k) d)
  /\ StochasticRSICalculator.IsOversoldWithCrossover prices r k d =
     Some ((StochasticRSICalculator.K result <? 30)%float
           && StochasticRSICalculator.Crossover result)
  /\ StochasticRSICalculator.IsOverboughtWithCrossover prices r k d =
     Some ((StochasticRSICalculator.K result >? 70)%float
           && StochasticRSICalculator.Crossover result).
Proof.
  intros prices r k d res Hres.
  assert (Hlong : r + k + d <= length prices ->
            res = {| StochasticRSICalculator.K :=
                       List.last (percentKValues prices r k) 0%float;
                     StochasticRSICalculator.D :=
                       percentD (percentKValues prices r k) d;
                     StochasticRSICalculator.Crossover :=
                       crossoverTest (percentKValues prices r k) d |}).
  { intros Hlen. unfold percentKValues.
    destruct (StochasticRSICalculator.stochKTrajectory
                (StochasticRSICalculator.rsiTrajectory prices r) k) as [ks|] eqn:Eks.
    - rewrite (stochastic_Calculate_long _ _ _ _ _ Hlen Eks) in Hres. congruence.
    - exfalso. revert Hres. unfold StochasticRSICalculator.Calculate.
      pose proof (length_rsiTrajectory prices r) as Hr.
      destruct k; [|discriminate].
      rewrite (proj2 (Nat.ltb_ge _ _)) by lia.
      rewrite (proj2 (Nat.ltb_ge _ _)) by lia.
      rewrite Eks. discriminate. }
  split; [|split].
  - destruct (r + k + d <=? length prices)%nat eqn:E.
    + apply Nat.leb_le in E. rewrite (Hlong E). reflexivity.
    + apply Nat.leb_gt in E. revert Hres. unfold StochasticRSICalculator.Calculate.
      rewrite (proj2 (Nat.ltb_lt _ _)) by lia. intros [= <-]. reflexivity.
  - intros Hlen. rewrite (Hlong Hlen). split; reflexivity.
  - unfold StochasticRSICalculator.IsOversoldWithCrossover,
      StochasticRSICalculator.IsOverboughtWithCrossover.
    rewrite Hres. split; reflexivity.
Qed.

Lemma stochastic_crossover_shared_witness :
  StochasticRSICalculator.Crossover Examples.swingResult =
    (5 + 3 + 3 <=? length Examples.swingPrices)%nat
    && crossoverTest (percentKValues Examples.swingPrices 5 3) 3
  /\ (5 + 3 + 3 <= length Examples.swingPrices ->
      StochasticRSICalculator.K Examples.swingResult =
        List.last (percentKValues Examples.swingPrices 5 3) 0%float
      /\ StochasticRSICalculator.D Examples.swingResult =
           percentD (percentKValues Examples.swingPrices 5 3) 3)
  /\ StochasticRSICalculator.IsOversoldWithCrossover Examples.swingPrices 5 3 3 =
     Some ((StochasticRSICalculator.K Examples.swingResult <? 30)%float
           && StochasticRSICalculator.Crossover Examples.swingResult)
  /\ StochasticRSICalculator.IsOverboughtWithCrossover Examples.swingPrices 5 3 3 =
     Some ((StochasticRSICalculator.K Examples.swingResult >? 70)%float
           && StochasticRSICalculator.Crossover Examples.swingResult).
Proof.
  apply (stochastic_crossover_shared Examples.swingPrices 5 3 3 Examples.swingResult).
  vm_compute. reflexivity.
Defined.

(** ** The %K values *)

Lemma stochKAt_window (rsiValues : list float) (k i : nat) :
  1 <= k -> k - 1 <= i < length rsiValues ->
  StochasticRSICalculator.stochKAt rsiValues k i =
  let w := window rsiValues k i in
  if (windowHighest w =? windowLowest w)%float then 50%float
  else (((at_ rsiValues i - windowLowest w)
           / (windowHighest w - windowLowest w)) * 100)%float.
Proof.
  intros Hk Hi. unfold StochasticRSICalculator.stochKAt. cbv zeta.
  replace (i + 1 - (i + 1 - k)) with k by lia.
  rewrite (for_range_ext _
             (fun j st =>
                (fun '(highestRSI, lowestRSI) x =>
                   ((if (x >? highestRSI)%float then x else highestRSI),
                    (if (x <? lowestRSI)%float then x else lowestRSI)))
                  st (nth j rsiValues 0%float)))
    by (intros j [hi lo] _; reflexivity).
  rewrite (for_range_fold
             (fun '(highestRSI, lowestRSI) x =>
                ((if (x >? highestRSI)%float then x else highestRSI),
                 (if (x <? lowestRSI)%float then x else lowestRSI)))
             rsiValues 0%float k (i + 1 - k)) by lia.
  rewrite (fold_left_pair (fun hi x => if (x >? hi)%float then x else hi)
             (fun lo x => if (x <? lo)%float then x else lo)).
  assert (Hhd : at_ rsiValues (i + 1 - k) = hd 0%float (window rsiValues k i)).
  { unfold window, at_.
    rewrite <- (firstn_skipn (i + 1 - k) rsiValues) at 1.
    rewrite app_nth2 by (rewrite length_firstn; lia).
    rewrite length_firstn.
    replace (i + 1 - k - Nat.min (i + 1 - k) (length rsiValues)) with 0 by lia.
    destruct (skipn (i + 1 - k) rsiValues) as [|x l] eqn:E.
    - apply (f_equal (@length float)) in E.
      rewrite length_skipn in E. simpl in E. lia.
    - destruct k; [lia|]. reflexivity. }
  rewrite Hhd. reflexivity.
Qed.

(** The scan for the highest value: on values without NaN it ends on one of
    them, which none exceeds. *)
Lemma highest_fold (w : list float) : forall init,
  isNaN init = false -> noNaN w = true ->
  let hi := fold_left (fun hi x => if (x >? hi)%float then x else hi) w init in
  isNaN hi = false /\ (rank init <= rank hi)%Z
  /\ (forall x, In x w -> (rank x <= rank hi)%Z)
  /\ (hi = init \/ In hi w).
Proof.
  induction w as [|x w IH]; intros init Hinit Hw; cbn [fold_left].
  - repeat split; auto; try lia. intros x [].
  - cbn [noNaN forallb] in Hw. apply andb_prop in Hw. destruct Hw as [Hx Hw].
    apply negb_true_iff in Hx.
    destruct (x >? init)%float eqn:E; unfold gtb in E.
    + apply ltb_rank in E. destruct E as (_ & _ & E).
      destruct (IH x Hx Hw) as (H1 & H2 & H3 & H4). cbv zeta in *.
      repeat split; auto; try lia.
      * intros y [<-|Hy]; [lia|auto].
      * destruct H4 as [->|H4]; right; [left; reflexivity|right; assumption].
    + apply ltb_false_rank in E; auto.
      destruct (IH init Hinit Hw) as (H1 & H2 & H3 & H4). cbv zeta in *.
      repeat split; auto.
      * intros y [<-|Hy]; [lia|auto].
      * destruct H4 as [H4|H4]; [left; assumption|right; right; assumption].
Qed.

Lemma lowest_fold (w : list float) : forall init,
  isNaN init = false -> noNaN w = true ->
  let lo := fold_left (fun lo x => if (x <? lo)%float then x else lo) w init in
  isNaN lo = false /\ (rank lo <= rank init)%Z
  /\ (forall x, In x w -> (rank lo <= rank x)%Z)
  /\ (lo = init \/ In lo w).
Proof.
  induction w as [|x w IH]; intros init Hinit Hw; cbn [fold_left].
  - repeat split; auto; try lia. intros x [].
  - cbn [noNaN forallb] in Hw. apply andb_prop in Hw. destruct Hw as [Hx Hw].
    apply negb_true_iff in Hx.
    destruct (x <? init)%float eqn:E.
    + apply ltb_rank in E. destruct E as (_ & _ & E).
      destruct (IH x Hx Hw) as (H1 & H2 & H3 & H4). cbv zeta in *.
      repeat split; auto; try lia.
      * intros y [<-|Hy]; [lia|auto].
      * destruct H4 as [->|H4]; right; [left; reflexivity|right; assumption].
    + apply ltb_false_rank in E; auto.
      destruct (IH init Hinit Hw) as (H1 & H2 & H3 & H4). cbv zeta in *.
      repeat split; auto.
      * intros y [<-|Hy]; [lia|auto].
      * destruct H4 as [H4|H4]; [left; assumption|right; right; assumption].
Qed.

Lemma window_extrema (w : list float) :
  w <> [] -> noNaN w = true ->
  isNaN (windowHighest w) = false /\ isNaN (windowLowest w) = false
  /\ In (windowHighest w) w /\ In (windowLowest w) w
  /\ (forall x, In x w ->
        (windowLowest w <=? x)%float = true
        /\ (x <=? windowHighest w)%float = true).
Proof.
  intros Hne Hw. destruct w as [|a w]; [congruence|].
  assert (Ha : isNaN a = false).
  { cbn [noNaN forallb] in Hw. apply andb_prop in Hw. now apply negb_true_iff. }
  unfold windowHighest, windowLowest. cbn [hd].
  destruct (highest_fold (a :: w) a Ha Hw) as (H1 & H2 & H3 & H4).
  destruct (lowest_fold (a :: w) a Ha Hw) as (L1 & L2 & L3 & L4).
  cbv zeta in *.
  assert (Hx : forall x, In x (a :: w) -> isNaN x = false).
  { intros x Hin. unfold noNaN in Hw. rewrite forallb_forall in Hw.
    apply negb_true_iff. now apply Hw. }
  repeat split; auto.
  - destruct H4 as [->|H4]; [left; reflexivity|assumption].
  - destruct L4 as [->|L4]; [left; reflexivity|assumption].
  - apply leb_rank. auto.
  - apply leb_rank. auto.
Qed.

(** The scan for the highest value, whatever the values: a NaN start stays,
    and otherwise the scan ends on a number that no number of the list
    exceeds. *)
Lemma highest_fold_any (w : list float) : forall init,
  let hi := fold_left (fun hi x => if (x >? hi)%float then x else hi) w init in
  (isNaN init = true -> isNaN hi = true)
  /\ (isNaN init = false ->
      isNaN hi = false /\ (rank init <= rank hi)%Z
      /\ forall x, In x w -> isNaN x = false -> (rank x <= rank hi)%Z).
Proof.
  induction w as [|x w IH]; intros init; cbn [fold_left].
  - split; [auto|]. intros H. repeat split; auto; try lia. intros x [].
  - destruct (IH init) as [I1 I2]. destruct (IH x) as [X1 X2]. cbv zeta in *.
    destruct (x >? init)%float eqn:E; unfold gtb in E.
    + apply ltb_rank in E. destruct E as (Hi & Hx & E).
      split; [congruence|]. intros _.
      destruct (X2 Hx) as (H1 & H2 & H3).
      split; [exact H1|]. split; [lia|].
      intros y [<-|Hy] Ny; [lia|auto].
    + split; [exact I1|]. intros Hi.
      destruct (I2 Hi) as (H1 & H2 & H3).
      split; [exact H1|]. split; [exact H2|].
      intros y [<-|Hy] Ny; [|auto].
      apply ltb_false_rank in E; auto. lia.
Qed.

Lemma lowest_fold_any (w : list float) : forall init,
  let lo := fold_left (fun lo x => if (x <? lo)%float then x else lo) w init in
  (isNaN init = true -> isNaN lo = true)
  /\ (isNaN init = false ->
      isNaN lo = false /\ (rank lo <= rank init)%Z
      /\ forall x, In x w -> isNaN x = false -> (rank lo <= rank x)%Z).
Proof.
  induction w as [|x w IH]; intros init; cbn [fold_left].
  - split; [auto|]. intros H. repeat split; auto; try lia. intros x [].
  - destruct (IH init) as [I1 I2]. destruct (IH x) as [X1 X2]. cbv zeta in *.
    destruct (x <? init)%float eqn:E.
    + apply ltb_rank in E. destruct E as (Hx & Hi & E).
      split; [congruence|]. intros _.
      destruct (X2 Hx) as (H1 & H2 & H3).
      split; [exact H1|]. split; [lia|].
      intros y [<-|Hy] Ny; [lia|auto].
    + split; [exact I1|]. intros Hi.
      destruct (I2 Hi) as (H1 & H2 & H3).
      split; [exact H1|]. split; [exact H2|].
      intros y [<-|Hy] Ny; [|auto].
      apply ltb_false_rank in E; auto. lia.
Qed.

(** The %K formula on a window: a NaN, or a number between 0 and 100. *)
Lemma window_percentK (w : list float) (cur : float) :
  In cur w ->
  percentOrNaN
    (if (windowHighest w =? windowLowest w)%float then 50%float
     else (((cur - windowLowest w) / (windowHighest w - windowLowest w)) * 100)%float)
  = true.
Proof.
  intros Hcur. destruct w as [|a w]; [destruct Hcur|].
  unfold windowHighest, windowLowest. cbn [hd].
  destruct (highest_fold_any (a :: w) a) as [H1 H2].
  destruct (lowest_fold_any (a :: w) a) as [L1 L2]. cbv zeta in *.
  set (hi := fold_left _ (a :: w) a) in *.
  set (lo := fold_left (fun lo x => if (x <? lo)%float then x else lo) (a :: w) a) in *.
  destruct (hi =? lo)%float eqn:E; [reflexivity|].
  destruct (isNaN a) eqn:Ha.
  - unfold percentOrNaN. rewrite NaN_percentK by (left; auto). reflexivity.
  - destruct (H2 eq_refl) as (Nh & _ & Hh). destruct (L2 eq_refl) as (Nl & _ & Hl).
    destruct (isNaN cur) eqn:Hc.
    + unfold percentOrNaN. rewrite NaN_percentK by (right; auto). reflexivity.
    + specialize (Hh cur Hcur Hc). specialize (Hl cur Hcur Hc).
      apply eqb_false_rank in E; auto.
      apply percentK_range; auto. lia.
Qed.

(** Every %K value produced is [stochKAt] at an index of the RSI trajectory. *)
Lemma stochKTrajectory_nth (rsiValues : list float) (k : nat)
    (ks : list float) (n : nat) :
  StochasticRSICalculator.stochKTrajectory rsiValues k = Some ks ->
  n < length ks ->
  1 <= k /\ k - 1 + n < length rsiValues
  /\ at_ ks n = StochasticRSICalculator.stochKAt rsiValues k (k - 1 + n).
Proof.
  destruct k as [|k']; cbn [StochasticRSICalculator.stochKTrajectory];
    [discriminate|].
  intros [= <-]. rewrite for_range_snoc_map, app_nil_l, length_map, length_seq.
  intros Hn. replace (S k' - 1) with k' by lia. split; [lia|]. split; [lia|].
  unfold at_.
  rewrite (nth_indep _ 0%float (StochasticRSICalculator.stochKAt rsiValues (S k') 0))
    by (rewrite length_map, length_seq; lia).
  rewrite map_nth, seq_nth by lia. reflexivity.
Qed.

(** C6, as amended: every %K value produced is a NaN or lies within
    [0, 100]; it is exactly 50 when the highest RSI of its window equals the
    lowest, and is otherwise the binary64 value of
    ((RSI - lowest) / (highest - lowest)) * 100.  When no RSI of the window
    is a NaN, the highest and the lowest are RSI values of the window that
    bound all of them (the current one included), and they differ strictly
    when they are not equal. *)
Theorem stochK_value_by_window :
  forall (rsiValues : list float) (k : nat) (ks : list float) (n : nat),
  StochasticRSICalculator.stochKTrajectory rsiValues k = Some ks ->
  n < length ks ->
  let i := k - 1 + n in
  let w := window rsiValues k i in
  let highestRSI := windowHighest w in
  let lowestRSI := windowLowest w in
  let currentRSI := at_ rsiValues i in
  ((highestRSI =? lowestRSI)%float = true -> at_ ks n = 50%float)
  /\ ((highestRSI =? lowestRSI)%float = false ->
      at_ ks n =
      (((currentRSI - lowestRSI) / (highestRSI - lowestRSI)) * 100)%float)
  /\ isNaN (at_ ks n)
     || ((0 <=? at_ ks n)%float && (at_ ks n <=? 100)%float) = true
  /\ (noNaN w = true ->
      (lowestRSI <=? currentRSI)%float = true
      /\ (currentRSI <=? highestRSI)%float = true
      /\ In highestRSI w /\ In lowestRSI w
      /\ (forall x, In x w ->
            (lowestRSI <=? x)%float = true /\ (x <=? highestRSI)%float = true)
      /\ ((highestRSI =? lowestRSI)%float = false ->
            (lowestRSI <? highestRSI)%float = true)).
Proof.
  intros rsiValues k ks n Hks Hn i w highestRSI lowestRSI currentRSI.
  destruct (stochKTrajectory_nth _ _ _ _ Hks Hn) as (Hk & Hi & Hat).
  fold i in Hi, Hat.
  pose proof (stochKAt_window rsiValues k i Hk ltac:(lia)) as HK.
  cbv zeta in HK. fold w highestRSI lowestRSI currentRSI in HK.
  rewrite <- Hat in HK.
  assert (Hlenw : length w = k).
  { unfold w, window. rewrite length_firstn, length_skipn. lia. }
  assert (Hne : w <> []) by (intros E; rewrite E in Hlenw; simpl in Hlenw; lia).
  assert (Hcur : In currentRSI w).
  { unfold currentRSI, w, window, at_.
    replace i with ((i + 1 - k) + (k - 1)) at 1 by lia.
    rewrite <- nth_skipn.
    assert (E : nth (k - 1) (firstn k (skipn (i + 1 - k) rsiValues)) 0%float
                = nth (k - 1) (skipn (i + 1 - k) rsiValues) 0%float).
    { rewrite nth_firstn. rewrite (proj2 (Nat.ltb_lt (k - 1) k)) by lia.
      reflexivity. }
    rewrite <- E. apply nth_In. fold (window rsiValues k i). fold w. lia. }
  split; [intros E; now rewrite E in HK|].
  split; [intros E; now rewrite E in HK|].
  split.
  { rewrite HK. apply (window_percentK w currentRSI Hcur). }
  intros Hw.
  destruct (window_extrema w Hne Hw) as (Nh & Nl & Ih & Il & Hall).
  fold highestRSI lowestRSI in Nh, Nl, Ih, Il, Hall.
  destruct (Hall _ Hcur) as [Hlc Hch].
  split; [exact Hlc|]. split; [exact Hch|]. split; [exact Ih|].
  split; [exact Il|]. split; [exact Hall|].
  intros E. apply eqb_false_rank in E; auto.
  destruct (Hall _ Ih) as [Hlh _]. apply leb_rank in Hlh.
  apply ltb_rank. repeat split; auto. lia.
Qed.

Lemma stochK_value_by_window_witness :
  let i := 3 - 1 + 0 in
  let w := window Examples.swingRSI 3 i in
  let highestRSI := windowHighest w in
  let lowestRSI := windowLowest w in
  let currentRSI := at_ Examples.swingRSI i in
  ((highestRSI =? lowestRSI)%float = true -> at_ Examples.swingK 0 = 50%float)
  /\ ((highestRSI =? lowestRSI)%float = false ->
      at_ Examples.swingK 0 =
      (((currentRSI - lowestRSI) / (highestRSI - lowestRSI)) * 100)%float)
  /\ isNaN (at_ Examples.swingK 0)
     || ((0 <=? at_ Examples.swingK 0)%float
         && (at_ Examples.swingK 0 <=? 100)%float) = true
  /\ (noNaN w = true ->
      (lowestRSI <=? currentRSI)%float = true
      /\ (currentRSI <=? highestRSI)%float = true
      /\ In highestRSI w /\ In lowestRSI w
      /\ (forall x, In x w ->
            (lowestRSI <=? x)%float = true /\ (x <=? highestRSI)%float = true)
      /\ ((highestRSI =? lowestRSI)%float = false ->
            (lowestRSI <? highestRSI)%float = true)).
Proof.
  apply (stochK_value_by_window Examples.swingRSI 3 Examples.swingK 0).
  - vm_compute. reflexivity.
  - vm_compute. lia.
Defined.

(** C6 as stated fails: on finite, positive prices whose gains and losses
    overflow when summed, every RSI is a NaN and so is every %K value
    produced, none of which lies within [0, 100]. *)
Lemma stochK_values_NaN :
  forallb (fun p => (0 <? p)%float && (p <? infinity)%float)
    Examples.overflowingPrices = true
  /\ StochasticRSICalculator.stochKTrajectory
       (StochasticRSICalculator.rsiTrajectory Examples.overflowingPrices 5) 3
     = Some (percentKValues Examples.overflowingPrices 5 3)
  /\ length (percentKValues Examples.overflowingPrices 5 3) = 5
  /\ existsb (fun K => (0 <=? K)%float && (K <=? 100)%float)
       (percentKValues Examples.overflowingPrices 5 3) = false
  /\ forallb isNaN (percentKValues Examples.overflowingPrices 5 3) = true.
Proof. vm_compute. repeat split; reflexivity. Qed.

(** * MACD: the acceptable-duration checks *)

Lemma bearishScan_run prices f s g j c :
  c <= 6 ->
  MACDCalculator.bearishScan prices f s g j c =
  Nat.min 6 (c + consecutive (atOrBelowSignal f s g)
                   (List.filter (fun p => (s <=? length p)%nat)
                      (map (fun j => firstn (j + 1) prices) (rev (seq 1 j))))).
Proof.
  revert c. induction j as [|j IH]; intros c Hc.
  - cbn [seq rev map List.filter consecutive MACDCalculator.bearishScan].
    destruct (c <? 6)%nat; lia.
  - rewrite rev_seq_S. cbn [map List.filter MACDCalculator.bearishScan].
    destruct (c <? 6)%nat eqn:Ec.
    + apply Nat.ltb_lt in Ec. rewrite slice_0.
      replace (1 + j + 1) with (S j + 1) by lia.
      destruct (s <=? length (firstn (S j + 1) prices))%nat.
      * cbn [consecutive]. unfold atOrBelowSignal at 1. cbv zeta.
        destruct (MACDCalculator.MACD _ <=? MACDCalculator.Signal _)%float.
        -- rewrite IH by lia. f_equal. lia.
        -- lia.
      * apply IH. lia.
    + apply Nat.ltb_ge in Ec. lia.
Qed.

Lemma bullishScan_run prices f s g j c :
  c <= 6 ->
  MACDCalculator.bullishScan prices f s g j c =
  Nat.min 6 (c + consecutive (atOrAboveSignal f s g)
                   (List.filter (fun p => (s <=? length p)%nat)
                      (map (fun j => firstn (j + 1) prices) (rev (seq 1 j))))).
Proof.
  revert c. induction j as [|j IH]; intros c Hc.
  - cbn [seq rev map List.filter consecutive MACDCalculator.bullishScan].
    destruct (c <? 6)%nat; lia.
  - rewrite rev_seq_S. cbn [map List.filter MACDCalculator.bullishScan].
    destruct (c <? 6)%nat eqn:Ec.
    + apply Nat.ltb_lt in Ec. rewrite slice_0.
      replace (1 + j + 1) with (S j + 1) by lia.
      destruct (s <=? length (firstn (S j + 1) prices))%nat.
      * cbn [consecutive]. unfold atOrAboveSignal at 1. cbv zeta.
        destruct (MACDCalculator.MACD _ >=? MACDCalculator.Signal _)%float.
        -- rewrite IH by lia. f_equal. lia.
        -- lia.
      * apply IH. lia.
    + apply Nat.ltb_ge in Ec. lia.
Qed.

(** A run capped at [c] does not see a filter that keeps the first [c]
    elements. *)
Lemma consecutive_filter_cap {A} (P Q : A -> bool) (l : list A) : forall c,
  Forall (fun x => Q x = true) (firstn c l) ->
  Nat.min c (consecutive P (List.filter Q l)) = Nat.min c (consecutive P l).
Proof.
  induction l as [|x l IH]; intros c Hall; [reflexivity|].
  destruct c as [|c]; [reflexivity|].
  cbn [firstn] in Hall. inversion Hall as [|? ? Hx Hrest]; subst.
  cbn [List.filter]. rewrite Hx. cbn [consecutive].
  destruct (P x); [|reflexivity].
  rewrite <- !Nat.succ_min_distr. f_equal. apply IH. exact Hrest.
Qed.

Lemma firstn_rev_seq_bounds (n : nat) : forall c j,
  In j (firstn c (rev (seq 1 n))) -> n + 1 <= j + c /\ j <= n.
Proof.
  induction n as [|n IH]; intros c j Hin.
  - destruct c; simpl in Hin; contradiction.
  - rewrite rev_seq_S in Hin. destruct c as [|c]; [simpl in Hin; contradiction|].
    cbn [firstn] in Hin. destruct Hin as [<-|Hin]; [lia|].
    apply IH in Hin. lia.
Qed.

(** With five bars more than the slow period, the six prefixes the scan can
    reach are all long enough for MACD. *)
Lemma prefixesBackward_long (prices : list float) (s : nat) :
  s + 5 <= length prices ->
  Forall (fun p => (s <=? length p)%nat = true)
    (firstn 6 (prefixesBackward prices)).
Proof.
  intros Hlen. unfold prefixesBackward. rewrite firstn_map.
  apply List.Forall_forall. intros p Hp. apply in_map_iff in Hp.
  destruct Hp as (j & <- & Hj). apply firstn_rev_seq_bounds in Hj.
  apply Nat.leb_le. rewrite length_firstn. lia.
Qed.

(** C4: IsBearMarketAcceptable is true at once when the MACD of the whole
    series is above its signal; otherwise it is true iff the bars counted
    are at most 5, the count being (capped at 6) the run of consecutive
    prefixes, scanned backward from the last bar among those long enough for
    MACD, whose MACD is at or below the signal: the run ends at the first
    prefix that is not.  IsBullMarketAcceptable mirrors it.  On a series
    with five bars more than the slow period no prefix within reach is too
    short, and the count is the run over the prefixes themselves. *)
Theorem market_acceptable_is_capped_run : forall prices f s g,
  MACDCalculator.IsBearMarketAcceptable prices f s g =
    (if MACDCalculator.IsBullMarket prices f s g then true
     else (bearishBars prices f s g <=? 5)%nat)
  /\ MACDCalculator.IsBullMarketAcceptable prices f s g =
    (if (MACDCalculator.MACD (MACDCalculator.Calculate prices f s g)
           <? MACDCalculator.Signal (MACDCalculator.Calculate prices f s g))%float
     then true
     else (bullishBars prices f s g <=? 5)%nat)
  /\ (s + 5 <= length prices ->
      bearishBars prices f s g =
        Nat.min 6 (consecutive (atOrBelowSignal f s g) (prefixesBackward prices))
      /\ bullishBars prices f s g =
        Nat.min 6 (consecutive (atOrAboveSignal f s g) (prefixesBackward prices))).
Proof.
  intros. split; [|split].
  - unfold MACDCalculator.IsBearMarketAcceptable, MACDCalculator.IsBullMarket,
      bearishBars, prefixesBackward. cbv zeta.
    rewrite bearishScan_run by lia. reflexivity.
  - unfold MACDCalculator.IsBullMarketAcceptable, bullishBars, prefixesBackward.
    cbv zeta. rewrite bullishScan_run by lia. reflexivity.
  - intros Hlen. unfold bearishBars, bullishBars.
    split; apply consecutive_filter_cap; now apply prefixesBackward_long.
Qed.

Lemma market_acceptable_is_capped_run_witness :
  MACDCalculator.IsBearMarketAcceptable Examples.fallingPrices 2 3 2 = true
  /\ MACDCalculator.IsBullMarket Examples.fallingPrices 2 3 2 = true
  /\ MACDCalculator.IsBullMarketAcceptable Examples.fallingPrices 2 3 2 = false
  /\ bullishBars Examples.fallingPrices 2 3 2 = 6
  /\ bullishBars Examples.fallingPrices 2 3 2 =
     Nat.min 6 (consecutive (atOrAboveSignal 2 3 2)
                  (prefixesBackward Examples.fallingPrices)).
Proof.
  destruct (market_acceptable_is_capped_run Examples.fallingPrices 2 3 2)
    as (Hbear & Hbull & Hlong).
  destruct Hlong as [_ Hrun]; [vm_compute; lia|].
  rewrite Hbear, Hbull, <- Hrun.
  vm_compute. repeat split; reflexivity.
Defined.

(** * Candlestick patterns *)

(** C8: DetectAllPatterns tries Long2CandlestickReversal,
    Short2CandlestickReversal, LongPinbarReversal, ShortPinbarReversal in
    that order and returns the first that matches; when a 2-candlestick
    predicate and a pinbar predicate both hold it returns the 2-candlestick
    variant, and when no predicate holds it returns NoPattern. *)
Theorem DetectAllPatterns_priority : forall candles ema20 ema50 ema100 ema200,
  CandlestickPatternDetector.DetectAllPatterns candles ema20 ema50 ema100 ema200
    = firstMatch candles ema20 ema50 ema100 ema200
  /\ ((CandlestickPatternDetector.DetectLong2CandlestickReversal
         candles ema20 ema50 ema100 ema200
       || CandlestickPatternDetector.DetectShort2CandlestickReversal
            candles ema20 ema50 ema100 ema200)
      && (CandlestickPatternDetector.DetectLongPinbarReversal
            candles ema20 ema50 ema100 ema200
          || CandlestickPatternDetector.DetectShortPinbarReversal
               candles ema20 ema50 ema100 ema200) = true ->
      CandlestickPatternDetector.DetectAllPatterns
        candles ema20 ema50 ema100 ema200 =
      if CandlestickPatternDetector.DetectLong2CandlestickReversal
           candles ema20 ema50 ema100 ema200
      then CandlestickPatternDetector.Long2CandlestickReversal
      else CandlestickPatternDetector.Short2CandlestickReversal)
  /\ (CandlestickPatternDetector.DetectLong2CandlestickReversal
        candles ema20 ema50 ema100 ema200 = false ->
      CandlestickPatternDetector.DetectShort2CandlestickReversal
        candles ema20 ema50 ema100 ema200 = false ->
      CandlestickPatternDetector.DetectLongPinbarReversal
        candles ema20 ema50 ema100 ema200 = false ->
      CandlestickPatternDetector.DetectShortPinbarReversal
        candles ema20 ema50 ema100 ema200 = false ->
      CandlestickPatternDetector.DetectAllPatterns
        candles ema20 ema50 ema100 ema200
      = CandlestickPatternDetector.NoPattern).
Proof.
  intros candles ema20 ema50 ema100 ema200.
  assert (H : CandlestickPatternDetector.DetectAllPatterns
                candles ema20 ema50 ema100 ema200
              = firstMatch candles ema20 ema50 ema100 ema200).
  { unfold CandlestickPatternDetector.DetectAllPatterns, firstMatch,
      CandlestickPatternDetector.DetectLong2CandlestickReversal,
      CandlestickPatternDetector.DetectShort2CandlestickReversal,
      CandlestickPatternDetector.DetectLongPinbarReversal,
      CandlestickPatternDetector.DetectShortPinbarReversal.
    destruct (length candles <? 3)%nat; reflexivity. }
  rewrite H. unfold firstMatch. repeat split.
  - destruct (CandlestickPatternDetector.DetectLong2CandlestickReversal _ _ _ _ _),
      (CandlestickPatternDetector.DetectShort2CandlestickReversal _ _ _ _ _);
      simpl; congruence.
  - intros -> -> -> ->. reflexivity.
Qed.

Lemma DetectAllPatterns_priority_witness :
  CandlestickPatternDetector.DetectLong2CandlestickReversal
    Examples.reversalTail 100 100 100 100 = true
  /\ CandlestickPatternDetector.DetectLongPinbarReversal
       Examples.reversalTail 100 100 100 100 = true
  /\ CandlestickPatternDetector.DetectAllPatterns
       Examples.reversalTail 100 100 100 100
     = CandlestickPatternDetector.Long2CandlestickReversal.
Proof.
  destruct (DetectAllPatterns_priority Examples.reversalTail 100 100 100 100)
    as (_ & Hboth & _).
  rewrite Hboth by (vm_compute; reflexivity).
  vm_compute. repeat split; reflexivity.
Defined.

(** C10, as amended: for every candle whose High equals its Low and whose
    Open and Close lie between its Low and its High (so that body, wicks and
    range all vanish), isBullishPinbar and isBearishPinbar both return
    false: each ratio is 0/0, a NaN, and every comparison with it fails. *)
Theorem pinbar_zero_range : forall candle : models.Candle,
  (models.High candle =? models.Low candle)%float = true ->
  (models.Low candle <=? models.Open candle)%float = true ->
  (models.Open candle <=? models.High candle)%float = true ->
  (models.Low candle <=? models.Close candle)%float = true ->
  (models.Close candle <=? models.High candle)%float = true ->
  CandlestickPatternDetector.isBullishPinbar candle = false
  /\ CandlestickPatternDetector.isBearishPinbar candle = false.
Proof.
  intros [dt o h l c v]; cbn [models.Open models.High models.Low models.Close].
  intros Hhl Hlo Hoh Hlc Hch.
  apply eqb_rank in Hhl. apply leb_rank in Hlo, Hoh, Hlc, Hch.
  destruct Hhl as (Nh & Nl & Ehl), Hlo as (_ & No & Hlo), Hoh as (_ & _ & Hoh),
    Hlc as (_ & Nc & Hlc), Hch as (_ & _ & Hch).
  assert (Eo : rank o = rank l) by lia.
  assert (Ec : rank c = rank l) by lia.
  assert (Hrange : zeroOrNaN (h - l) = true) by (apply sub_same_rank; auto).
  assert (Hbody : zeroOrNaN (CandlestickPatternDetector.abs (c - o)) = true).
  { assert (Hd : zeroOrNaN (c - o) = true) by (apply sub_same_rank; auto; lia).
    unfold CandlestickPatternDetector.abs. now rewrite zeroOrNaN_ltb_zero. }
  unfold CandlestickPatternDetector.isBullishPinbar,
    CandlestickPatternDetector.isBearishPinbar;
    cbn [models.Open models.High models.Low models.Close].
  rewrite NaN_gtb by (now apply div_zeroOrNaN).
  split.
  - apply NaN_geb. apply div_zeroOrNaN; [|assumption].
    unfold CandlestickPatternDetector.min.
    destruct (o <? c)%float; apply sub_same_rank; auto.
  - apply NaN_geb. apply div_zeroOrNaN; [|assumption].
    unfold CandlestickPatternDetector.max.
    destruct (o >? c)%float; apply sub_same_rank; auto; lia.
Qed.

Lemma pinbar_zero_range_witness :
  CandlestickPatternDetector.isBullishPinbar (Examples.candle 3 3 3 3) = false
  /\ CandlestickPatternDetector.isBearishPinbar (Examples.candle 3 3 3 3) = false.
Proof.
  apply (pinbar_zero_range (Examples.candle 3 3 3 3)); reflexivity.
Defined.

(** C10 as stated fails: a candle with High = Low whose open and close lie
    above that level has body 0 and range 0 (ratio NaN, not above 0.3) and a
    lower wick of 2 over a range of 0 (ratio +Inf, at least 0.6), so
    isBullishPinbar returns true; with open and close below, isBearishPinbar
    returns true. *)
Lemma pinbar_zero_range_off_level :
  (models.High Examples.flatAbove =? models.Low Examples.flatAbove)%float = true
  /\ CandlestickPatternDetector.isBullishPinbar Examples.flatAbove = true
  /\ (models.High Examples.flatBelow =? models.Low Examples.flatBelow)%float = true
  /\ CandlestickPatternDetector.isBearishPinbar Examples.flatBelow = true.
Proof. vm_compute. repeat split; reflexivity. Qed.

(** * Scenario validation *)

(** No validation panics: the Stochastic RSI is called with a %K period of 3. *)
Lemma validateSetup_returns symbol candles scenario :
  exists result, SAPANStrategy.validateSetup symbol candles scenario = Some result.
Proof.
  unfold SAPANStrategy.validateSetup.
  destruct (_ <? _)%nat; [eauto|].
  destruct (negb _); [eauto|].
  assert (H : exists b,
     match scenario with
     | SAPANStrategy.LongScenario =>
         SAPANStrategy.validateStochasticRSILong
           (SAPANStrategy.extractClosingPrices candles)
     | SAPANStrategy.ShortScenario =>
         SAPANStrategy.validateStochasticRSIShort
           (SAPANStrategy.extractClosingPrices candles)
     end = Some b).
  { unfold SAPANStrategy.validateStochasticRSILong,
      SAPANStrategy.validateStochasticRSIShort,
      StochasticRSICalculator.IsOversoldWithCrossover,
      StochasticRSICalculator.IsOverboughtWithCrossover.
    destruct (stochastic_Calculate_returns
                (SAPANStrategy.extractClosingPrices candles) 5 3 3)
      as [res ->]; [lia|].
    destruct scenario; eauto. }
  destruct H as [b ->].
  destruct (negb _); [eauto|].
  destruct (negb _); [eauto|].
  destruct (negb _); eauto.
Qed.

(** C2: for either scenario and every candle history with fewer than 200
    closing prices, validateSetup returns (it is a result, not an error) a
    result that is not valid, carries the insufficient-data message, and has
    every gate flag false and no pattern: no gate was evaluated. *)
Theorem validateSetup_insufficient_data : forall symbol candles scenario,
  length (SAPANStrategy.extractClosingPrices candles) < 200 ->
  SAPANStrategy.validateSetup symbol candles scenario =
  Some {| SAPANStrategy.IsValid := false;
          SAPANStrategy.EMATrendValid := false;
          SAPANStrategy.StochasticValid := false;
          SAPANStrategy.MACDValid := false;
          SAPANStrategy.PatternValid := false;
          SAPANStrategy.PatternType := CandlestickPatternDetector.NoPattern;
          SAPANStrategy.Symbol := symbol;
          SAPANStrategy.ValidationMessage := "Insufficient data for analysis" |}.
Proof.
  intros symbol candles scenario Hlen.
  unfold SAPANStrategy.validateSetup.
  apply Nat.ltb_lt in Hlen. rewrite Hlen. reflexivity.
Qed.

Lemma validateSetup_insufficient_data_witness :
  SAPANStrategy.validateSetup "AAPL" Examples.reversalTail
    SAPANStrategy.ShortScenario =
  Some {| SAPANStrategy.IsValid := false;
          SAPANStrategy.EMATrendValid := false;
          SAPANStrategy.StochasticValid := false;
          SAPANStrategy.MACDValid := false;
          SAPANStrategy.PatternValid := false;
          SAPANStrategy.PatternType := CandlestickPatternDetector.NoPattern;
          SAPANStrategy.Symbol := "AAPL";
          SAPANStrategy.ValidationMessage := "Insufficient data for analysis" |}.
Proof.
  apply (validateSetup_insufficient_data "AAPL" Examples.reversalTail
           SAPANStrategy.ShortScenario).
  simpl. lia.
Defined.

(** * The per-symbol processing step *)

(** C1: for every symbol processed once with a successful fetch, both
    validations return on the fetched candles and processStock returns.  The
    Short scenario is validated exactly when the Long verdict is not valid.
    The result's IsLongValid is the Long verdict and its IsShortValid is
    "Long not valid and Short valid", so the two flags are never both true.
    The symbol is added to the Long watch list exactly when Long is valid,
    and to the Short one exactly when Long is not valid and Short is valid:
    after the call the list concerned holds the symbol at the time read
    from the clock, its other entries and the whole other list are as they
    were, and when neither scenario is valid both lists are as they were. *)
Theorem processStock_long_short_exclusive :
  forall (FetchStockData : string -> Z -> models.CandleData * option string)
         (timeNow : nat -> Z) (stock : models.Stock) (w : StockProcessor.World)
         (candleData : models.CandleData),
  FetchStockData (models.Symbol stock) 200%Z = (candleData, None) ->
  exists longResult shortResult result w' newCalls,
    SAPANStrategy.ValidateLongSetup (models.Symbol stock)
      (models.Candles candleData) = Some longResult
    /\ SAPANStrategy.ValidateShortSetup (models.Symbol stock)
         (models.Candles candleData) = Some shortResult
    /\ StockProcessor.processStock FetchStockData timeNow stock w
       = Some (result, w')
    /\ StockProcessor.calls w' = (StockProcessor.calls w ++ newCalls)%list
    /\ (In (StockProcessor.CallValidateShortSetup (models.Symbol stock)) newCalls
        <-> SAPANStrategy.IsValid longResult = false)
    /\ (In (StockProcessor.CallAddToLongWatchList (models.Symbol stock)) newCalls
        <-> SAPANStrategy.IsValid longResult = true)
    /\ (In (StockProcessor.CallAddToShortWatchList (models.Symbol stock)) newCalls
        <-> SAPANStrategy.IsValid longResult = false
            /\ SAPANStrategy.IsValid shortResult = true)
    /\ StockProcessor.IsLongValid result = SAPANStrategy.IsValid longResult
    /\ StockProcessor.IsShortValid result
       = negb (SAPANStrategy.IsValid longResult)
         && SAPANStrategy.IsValid shortResult
    /\ StockProcessor.IsLongValid result && StockProcessor.IsShortValid result
       = false
    /\ let now := timeNow (StockProcessor.timeReads w) in
       let before := StockProcessor.watchListManager w in
       let after := StockProcessor.watchListManager w' in
       if SAPANStrategy.IsValid longResult then
         WatchListManager.GetLongWatchList after !! now
         = Some (models.Symbol stock)
         /\ (forall t, t <> now ->
               WatchListManager.GetLongWatchList after !! t
               = WatchListManager.GetLongWatchList before !! t)
         /\ WatchListManager.GetShortWatchList after
            = WatchListManager.GetShortWatchList before
       else if SAPANStrategy.IsValid shortResult then
         WatchListManager.GetShortWatchList after !! now
         = Some (models.Symbol stock)
         /\ (forall t, t <> now ->
               WatchListManager.GetShortWatchList after !! t
               = WatchListManager.GetShortWatchList before !! t)
         /\ WatchListManager.GetLongWatchList after
            = WatchListManager.GetLongWatchList before
       else after = before.
Proof.
  intros Fetch timeNow stock w candleData HF.
  destruct (validateSetup_returns (models.Symbol stock) (models.Candles candleData)
              SAPANStrategy.LongScenario) as [lr Hl].
  destruct (validateSetup_returns (models.Symbol stock) (models.Candles candleData)
              SAPANStrategy.ShortScenario) as [sr Hs].
  exists lr, sr. unfold StockProcessor.processStock. rewrite HF.
  unfold SAPANStrategy.ValidateLongSetup, SAPANStrategy.ValidateShortSetup.
  rewrite Hl, Hs.
  destruct (SAPANStrategy.IsValid lr) eqn:El; cbn [negb andb].
  - eexists _, _, _. split; [reflexivity|]. split; [reflexivity|].
    split; [reflexivity|].
    split; [cbn; rewrite <- !app_assoc; reflexivity|].
    split; [cbn; split; [intros [H|[H|[H|[]]]]; discriminate|discriminate]|].
    split; [cbn; split; [reflexivity|intros _; right; right; left; reflexivity]|].
    split; [cbn; split; [intros [H|[H|[H|[]]]]; discriminate
                        |intros [H _]; discriminate]|].
    split; [reflexivity|]. split; [reflexivity|]. split; [reflexivity|].
    cbn. split; [apply lookup_insert_eq|].
    split; [intros t Ht; apply lookup_insert_ne; congruence|reflexivity].
  - destruct (SAPANStrategy.IsValid sr) eqn:Es.
    + eexists _, _, _. split; [reflexivity|]. split; [reflexivity|].
      split; [reflexivity|].
      split; [cbn; rewrite <- !app_assoc; reflexivity|].
      split; [cbn; split; [reflexivity|intros _; right; right; left; reflexivity]|].
      split; [cbn; split; [intros [H|[H|[H|[H|[]]]]]; discriminate|discriminate]|].
      split; [cbn; split; [intros _; split; reflexivity
                          |intros _; right; right; right; left; reflexivity]|].
      split; [reflexivity|]. split; [reflexivity|]. split; [reflexivity|].
      cbn. split; [apply lookup_insert_eq|].
      split; [intros t Ht; apply lookup_insert_ne; congruence|reflexivity].
    + eexists _, _, _. split; [reflexivity|]. split; [reflexivity|].
      split; [reflexivity|].
      split; [cbn; rewrite <- !app_assoc; reflexivity|].
      split; [cbn; split; [reflexivity|intros _; right; right; left; reflexivity]|].
      split; [cbn; split; [intros [H|[H|[H|[]]]]; discriminate|discriminate]|].
      split; [cbn; split; [intros [H|[H|[H|[]]]]; discriminate
                          |intros [_ H]; discriminate]|].
      split; [reflexivity|]. split; [reflexivity|]. split; reflexivity.
Qed.

Lemma processStock_long_short_exclusive_witness :
  exists longResult shortResult result w' newCalls,
    SAPANStrategy.ValidateLongSetup "DOWN" Examples.downtrendCandles
    = Some longResult
    /\ SAPANStrategy.ValidateShortSetup "DOWN" Examples.downtrendCandles
       = Some shortResult
    /\ StockProcessor.processStock Examples.fetchHistory Examples.tick
         (Examples.noStock "DOWN") Examples.emptyWorld
       = Some (result, w')
    /\ StockProcessor.calls w'
       = (StockProcessor.calls Examples.emptyWorld ++ newCalls)%list
    /\ (In (StockProcessor.CallValidateShortSetup "DOWN") newCalls
        <-> SAPANStrategy.IsValid longResult = false)
    /\ (In (StockProcessor.CallAddToLongWatchList "DOWN") newCalls
        <-> SAPANStrategy.IsValid longResult = true)
    /\ (In (StockProcessor.CallAddToShortWatchList "DOWN") newCalls
        <-> SAPANStrategy.IsValid longResult = false
            /\ SAPANStrategy.IsValid shortResult = true)
    /\ StockProcessor.IsLongValid result = SAPANStrategy.IsValid longResult
    /\ StockProcessor.IsShortValid result
       = negb (SAPANStrategy.IsValid longResult)
         && SAPANStrategy.IsValid shortResult
    /\ StockProcessor.IsLongValid result && StockProcessor.IsShortValid result
       = false
    /\ let now :=
         Examples.tick (StockProcessor.timeReads Examples.emptyWorld) in
       let before := StockProcessor.watchListManager Examples.emptyWorld in
       let after := StockProcessor.watchListManager w' in
       if SAPANStrategy.IsValid longResult then
         WatchListManager.GetLongWatchList after !! now = Some "DOWN"%string
         /\ (forall t, t <> now ->
               WatchListManager.GetLongWatchList after !! t
               = WatchListManager.GetLongWatchList before !! t)
         /\ WatchListManager.GetShortWatchList after
            = WatchListManager.GetShortWatchList before
       else if SAPANStrategy.IsValid shortResult then
         WatchListManager.GetShortWatchList after !! now = Some "DOWN"%string
         /\ (forall t, t <> now ->
               WatchListManager.GetShortWatchList after !! t
               = WatchListManager.GetShortWatchList before !! t)
         /\ WatchListManager.GetLongWatchList after
            = WatchListManager.GetLongWatchList before
       else after = before.
Proof.
  apply (processStock_long_short_exclusive Examples.fetchHistory Examples.tick
           (Examples.noStock "DOWN") Examples.emptyWorld
           {| models.Candles := Examples.downtrendCandles |}).
  reflexivity.
Defined.



(** * End-to-end runs *)

(** On the rising history every gate of the Long scenario passes. *)
Lemma trendCandles_long :
  SAPANStrategy.extractClosingPrices Examples.trendCandles = Examples.trendCloses
  /\ SAPANStrategy.ValidateLongSetup "UP" Examples.trendCandles =
     Some {| SAPANStrategy.IsValid := true;
             SAPANStrategy.EMATrendValid := true;
             SAPANStrategy.StochasticValid := true;
             SAPANStrategy.MACDValid := true;
             SAPANStrategy.PatternValid := true;
             SAPANStrategy.PatternType :=
               CandlestickPatternDetector.Long2CandlestickReversal;
             SAPANStrategy.Symbol := "UP";
             SAPANStrategy.ValidationMessage :=
               "All SAPAN long strategy conditions met" |}.
Proof. split; vm_compute; reflexivity. Qed.

(** On the falling history the Long scenario fails at its first gate and
    every gate of the Short scenario passes. *)
Lemma downtrendCandles_short :
  SAPANStrategy.extractClosingPrices Examples.downtrendCandles = Examples.downtrendCloses
  /\ SAPANStrategy.ValidateLongSetup "DOWN" Examples.downtrendCandles =
     Some {| SAPANStrategy.IsValid := false;
             SAPANStrategy.EMATrendValid := false;
             SAPANStrategy.StochasticValid := false;
             SAPANStrategy.MACDValid := false;
             SAPANStrategy.PatternValid := false;
             SAPANStrategy.PatternType := CandlestickPatternDetector.NoPattern;
             SAPANStrategy.Symbol := "DOWN";
             SAPANStrategy.ValidationMessage :=
               "EMA trend not in uptrend order (20 > 50 > 100 > 200)" |}
  /\ SAPANStrategy.ValidateShortSetup "DOWN" Examples.downtrendCandles =
     Some {| SAPANStrategy.IsValid := true;
             SAPANStrategy.EMATrendValid := true;
             SAPANStrategy.StochasticValid := true;
             SAPANStrategy.MACDValid := true;
             SAPANStrategy.PatternValid := true;
             SAPANStrategy.PatternType :=
               CandlestickPatternDetector.Short2CandlestickReversal;
             SAPANStrategy.Symbol := "DOWN";
             SAPANStrategy.ValidationMessage :=
               "All SAPAN short strategy conditions met" |}.
Proof. repeat split; vm_compute; reflexivity. Qed.

(** The Long scenario is satisfiable end to end: on the rising history
    processStock validates Long, does not validate Short, reports a valid
    Long setup and adds the symbol to the Long watch list only. *)
Lemma processStock_long_entry :
  StockProcessor.processStock Examples.fetchHistory Examples.tick
    (Examples.noStock "UP") Examples.emptyWorld
  = Some ({| StockProcessor.Symbol := "UP";
             StockProcessor.Success := true;
             StockProcessor.Error := None;
             StockProcessor.IsValid := true;
             StockProcessor.IsLongValid := true;
             StockProcessor.IsShortValid := false;
             StockProcessor.Message := "All SAPAN long strategy conditions met";
             StockProcessor.Processed := true |},
          {| StockProcessor.watchListManager :=
               WatchListManager.AddToLongWatchList
                 WatchListManager.NewWatchListManager 0 "UP";
             StockProcessor.timeReads := 1;
             StockProcessor.calls :=
               [ StockProcessor.CallFetchStockData "UP" 200;
                 StockProcessor.CallValidateLongSetup "UP";
                 StockProcessor.CallAddToLongWatchList "UP" ] |}).
Proof.
  unfold StockProcessor.processStock.
  change (Examples.fetchHistory (models.Symbol (Examples.noStock "UP")) 200)
    with ({| models.Candles := Examples.trendCandles |}, @None string).
  cbv iota beta.
  change (models.Symbol (Examples.noStock "UP")) with "UP"%string.
  cbn [models.Candles].
  rewrite (proj2 trendCandles_long).
  reflexivity.
Qed.

(** The Short scenario is satisfiable end to end, with the crossover test it
    shares with Long: on the falling history processStock finds Long invalid,
    validates Short, reports a valid Short setup and adds the symbol to the
    Short watch list only. *)
Lemma processStock_short_entry :
  StockProcessor.processStock Examples.fetchHistory Examples.tick
    (Examples.noStock "DOWN") Examples.emptyWorld
  = Some ({| StockProcessor.Symbol := "DOWN";
             StockProcessor.Success := true;
             StockProcessor.Error := None;
             StockProcessor.IsValid := true;
             StockProcessor.IsLongValid := false;
             StockProcessor.IsShortValid := true;
             StockProcessor.Message := "All SAPAN short strategy conditions met";
             StockProcessor.Processed := true |},
          {| StockProcessor.watchListManager :=
               WatchListManager.AddToShortWatchList
                 WatchListManager.NewWatchListManager 0 "DOWN";
             StockProcessor.timeReads := 1;
             StockProcessor.calls :=
               [ StockProcessor.CallFetchStockData "DOWN" 200;
                 StockProcessor.CallValidateLongSetup "DOWN";
                 StockProcessor.CallValidateShortSetup "DOWN";
                 StockProcessor.CallAddToShortWatchList "DOWN" ] |}).
Proof.
  unfold StockProcessor.processStock.
  change (Examples.fetchHistory (models.Symbol (Examples.noStock "DOWN")) 200)
    with ({| models.Candles := Examples.downtrendCandles |}, @None string).
  cbv iota beta.
  change (models.Symbol (Examples.noStock "DOWN")) with "DOWN"%string.
  cbn [models.Candles].
  destruct downtrendCandles_short as (_ & -> & Hs).
  cbn [SAPANStrategy.IsValid negb]. rewrite Hs. reflexivity.
Qed.

(** * The gates of a scenario and the verdicts of a run *)

(** X1: the verdict of validateSetup is the conjunction of its gates, taken
    in order and each only when the ones before it passed: the history has
    at least 200 candles and the EMA order of the scenario holds, then the
    Stochastic RSI crossover of the scenario, then the MACD check of the
    scenario, then a candlestick pattern of the scenario's direction.  Each
    flag of the result is the flag before it and its own gate, IsValid is
    the last flag, and the pattern type is recorded only once the MACD gate
    has passed. *)
Theorem validateSetup_gates :
  forall symbol candles scenario result,
  SAPANStrategy.validateSetup symbol candles scenario = Some result ->
  let closes := map models.Close candles in
  SAPANStrategy.Symbol result = symbol
  /\ SAPANStrategy.EMATrendValid result
     = (200 <=? length candles)%nat && emaGate scenario closes
  /\ SAPANStrategy.StochasticValid result
     = SAPANStrategy.EMATrendValid result && stochasticGate scenario closes
  /\ SAPANStrategy.MACDValid result
     = SAPANStrategy.StochasticValid result && macdGate scenario closes
  /\ SAPANStrategy.PatternValid result
     = SAPANStrategy.MACDValid result && patternGate scenario candles
  /\ SAPANStrategy.IsValid result = SAPANStrategy.PatternValid result
  /\ SAPANStrategy.PatternType result
     = (if SAPANStrategy.MACDValid result then patternOf candles
        else CandlestickPatternDetector.NoPattern).
Proof.
  intros symbol candles scenario result. cbv zeta.
  unfold SAPANStrategy.validateSetup, SAPANStrategy.extractClosingPrices.
  rewrite length_map.
  destruct (length candles <? 200)%nat eqn:Elen.
  { apply Nat.ltb_lt in Elen. rewrite (proj2 (Nat.leb_gt _ _)) by lia.
    intros [= <-]. cbn. repeat split; reflexivity. }
  apply Nat.ltb_ge in Elen. rewrite (proj2 (Nat.leb_le _ _)) by lia.
  cbn [andb].
  unfold SAPANStrategy.validateEMATrend, SAPANStrategy.validateEMADowntrend,
    SAPANStrategy.validateStochasticRSILong,
    SAPANStrategy.validateStochasticRSIShort,
    SAPANStrategy.validateMACDLong, SAPANStrategy.validateMACDShort.
  fold (emaGate scenario (map models.Close candles)).
  cbn [SAPANStrategy.EMATrendValid SAPANStrategy.setEMATrendValid
       SAPANStrategy.setSymbol SAPANStrategy.zeroResult].
  destruct (emaGate scenario (map models.Close candles)) eqn:Eema; cbn [negb].
  2:{ intros [= <-]. cbn. repeat split; reflexivity. }
  unfold stochasticGate.
  destruct (match scenario with
            | SAPANStrategy.LongScenario => _
            | SAPANStrategy.ShortScenario => _
            end) as [st|]; [|discriminate].
  cbn [SAPANStrategy.StochasticValid SAPANStrategy.setStochasticValid].
  destruct st; cbn [negb].
  2:{ intros [= <-]. cbn. repeat split; reflexivity. }
  fold (macdGate scenario (map models.Close candles)).
  cbn [SAPANStrategy.MACDValid SAPANStrategy.setMACDValid].
  destruct (macdGate scenario (map models.Close candles)) eqn:Emacd; cbn [negb].
  2:{ intros [= <-]. cbn. repeat split; reflexivity. }
  unfold patternGate. fold (patternOf candles).
  cbn [SAPANStrategy.PatternType SAPANStrategy.setPatternType
       SAPANStrategy.PatternValid SAPANStrategy.setPatternValid].
  destruct scenario, (patternOf candles); cbn; intros [= <-]; cbn;
    repeat split; reflexivity.
Qed.

Lemma validateSetup_gates_witness :
  let closes := map models.Close Examples.trendCandles in
  SAPANStrategy.Symbol Examples.trendVerdict = "UP"%string
  /\ SAPANStrategy.EMATrendValid Examples.trendVerdict
     = (200 <=? length Examples.trendCandles)%nat
       && emaGate SAPANStrategy.LongScenario closes
  /\ SAPANStrategy.StochasticValid Examples.trendVerdict
     = SAPANStrategy.EMATrendValid Examples.trendVerdict
       && stochasticGate SAPANStrategy.LongScenario closes
  /\ SAPANStrategy.MACDValid Examples.trendVerdict
     = SAPANStrategy.StochasticValid Examples.trendVerdict
       && macdGate SAPANStrategy.LongScenario closes
  /\ SAPANStrategy.PatternValid Examples.trendVerdict
     = SAPANStrategy.MACDValid Examples.trendVerdict
       && patternGate SAPANStrategy.LongScenario Examples.trendCandles
  /\ SAPANStrategy.IsValid Examples.trendVerdict
     = SAPANStrategy.PatternValid Examples.trendVerdict
  /\ SAPANStrategy.PatternType Examples.trendVerdict
     = (if SAPANStrategy.MACDValid Examples.trendVerdict
        then patternOf Examples.trendCandles
        else CandlestickPatternDetector.NoPattern).
Proof.
  apply (validateSetup_gates "UP" Examples.trendCandles
           SAPANStrategy.LongScenario Examples.trendVerdict).
  vm_compute. reflexivity.
Defined.

(** The EMAs of a series are never in both orders. *)
Lemma ValidateTrend_excludes_downtrend (prices : list float) :
  EMACalculator.ValidateTrend prices && EMACalculator.ValidateDowntrend prices
  = false.
Proof.
  unfold EMACalculator.ValidateTrend, EMACalculator.ValidateDowntrend. cbv zeta.
  destruct (EMACalculator.Calculate prices 20 >? EMACalculator.Calculate prices 50)%float
    eqn:E1; [|reflexivity].
  destruct (EMACalculator.Calculate prices 20 <? EMACalculator.Calculate prices 50)%float
    eqn:E2; [|rewrite !andb_false_r; reflexivity].
  exfalso. unfold gtb in E1. apply ltb_rank in E1, E2. lia.
Qed.

(** A valid setup has passed the EMA gate of its scenario. *)
Lemma validateSetup_valid_ema symbol candles scenario result :
  SAPANStrategy.validateSetup symbol candles scenario = Some result ->
  SAPANStrategy.IsValid result = true ->
  emaGate scenario (map models.Close candles) = true.
Proof.
  unfold SAPANStrategy.validateSetup, SAPANStrategy.extractClosingPrices.
  destruct (_ <? 200)%nat; [intros [= <-]; discriminate|].
  unfold SAPANStrategy.validateEMATrend, SAPANStrategy.validateEMADowntrend.
  fold (emaGate scenario (map models.Close candles)).
  cbn [SAPANStrategy.EMATrendValid SAPANStrategy.setEMATrendValid].
  destruct (emaGate scenario (map models.Close candles)); [reflexivity|].
  cbn [negb]. intros [= <-]. discriminate.
Qed.

(** No history is a valid setup of both scenarios. *)
Lemma scenarios_exclude symbol candles longResult shortResult :
  SAPANStrategy.ValidateLongSetup symbol candles = Some longResult ->
  SAPANStrategy.ValidateShortSetup symbol candles = Some shortResult ->
  SAPANStrategy.IsValid longResult && SAPANStrategy.IsValid shortResult = false.
Proof.
  intros Hl Hs.
  destruct (SAPANStrategy.IsValid longResult) eqn:El; [|reflexivity].
  destruct (SAPANStrategy.IsValid shortResult) eqn:Es; [|reflexivity].
  pose proof (validateSetup_valid_ema _ _ _ _ Hl El) as H1.
  pose proof (validateSetup_valid_ema _ _ _ _ Hs Es) as H2.
  pose proof (ValidateTrend_excludes_downtrend (map models.Close candles)) as H.
  cbn [emaGate] in H1, H2. rewrite H1, H2 in H. discriminate.
Qed.

(** X2: ValidateTrend and ValidateDowntrend never both hold of a price
    series, and for every symbol and history both validations return (no
    index is read out of range) and the history is not a valid setup of
    both the Long and the Short scenario. *)
Theorem setups_mutually_exclusive :
  forall (prices : list float) (symbol : string) (candles : list models.Candle),
  EMACalculator.ValidateTrend prices && EMACalculator.ValidateDowntrend prices
  = false
  /\ exists longResult shortResult,
       SAPANStrategy.ValidateLongSetup symbol candles = Some longResult
       /\ SAPANStrategy.ValidateShortSetup symbol candles = Some shortResult
       /\ SAPANStrategy.IsValid longResult && SAPANStrategy.IsValid shortResult
          = false.
Proof.
  intros prices symbol candles.
  split; [apply ValidateTrend_excludes_downtrend|].
  destruct (validateSetup_returns symbol candles SAPANStrategy.LongScenario)
    as [longResult Hl].
  destruct (validateSetup_returns symbol candles SAPANStrategy.ShortScenario)
    as [shortResult Hs].
  exists longResult, shortResult.
  split; [exact Hl|]. split; [exact Hs|].
  exact (scenarios_exclude symbol candles longResult shortResult Hl Hs).
Qed.

(** X3: when the fetch succeeds, processStock returns a successful result
    whose flags are the verdicts of the two validations on the fetched
    candles: IsLongValid is the verdict of ValidateLongSetup, IsShortValid
    that of ValidateShortSetup (the two are never both valid), IsValid is
    their disjunction, and the message is the message of the scenario that
    is valid, or that no valid setup was detected. *)
Theorem processStock_flags_are_verdicts :
  forall (FetchStockData : string -> Z -> models.CandleData * option string)
         (timeNow : nat -> Z) (stock : models.Stock) (w : StockProcessor.World)
         (candleData : models.CandleData),
  FetchStockData (models.Symbol stock) 200%Z = (candleData, None) ->
  exists longResult shortResult result w',
    SAPANStrategy.ValidateLongSetup (models.Symbol stock)
      (models.Candles candleData) = Some longResult
    /\ SAPANStrategy.ValidateShortSetup (models.Symbol stock)
         (models.Candles candleData) = Some shortResult
    /\ SAPANStrategy.IsValid longResult && SAPANStrategy.IsValid shortResult
       = false
    /\ StockProcessor.processStock FetchStockData timeNow stock w
       = Some (result, w')
    /\ StockProcessor.Success result = true
    /\ StockProcessor.IsLongValid result = SAPANStrategy.IsValid longResult
    /\ StockProcessor.IsShortValid result = SAPANStrategy.IsValid shortResult
    /\ StockProcessor.IsValid result
       = StockProcessor.IsLongValid result || StockProcessor.IsShortValid result
    /\ StockProcessor.Message result
       = (if SAPANStrategy.IsValid longResult
          then SAPANStrategy.ValidationMessage longResult
          else if SAPANStrategy.IsValid shortResult
               then SAPANStrategy.ValidationMessage shortResult
               else "No valid SAPAN setups detected"%string).
Proof.
  intros Fetch timeNow stock w candleData HF.
  destruct (validateSetup_returns (models.Symbol stock) (models.Candles candleData)
              SAPANStrategy.LongScenario) as [lr Hl].
  destruct (validateSetup_returns (models.Symbol stock) (models.Candles candleData)
              SAPANStrategy.ShortScenario) as [sr Hs].
  pose proof (scenarios_exclude _ _ _ _ Hl Hs) as Hex.
  exists lr, sr. unfold StockProcessor.processStock. rewrite HF.
  unfold SAPANStrategy.ValidateLongSetup, SAPANStrategy.ValidateShortSetup.
  rewrite Hl, Hs.
  destruct (SAPANStrategy.IsValid lr) eqn:El; cbn [negb andb orb] in *.
  - rewrite Hex. eexists _, _. repeat split; reflexivity.
  - destruct (SAPANStrategy.IsValid sr) eqn:Es;
      eexists _, _; cbn; rewrite ?El, ?Es; repeat split; reflexivity.
Qed.

Lemma processStock_flags_are_verdicts_witness :
  exists longResult shortResult result w',
    SAPANStrategy.ValidateLongSetup "DOWN" Examples.downtrendCandles
    = Some longResult
    /\ SAPANStrategy.ValidateShortSetup "DOWN" Examples.downtrendCandles
       = Some shortResult
    /\ SAPANStrategy.IsValid longResult && SAPANStrategy.IsValid shortResult
       = false
    /\ StockProcessor.processStock Examples.fetchHistory Examples.tick
         (Examples.noStock "DOWN") Examples.emptyWorld
       = Some (result, w')
    /\ StockProcessor.Success result = true
    /\ StockProcessor.IsLongValid result = SAPANStrategy.IsValid longResult
    /\ StockProcessor.IsShortValid result = SAPANStrategy.IsValid shortResult
    /\ StockProcessor.IsValid result
       = StockProcessor.IsLongValid result || StockProcessor.IsShortValid result
    /\ StockProcessor.Message result
       = (if SAPANStrategy.IsValid longResult
          then SAPANStrategy.ValidationMessage longResult
          else if SAPANStrategy.IsValid shortResult
               then SAPANStrategy.ValidationMessage shortResult
               else "No valid SAPAN setups detected"%string).
Proof.
  apply (processStock_flags_are_verdicts Examples.fetchHistory Examples.tick
           (Examples.noStock "DOWN") Examples.emptyWorld
           {| models.Candles := Examples.downtrendCandles |}).
  reflexivity.
Defined.

(** * The batch: workers, progress and summary *)

(** An int32 counter within its range does not wrap around. *)
Lemma int32_small (z : Z) : (- 2 ^ 31 <= z < 2 ^ 31)%Z -> ProgressTracker.int32 z = z.
Proof.
  intros H. unfold ProgressTracker.int32.
  rewrite Z.mod_small; lia.
Qed.

(** processStock never panics: its result carries the stock's symbol and
    flags that agree, the symbol is added to the watch list of the flag that
    is set, and the clock is read once per addition. *)
Lemma processStock_flags
    (FetchStockData : string -> Z -> models.CandleData * option string)
    (timeNow : nat -> Z) (stock : models.Stock) (w : StockProcessor.World) :
  exists result w',
    StockProcessor.processStock FetchStockData timeNow stock w = Some (result, w')
    /\ StockProcessor.Symbol result = models.Symbol stock
    /\ resultFlagsOk result = true
    /\ StockProcessor.watchListManager w'
       = (if StockProcessor.IsLongValid result
          then WatchListManager.AddToLongWatchList
                 (StockProcessor.watchListManager w)
                 (timeNow (StockProcessor.timeReads w)) (models.Symbol stock)
          else if StockProcessor.IsShortValid result
          then WatchListManager.AddToShortWatchList
                 (StockProcessor.watchListManager w)
                 (timeNow (StockProcessor.timeReads w)) (models.Symbol stock)
          else StockProcessor.watchListManager w)
    /\ StockProcessor.timeReads w'
       = (if StockProcessor.IsLongValid result || StockProcessor.IsShortValid result
          then S (StockProcessor.timeReads w) else StockProcessor.timeReads w).
Proof.
  unfold StockProcessor.processStock.
  destruct (FetchStockData (models.Symbol stock) 200%Z) as [candleData [e|]].
  - eexists _, _. repeat split; reflexivity.
  - unfold SAPANStrategy.ValidateLongSetup, SAPANStrategy.ValidateShortSetup.
    destruct (validateSetup_returns (models.Symbol stock)
                (models.Candles candleData) SAPANStrategy.LongScenario)
      as [lr ->].
    destruct (validateSetup_returns (models.Symbol stock)
                (models.Candles candleData) SAPANStrategy.ShortScenario)
      as [sr ->].
    destruct (SAPANStrategy.IsValid lr) eqn:El; cbn [negb].
    + eexists _, _. split; [reflexivity|]. split; [reflexivity|].
      unfold resultFlagsOk. cbn. rewrite ?El. repeat split; reflexivity.
    + destruct (SAPANStrategy.IsValid sr) eqn:Es;
        (eexists _, _; split; [reflexivity|]; split; [reflexivity|];
         unfold resultFlagsOk; cbn; rewrite ?El, ?Es; repeat split; reflexivity).
Qed.

(** What a worker leaves: one result per stock, and a tracker updated once
    per result. *)
Lemma worker_run
    (FetchStockData : string -> Z -> models.CandleData * option string)
    (timeNow : nat -> Z) (stockChan : list models.Stock) :
  forall resultChan progressTracker w,
  exists results w',
    StockProcessor.worker FetchStockData timeNow stockChan resultChan
      progressTracker w
    = Some ((resultChan ++ results)%list,
            fold_left
              (fun p r =>
                 ProgressTracker.UpdateProgress p (StockProcessor.Success r)
                   (StockProcessor.IsValid r))
              results progressTracker,
            w')
    /\ map StockProcessor.Symbol results = map models.Symbol stockChan
    /\ forallb resultFlagsOk results = true.
Proof.
  induction stockChan as [|stock stockChan IH]; intros resultChan tracker w.
  - exists [], w. cbn [StockProcessor.worker fold_left]. rewrite app_nil_r.
    repeat split; reflexivity.
  - cbn [StockProcessor.worker].
    destruct (processStock_flags FetchStockData timeNow stock w)
      as (r & w1 & -> & Hr & Hok & _).
    destruct (IH (resultChan ++ [r])%list
                (ProgressTracker.UpdateProgress tracker
                   (StockProcessor.Success r) (StockProcessor.IsValid r)) w1)
      as (rs & w' & -> & Hs & Hall).
    exists (r :: rs), w'. rewrite <- app_assoc.
    split; [reflexivity|]. split; [cbn [map]; congruence|].
    cbn [forallb]. rewrite Hok, Hall. reflexivity.
Qed.

(** Counting the results that pass a test. *)
Lemma countIf_cons {A} (P : A -> bool) (x : A) (l : list A) :
  countIf P (x :: l) = (if P x then 1 else 0) + countIf P l.
Proof. unfold countIf. cbn [List.filter]. destruct (P x); reflexivity. Qed.

(** The counters of collectResults are counts over the results, and it logs
    one line per result. *)
Lemma collectResults_counts (results : list StockProcessor.ProcessingResult) :
  StockProcessor.collectResults results
  = ({| StockProcessor.successCount := countIf StockProcessor.Success results;
        StockProcessor.errorCount :=
          countIf (fun r => negb (StockProcessor.Success r)) results;
        StockProcessor.validCount :=
          countIf (fun r => StockProcessor.Success r && StockProcessor.IsValid r)
            results;
        StockProcessor.longCount :=
          countIf (fun r => StockProcessor.Success r
                            && StockProcessor.IsLongValid r) results;
        StockProcessor.shortCount :=
          countIf (fun r => StockProcessor.Success r
                            && StockProcessor.IsShortValid r) results |},
     map StockProcessor.logLine results).
Proof.
  unfold StockProcessor.collectResults.
  set (step := fun '(s, logged) result => _).
  assert (G : forall rs a b c d e logged,
    fold_left step rs
      ({| StockProcessor.successCount := a; StockProcessor.errorCount := b;
          StockProcessor.validCount := c; StockProcessor.longCount := d;
          StockProcessor.shortCount := e |}, logged)
    = ({| StockProcessor.successCount := a + countIf StockProcessor.Success rs;
          StockProcessor.errorCount :=
            b + countIf (fun r => negb (StockProcessor.Success r)) rs;
          StockProcessor.validCount :=
            c + countIf (fun r => StockProcessor.Success r
                                  && StockProcessor.IsValid r) rs;
          StockProcessor.longCount :=
            d + countIf (fun r => StockProcessor.Success r
                                  && StockProcessor.IsLongValid r) rs;
          StockProcessor.shortCount :=
            e + countIf (fun r => StockProcessor.Success r
                                  && StockProcessor.IsShortValid r) rs |},
       (logged ++ map StockProcessor.logLine rs)%list)).
  { induction rs as [|r rs IH]; intros a b c d e logged.
    - cbn [fold_left map]. unfold countIf. cbn [List.filter length].
      rewrite app_nil_r. f_equal. f_equal; lia.
    - cbn [fold_left map]. rewrite !countIf_cons. cbv beta. unfold step at 2.
      destruct (StockProcessor.Success r), (StockProcessor.IsValid r),
        (StockProcessor.IsLongValid r), (StockProcessor.IsShortValid r);
        cbn [StockProcessor.successCount StockProcessor.errorCount
             StockProcessor.validCount StockProcessor.longCount
             StockProcessor.shortCount andb negb];
        rewrite IH, <- app_assoc; cbn [app]; (f_equal; f_equal; lia). }
  rewrite G. cbn [app]. reflexivity.
Qed.

(** The counters of a tracker updated once per result, while they fit an
    int32. *)
Lemma tracker_counts (results : list StockProcessor.ProcessingResult) :
  forall p,
  (0 <= ProgressTracker.processed p)%Z ->
  (0 <= ProgressTracker.valid p)%Z ->
  (0 <= ProgressTracker.errors p)%Z ->
  (ProgressTracker.valid p <= ProgressTracker.processed p)%Z ->
  (ProgressTracker.errors p <= ProgressTracker.processed p)%Z ->
  (ProgressTracker.processed p + Z.of_nat (length results) < 2 ^ 31)%Z ->
  let p' :=
    fold_left
      (fun p r =>
         ProgressTracker.UpdateProgress p (StockProcessor.Success r)
           (StockProcessor.IsValid r))
      results p in
  ProgressTracker.total p' = ProgressTracker.total p
  /\ ProgressTracker.processed p'
     = (ProgressTracker.processed p + Z.of_nat (length results))%Z
  /\ ProgressTracker.valid p'
     = (ProgressTracker.valid p
        + Z.of_nat (countIf (fun r => StockProcessor.Success r
                                      && StockProcessor.IsValid r) results))%Z
  /\ ProgressTracker.errors p'
     = (ProgressTracker.errors p
        + Z.of_nat (countIf (fun r => negb (StockProcessor.Success r))
                      results))%Z.
Proof.
  induction results as [|r rs IH]; intros p H1 H2 H3 H4 H5 H6; cbn [fold_left].
  - unfold countIf. cbn. repeat split; lia.
  - cbn [length] in H6. rewrite !countIf_cons. cbv beta.
    set (q := ProgressTracker.UpdateProgress p (StockProcessor.Success r)
                (StockProcessor.IsValid r)).
    assert (Hq : ProgressTracker.total q = ProgressTracker.total p
                 /\ ProgressTracker.processed q
                    = (ProgressTracker.processed p + 1)%Z
                 /\ ProgressTracker.valid q
                    = (ProgressTracker.valid p
                       + (if StockProcessor.Success r && StockProcessor.IsValid r
                          then 1 else 0))%Z
                 /\ ProgressTracker.errors q
                    = (ProgressTracker.errors p
                       + (if negb (StockProcessor.Success r) then 1 else 0))%Z).
    { unfold q, ProgressTracker.UpdateProgress.
      destruct (StockProcessor.Success r), (StockProcessor.IsValid r);
        cbn [ProgressTracker.total ProgressTracker.processed
             ProgressTracker.valid ProgressTracker.errors andb negb];
        rewrite !int32_small by lia; repeat split; lia. }
    destruct Hq as (Q0 & Q1 & Q2 & Q3).
    set (b1 := (if StockProcessor.Success r && StockProcessor.IsValid r
                then 1 else 0)%Z) in *.
    set (b2 := (if negb (StockProcessor.Success r) then 1 else 0)%Z) in *.
    assert (Hb : (0 <= b1 <= 1 /\ 0 <= b2 <= 1)%Z).
    { unfold b1, b2. destruct (StockProcessor.Success r), (StockProcessor.IsValid r);
        cbn [andb negb]; lia. }
    destruct (IH q) as (I0 & I1 & I2 & I3); try lia.
    cbv zeta in *. rewrite I0, I1, I2, I3, Q0, Q1, Q2, Q3.
    cbn [length]. unfold b1, b2.
    destruct (StockProcessor.Success r && StockProcessor.IsValid r),
      (negb (StockProcessor.Success r)); repeat split; lia.
Qed.

(** Counts over results whose flags agree. *)
Lemma countIf_flags (results : list StockProcessor.ProcessingResult) :
  forallb resultFlagsOk results = true ->
  countIf StockProcessor.Success results
    + countIf (fun r => negb (StockProcessor.Success r)) results
  = length results
  /\ countIf (fun r => StockProcessor.Success r && StockProcessor.IsValid r)
       results
     = countIf (fun r => StockProcessor.Success r
                         && StockProcessor.IsLongValid r) results
       + countIf (fun r => StockProcessor.Success r
                           && StockProcessor.IsShortValid r) results
  /\ countIf StockProcessor.IsValid results
     = countIf (fun r => StockProcessor.Success r && StockProcessor.IsValid r)
         results.
Proof.
  induction results as [|r rs IH]; [intros _; repeat split; reflexivity|].
  cbn [forallb]. intros H. apply andb_prop in H. destruct H as [Hr Hrs].
  destruct (IH Hrs) as (I1 & I2 & I3). rewrite !countIf_cons. cbv beta.
  cbn [length]. revert Hr. unfold resultFlagsOk.
  destruct (StockProcessor.Success r), (StockProcessor.IsValid r),
    (StockProcessor.IsLongValid r), (StockProcessor.IsShortValid r);
    cbn; intros Hr; try discriminate; repeat split; lia.
Qed.

(** X4: a worker that drains a batch of fewer than 2^31 stocks, starting
    from a fresh progress tracker, never panics and sends one result per
    stock, in order and with the stock's symbol.  The summary collectResults
    computes from these results and the tracker agree: the total processed
    is the number of stocks, the valid setups are the Long setups plus the
    Short setups and are the results flagged valid, one line is logged per
    result, the tracker's processed, valid and error counters are the
    summary's total, valid and error counts, and the tracker is complete. *)
Theorem batch_summary_agrees :
  forall (FetchStockData : string -> Z -> models.CandleData * option string)
         (timeNow : nat -> Z) (stocks : list models.Stock)
         (w : StockProcessor.World),
  (Z.of_nat (length stocks) < 2 ^ 31)%Z ->
  exists results progressTracker w',
    StockProcessor.worker FetchStockData timeNow stocks []
      (ProgressTracker.NewProgressTracker (Z.of_nat (length stocks))) w
    = Some (results, progressTracker, w')
    /\ map StockProcessor.Symbol results = map models.Symbol stocks
    /\ let summary := fst (StockProcessor.collectResults results) in
       StockProcessor.totalProcessed summary = length stocks
       /\ StockProcessor.validCount summary
          = StockProcessor.longCount summary + StockProcessor.shortCount summary
       /\ StockProcessor.validCount summary
          = countIf StockProcessor.IsValid results
       /\ snd (StockProcessor.collectResults results)
          = map StockProcessor.logLine results
       /\ ProgressTracker.processed progressTracker
          = Z.of_nat (StockProcessor.totalProcessed summary)
       /\ ProgressTracker.valid progressTracker
          = Z.of_nat (StockProcessor.validCount summary)
       /\ ProgressTracker.errors progressTracker
          = Z.of_nat (StockProcessor.errorCount summary)
       /\ ProgressTracker.IsComplete progressTracker = true.
Proof.
  intros Fetch timeNow stocks w Hlen.
  destruct (worker_run Fetch timeNow stocks []
              (ProgressTracker.NewProgressTracker (Z.of_nat (length stocks))) w)
    as (rs & w' & Hw & Hsym & Hok).
  cbn [app] in Hw.
  eexists rs, _, w'. split; [exact Hw|]. split; [exact Hsym|].
  assert (Hl : length rs = length stocks).
  { apply (f_equal (@length string)) in Hsym. now rewrite !length_map in Hsym. }
  destruct (countIf_flags rs Hok) as (C1 & C2 & C3).
  rewrite collectResults_counts. cbn [fst snd].
  unfold StockProcessor.totalProcessed.
  cbn [StockProcessor.successCount StockProcessor.errorCount
       StockProcessor.validCount StockProcessor.longCount
       StockProcessor.shortCount].
  destruct (tracker_counts rs
              (ProgressTracker.NewProgressTracker (Z.of_nat (length stocks))))
    as (T0 & T1 & T2 & T3);
    try (cbn [ProgressTracker.NewProgressTracker ProgressTracker.processed
              ProgressTracker.valid ProgressTracker.errors]; lia).
  cbv zeta in T0, T1, T2, T3.
  cbn [ProgressTracker.NewProgressTracker ProgressTracker.processed
       ProgressTracker.valid ProgressTracker.errors ProgressTracker.total]
    in T0, T1, T2, T3.
  rewrite int32_small in T0 by lia.
  split; [lia|]. split; [exact C2|]. split; [now rewrite C3|].
  split; [reflexivity|]. split; [lia|]. split; [lia|]. split; [lia|].
  unfold ProgressTracker.IsComplete. apply Z.leb_le. lia.
Qed.

Lemma batch_summary_agrees_witness :
  exists results progressTracker w',
    StockProcessor.worker Examples.fetchHistory Examples.tick
      [Examples.noStock "UP"; Examples.noStock "DOWN"; Examples.noStock "FLAT"]
      []
      (ProgressTracker.NewProgressTracker
         (Z.of_nat
            (length
               [Examples.noStock "UP"; Examples.noStock "DOWN";
                Examples.noStock "FLAT"])))
      Examples.emptyWorld
    = Some (results, progressTracker, w')
    /\ map StockProcessor.Symbol results
       = map models.Symbol
           [Examples.noStock "UP"; Examples.noStock "DOWN";
            Examples.noStock "FLAT"]
    /\ let summary := fst (StockProcessor.collectResults results) in
       StockProcessor.totalProcessed summary
       = length
           [Examples.noStock "UP"; Examples.noStock "DOWN";
            Examples.noStock "FLAT"]
       /\ StockProcessor.validCount summary
          = StockProcessor.longCount summary + StockProcessor.shortCount summary
       /\ StockProcessor.validCount summary
          = countIf StockProcessor.IsValid results
       /\ snd (StockProcessor.collectResults results)
          = map StockProcessor.logLine results
       /\ ProgressTracker.processed progressTracker
          = Z.of_nat (StockProcessor.totalProcessed summary)
       /\ ProgressTracker.valid progressTracker
          = Z.of_nat (StockProcessor.validCount summary)
       /\ ProgressTracker.errors progressTracker
          = Z.of_nat (StockProcessor.errorCount summary)
       /\ ProgressTracker.IsComplete progressTracker = true.
Proof.
  apply (batch_summary_agrees Examples.fetchHistory Examples.tick
           [Examples.noStock "UP"; Examples.noStock "DOWN";
            Examples.noStock "FLAT"]
           Examples.emptyWorld).
  vm_compute. reflexivity.
Defined.

(** * The watch lists of a run *)


Section WatchLists.

Variable FetchStockData : string -> Z -> models.CandleData * option string.
Variable timeNow : nat -> Z.
(** The reads of the clock from which the run starts. *)
Variable start : nat.

Hypothesis timeNow_inj : forall i j, timeNow i = timeNow j -> i = j.



End WatchLists.



(** X6: adding a symbol to a watch list stores it under the current time and
    leaves every other entry and the other list as they were; the list grows
    by one entry when no entry had that time, and when one had, the symbol
    replaces it and the count stays. *)
Theorem AddToWatchList_lookup :
  forall (w : WatchListManager.WatchListManager) (now : Z) (symbol : string),
  let l := WatchListManager.AddToLongWatchList w now symbol in
  let s := WatchListManager.AddToShortWatchList w now symbol in
  WatchListManager.GetLongWatchList l !! now = Some symbol
  /\ (forall t, t <> now ->
        WatchListManager.GetLongWatchList l !! t
        = WatchListManager.GetLongWatchList w !! t)
  /\ WatchListManager.GetShortWatchList l = WatchListManager.GetShortWatchList w
  /\ WatchListManager.GetLongCount l
     = (match WatchListManager.GetLongWatchList w !! now with
        | Some _ => WatchListManager.GetLongCount w
        | None => S (WatchListManager.GetLongCount w)
        end)
  /\ WatchListManager.GetShortWatchList s !! now = Some symbol
  /\ (forall t, t <> now ->
        WatchListManager.GetShortWatchList s !! t
        = WatchListManager.GetShortWatchList w !! t)
  /\ WatchListManager.GetLongWatchList s = WatchListManager.GetLongWatchList w
  /\ WatchListManager.GetShortCount s
     = (match WatchListManager.GetShortWatchList w !! now with
        | Some _ => WatchListManager.GetShortCount w
        | None => S (WatchListManager.GetShortCount w)
        end).
Proof.
  intros w now symbol l s. subst l s.
  unfold WatchListManager.AddToLongWatchList,
    WatchListManager.AddToShortWatchList,
    WatchListManager.GetLongWatchList, WatchListManager.GetShortWatchList,
    WatchListManager.GetLongCount, WatchListManager.GetShortCount.
  cbn [WatchListManager.longWatchList WatchListManager.shortWatchList].
  assert (Hsize : forall m : gmap Z string,
            size (<[now := symbol]> m)
            = match m !! now with Some _ => size m | None => S (size m) end).
  { intros m. destruct (m !! now) eqn:E.
    - rewrite <- (insert_delete_id m now s E) at 2.
      rewrite <- (insert_delete_eq m) .
      rewrite !map_size_insert_None by apply lookup_delete_eq. reflexivity.
    - apply map_size_insert_None. exact E. }
  repeat split; try apply lookup_insert_eq; try apply Hsize;
    intros t Ht; apply lookup_insert_ne; congruence.
Qed.

(** * The progress percentage *)

Section Ratio.
Local Open Scope Z_scope.

(** An integer below 2^53 is a number of the format. *)
Lemma roundZ_small (p : Z) :
  0 < p < 2 ^ 53 -> roundZ (p * 2 ^ 1074) = p * 2 ^ 1074.
Proof.
  intros Hp. pose proof (Zdigits2_pos_bounds p ltac:(lia)) as (Hd & Hlo & Hhi).
  assert (Hd53 : Zdigits2 p <= 53) by (apply Zdigits2_le; lia).
  unfold roundZ. cbv zeta. rewrite Zdigits2_mul_pow2 by lia.
  rewrite Z.max_r by lia.
  assert (E : p * 2 ^ 1074
              = (p * 2 ^ (53 - Zdigits2 p)) * 2 ^ (Zdigits2 p + 1074 - 53)).
  { rewrite <- Z.mul_assoc, <- Z.pow_add_r by lia. do 2 f_equal. lia. }
  rewrite E at 1.
  replace (Zdigits2 p + 1074 - 53) with (0 + (Zdigits2 p + 1074 - 53)) at 2 by lia.
  rewrite rne_shift by lia.
  assert (E0 : forall M, rne M 0 = M).
  { intros M. unfold rne. simpl (2 ^ 0). rewrite Z.mod_1_r, Z.div_1_r. reflexivity. }
  rewrite E0, <- E.
  apply Z.min_l. rewrite pow2_2098.
  assert (2 ^ 1074 <= 2 ^ 2045) by (apply Z.pow_le_mono_r; lia).
  assert (0 < 2 ^ 1074) by (apply Z.pow_pos_nonneg; lia). nia.
Qed.

(** The conversion of a positive integer below 2^53 is exact. *)
Lemma float64_scaled (n : Z) :
  0 < n < 2 ^ 53 ->
  exists m e, Prim2SF (float64 n) = S754_finite false m e
              /\ Zpos m * 2 ^ (e + 1074) = n * 2 ^ 1074.
Proof.
  intros Hn. unfold float64.
  rewrite (proj2 (Z.ltb_ge n 0)) by lia.
  rewrite of_uint63_spec, Uint63.of_Z_spec.
  rewrite Z.mod_small by (change wB with (2 ^ 63); lia).
  destruct n as [|p|p]; try lia. cbn [binary_normalize].
  destruct (binary_round_scaled p 0 ltac:(lia)) as [Hs Hpos].
  rewrite Z.add_0_l, roundZ_small in Hs by lia.
  destruct (SFltb_zero_inv _ Hpos) as [E|(m & e & E)]; rewrite E in *.
  - exfalso. cbn [SFscaled] in Hs. rewrite pow2_2098 in Hs.
    assert (2 ^ 1074 <= 2 ^ 2045) by (apply Z.pow_le_mono_r; lia).
    assert (0 < 2 ^ 1074) by (apply Z.pow_pos_nonneg; lia). nia.
  - exists m, e. split; [reflexivity|exact Hs].
Qed.

(** The ratio of two positive finite numbers, the first at most the second,
    times 100: a number between 0 and 100, and 100 when they are equal. *)
Lemma SFpercent_ratio (ma mb : positive) (ea eb : Z) :
  let a := S754_finite false ma ea in
  let b := S754_finite false mb eb in
  valid_binary a = true -> valid_binary b = true ->
  Zpos ma * 2 ^ (ea + 1074) <= Zpos mb * 2 ^ (eb + 1074) ->
  valid_binary (SFdiv prec emax a b) = true ->
  valid_binary (SFmul prec emax (SFdiv prec emax a b) (Prim2SF 100)) = true ->
  let K := SFmul prec emax (SFdiv prec emax a b) (Prim2SF 100) in
  K <> S754_nan /\ SFpercent K = true
  /\ (Zpos ma * 2 ^ (ea + 1074) = Zpos mb * 2 ^ (eb + 1074) -> K = Prim2SF 100).
Proof.
  intros a b Va Vb Hle Vq VK K.
  assert (Na : a <> S754_nan) by discriminate.
  assert (Nb : b <> S754_nan) by discriminate.
  destruct (SFscaled_le_rank a b Va Vb Na Nb) as (_ & P2 & P3).
  cbn [SFscaled a b] in P2, P3.
  assert (Hcases : Zpos ma * 2 ^ (ea + 1074) = Zpos mb * 2 ^ (eb + 1074)
                   \/ Zpos ma * 2 ^ (ea + 1074) < Zpos mb * 2 ^ (eb + 1074))
    by lia.
  destruct Hcases as [Heq|Hlt].
  { pose proof (SFrank_eq_inv a b Va Vb Na Nb (proj2 P3 Heq)) as Hinv.
    cbn [a b] in Hinv. destruct Hinv as (_ & -> & ->).
    unfold K, a, b. rewrite SFdiv_same.
    split; [discriminate|]. split; reflexivity. }
  destruct (SFdiv_le_one ma mb ea eb Va Vb Hlt) as (Q1 & Q2 & Q3).
  cbv zeta in Q1, Q2, Q3. fold a b in Q1, Q2, Q3.
  assert (HK : K <> S754_nan /\ SFpercent K = true).
  { unfold K in *. clear K.
    destruct (SFdiv prec emax a b) as [sq|sq| |sq mq eq] eqn:Eq; try congruence.
    - rewrite Prim2SF_100. destruct sq; split; (discriminate || reflexivity).
    - exfalso. destruct sq; [discriminate|]. rewrite Prim2SF_one in Q3.
      cbn [SFrank] in Q3. lia.
    - destruct sq; [discriminate|].
      assert (V1 : valid_binary (Prim2SF 1) = true) by apply Prim2SF_valid.
      assert (N1 : Prim2SF 1 <> S754_nan) by (rewrite Prim2SF_one; discriminate).
      assert (Hcases : SFrank (S754_finite false mq eq) = SFrank (Prim2SF 1)
                       \/ SFrank (S754_finite false mq eq) < SFrank (Prim2SF 1))
        by lia.
      destruct Hcases as [Heq|Hlt1].
      + pose proof (SFrank_eq_inv _ _ Vq V1 Q2 N1 Heq) as Hinv.
        rewrite Prim2SF_one in Hinv. destruct Hinv as (_ & -> & ->).
        split; [discriminate|reflexivity].
      + destruct (SFscaled_le_rank _ _ Vq V1 Q2 N1) as (_ & R2 & _).
        apply R2 in Hlt1. rewrite Prim2SF_one in Hlt1. cbn [SFscaled] in Hlt1.
        change (Zpos 4503599627370496 * 2 ^ (-52 + 1074)) with (2 ^ 1074) in Hlt1.
        destruct (SFmul_le_100 mq eq Vq Hlt1) as (K1 & K2 & K3).
        split; [exact K2|]. apply SFpercent_bounded; assumption. }
  destruct HK as [HK1 HK2]. split; [exact HK1|]. split; [exact HK2|]. lia.
Qed.

End Ratio.

(** A number within [0, 100]. *)
Lemma percentOrNaN_number (x : float) :
  isNaN x = false -> percentOrNaN x = true ->
  (0 <=? x)%float && (x <=? 100)%float = true.
Proof. unfold percentOrNaN. intros ->. cbn [orb]. auto. Qed.

(** The percentage of [n] out of [total]. *)
Lemma percentage_range (n total : Z) :
  (0 <= n <= total)%Z -> (0 < total < 2 ^ 53)%Z ->
  (0 <=? float64 n / float64 total * 100)%float
  && (float64 n / float64 total * 100 <=? 100)%float = true
  /\ (n = total -> (float64 n / float64 total * 100)%float = 100%float).
Proof.
  intros Hn Ht.
  destruct (float64_scaled total Ht) as (mb & eb & Eb & Sb).
  destruct (Z.eq_dec n 0%Z) as [->|Hn0].
  { rewrite float64_0, (zero_div_pos _ _ _ Eb).
    split; [reflexivity|lia]. }
  destruct (float64_scaled n ltac:(lia)) as (ma & ea & Ea & Sa).
  pose proof (Prim2SF_valid (float64 n)) as Va.
  pose proof (Prim2SF_valid (float64 total)) as Vb.
  pose proof (Prim2SF_valid (float64 n / float64 total)) as Vq.
  pose proof (Prim2SF_valid (float64 n / float64 total * 100)) as VK.
  rewrite FloatAxioms.mul_spec in VK. rewrite FloatAxioms.div_spec in Vq, VK.
  rewrite Ea in Va, Vq, VK. rewrite Eb in Vb, Vq, VK.
  assert (HX : (0 < 2 ^ 1074)%Z) by (apply Z.pow_pos_nonneg; lia).
  destruct (SFpercent_ratio ma mb ea eb Va Vb ltac:(nia) Vq VK) as (K1 & K2 & K3).
  cbv zeta in K1, K2, K3.
  assert (EK : Prim2SF (float64 n / float64 total * 100)
               = SFmul prec emax
                   (SFdiv prec emax (S754_finite false ma ea)
                      (S754_finite false mb eb)) (Prim2SF 100)).
  { rewrite FloatAxioms.mul_spec, FloatAxioms.div_spec, Ea, Eb. reflexivity. }
  split.
  - apply percentOrNaN_number.
    + apply isNaN_false. rewrite EK. exact K1.
    + rewrite percentOrNaN_spec, EK. exact K2.
  - intros ->. apply Prim2SF_inj. rewrite EK. apply K3. lia.
Qed.

(** X7: for a tracker that has processed at most its total, a total below
    2^31, GetProgress returns the three counters as they are and a
    percentage within [0, 100]: 0 when the total is 0, and exactly 100 when
    the tracker is complete and the total is positive. *)
Theorem GetProgress_percentage : forall p : ProgressTracker.ProgressTracker,
  (0 <= ProgressTracker.processed p <= ProgressTracker.total p)%Z ->
  (ProgressTracker.total p < 2 ^ 31)%Z ->
  let '(processed, valid, errors, percentage) := ProgressTracker.GetProgress p in
  processed = ProgressTracker.processed p
  /\ valid = ProgressTracker.valid p
  /\ errors = ProgressTracker.errors p
  /\ (0 <=? percentage)%float && (percentage <=? 100)%float = true
  /\ (ProgressTracker.total p = 0%Z -> percentage = 0%float)
  /\ (ProgressTracker.IsComplete p = true -> (0 < ProgressTracker.total p)%Z ->
      percentage = 100%float).
Proof.
  intros p Hp Ht. unfold ProgressTracker.GetProgress. cbv zeta.
  split; [reflexivity|]. split; [reflexivity|]. split; [reflexivity|].
  destruct (0 <? ProgressTracker.total p)%Z eqn:E.
  - apply Z.ltb_lt in E.
    assert (H53 : (2 ^ 31 < 2 ^ 53)%Z) by (apply Z.pow_lt_mono_r; lia).
    destruct (percentage_range (ProgressTracker.processed p)
                (ProgressTracker.total p) Hp ltac:(lia)) as [H1 H2].
    split; [exact H1|]. split; [lia|].
    unfold ProgressTracker.IsComplete. intros Hc _. apply Z.leb_le in Hc.
    apply H2. lia.
  - apply Z.ltb_ge in E. split; [reflexivity|]. split; [reflexivity|]. lia.
Qed.

Lemma GetProgress_percentage_witness :
  let '(processed, valid, errors, percentage) :=
    ProgressTracker.GetProgress
      (ProgressTracker.UpdateProgress (ProgressTracker.NewProgressTracker 3)
         true true) in
  processed
  = ProgressTracker.processed
      (ProgressTracker.UpdateProgress (ProgressTracker.NewProgressTracker 3)
         true true)
  /\ valid
     = ProgressTracker.valid
         (ProgressTracker.UpdateProgress (ProgressTracker.NewProgressTracker 3)
            true true)
  /\ errors
     = ProgressTracker.errors
         (ProgressTracker.UpdateProgress (ProgressTracker.NewProgressTracker 3)
            true true)
  /\ (0 <=? percentage)%float && (percentage <=? 100)%float = true
  /\ (ProgressTracker.total
        (ProgressTracker.UpdateProgress (ProgressTracker.NewProgressTracker 3)
           true true) = 0%Z -> percentage = 0%float)
  /\ (ProgressTracker.IsComplete
        (ProgressTracker.UpdateProgress (ProgressTracker.NewProgressTracker 3)
           true true) = true ->
      (0 < ProgressTracker.total
             (ProgressTracker.UpdateProgress
                (ProgressTracker.NewProgressTracker 3) true true))%Z ->
      percentage = 100%float).
Proof.
  apply (GetProgress_percentage
           (ProgressTracker.UpdateProgress (ProgressTracker.NewProgressTracker 3)
              true true)).
  - vm_compute. split; discriminate.
  - vm_compute. reflexivity.
Defined.

(** * The direction of a pattern *)

(** [x <= y] fails on two numbers only when [y < x]. *)
Lemma leb_false_rank (x y : float) :
  isNaN x = false -> isNaN y = false ->
  (x <=? y)%float = false -> (rank y < rank x)%Z.
Proof.
  intros Hx Hy H.
  destruct (Z_lt_le_dec (rank y) (rank x)) as [|Hle]; [assumption|].
  assert ((x <=? y)%float = true) by (apply leb_rank; repeat split; auto).
  congruence.
Qed.

(** A confirmation bar whose open and close are numbers is not both a
    bullish and a bearish confirmation: its close is above its open for the
    one and below for the other. *)
Lemma confirmations_exclude (confirmationCandle reversalCandle other : models.Candle) :
  isNaN (models.Open confirmationCandle) = false ->
  isNaN (models.Close confirmationCandle) = false ->
  CandlestickPatternDetector.isBullishConfirmation confirmationCandle reversalCandle
  && CandlestickPatternDetector.isBearishConfirmation confirmationCandle other
  = false.
Proof.
  intros Ho Hc.
  unfold CandlestickPatternDetector.isBullishConfirmation,
    CandlestickPatternDetector.isBearishConfirmation.
  destruct (models.Close confirmationCandle <=? models.High reversalCandle)%float;
    [reflexivity|].
  destruct (models.Close confirmationCandle <=? models.Open confirmationCandle)%float
    eqn:E1; [reflexivity|].
  destruct (models.Close confirmationCandle >=? models.Low other)%float;
    [apply andb_false_r|].
  destruct (models.Close confirmationCandle >=? models.Open confirmationCandle)%float
    eqn:E2; [apply andb_false_r|].
  exfalso. unfold geb in E2.
  apply leb_false_rank in E1, E2; auto. lia.
Qed.

(** X8: when the open and the close of the last candle are numbers, the
    detectors of the two directions never both fire on a history: no Long
    detector (2-candlestick or pinbar reversal) fires together with a Short
    one.  So the pattern DetectAllPatterns reports is of the Long direction
    exactly when a Long detector fires, and of the Short direction exactly
    when a Short detector fires, whatever the priority among them. *)
Theorem pattern_direction_unambiguous :
  forall (candles : list models.Candle) (ema20 ema50 ema100 ema200 : float),
  let last := CandlestickPatternDetector.candleAt candles (length candles - 1) in
  let long2 :=
    CandlestickPatternDetector.DetectLong2CandlestickReversal candles
      ema20 ema50 ema100 ema200 in
  let short2 :=
    CandlestickPatternDetector.DetectShort2CandlestickReversal candles
      ema20 ema50 ema100 ema200 in
  let longPinbar :=
    CandlestickPatternDetector.DetectLongPinbarReversal candles
      ema20 ema50 ema100 ema200 in
  let shortPinbar :=
    CandlestickPatternDetector.DetectShortPinbarReversal candles
      ema20 ema50 ema100 ema200 in
  let pattern :=
    CandlestickPatternDetector.DetectAllPatterns candles
      ema20 ema50 ema100 ema200 in
  isNaN (models.Open last) = false ->
  isNaN (models.Close last) = false ->
  (long2 || longPinbar) && (short2 || shortPinbar) = false
  /\ isLongPattern pattern = long2 || longPinbar
  /\ isShortPattern pattern = short2 || shortPinbar.
Proof.
  intros candles ema20 ema50 ema100 ema200 last long2 short2 longPinbar
    shortPinbar pattern Ho Hc.
  assert (Hbull : long2 = true \/ longPinbar = true ->
            CandlestickPatternDetector.isBullishConfirmation last
              (CandlestickPatternDetector.candleAt candles (length candles - 2))
            = true).
  { intros [H|H]; revert H.
    - unfold long2, CandlestickPatternDetector.DetectLong2CandlestickReversal.
      cbv zeta. destruct (_ <? 3)%nat; [discriminate|].
      destruct (negb _); [discriminate|]. destruct (negb _); [discriminate|].
      fold last.
      destruct (CandlestickPatternDetector.isBullishConfirmation last _);
        [reflexivity|discriminate].
    - unfold longPinbar, CandlestickPatternDetector.DetectLongPinbarReversal.
      cbv zeta. destruct (_ <? 3)%nat; [discriminate|].
      destruct (negb _); [discriminate|].
      destruct (_ <=? _)%float; [discriminate|].
      destruct (_ >=? _)%float; [discriminate|].
      fold last.
      destruct (CandlestickPatternDetector.isBullishConfirmation last _);
        [reflexivity|discriminate]. }
  assert (Hbear : short2 = true \/ shortPinbar = true ->
            CandlestickPatternDetector.isBearishConfirmation last
              (CandlestickPatternDetector.candleAt candles (length candles - 2))
            = true).
  { intros [H|H]; revert H.
    - unfold short2, CandlestickPatternDetector.DetectShort2CandlestickReversal.
      cbv zeta. destruct (_ <? 3)%nat; [discriminate|].
      destruct (negb _); [discriminate|]. destruct (negb _); [discriminate|].
      fold last.
      destruct (CandlestickPatternDetector.isBearishConfirmation last _);
        [reflexivity|discriminate].
    - unfold shortPinbar, CandlestickPatternDetector.DetectShortPinbarReversal.
      cbv zeta. destruct (_ <? 3)%nat; [discriminate|].
      destruct (negb _); [discriminate|].
      destruct (_ >=? _)%float; [discriminate|].
      destruct (_ <=? _)%float; [discriminate|].
      fold last.
      destruct (CandlestickPatternDetector.isBearishConfirmation last _);
        [reflexivity|discriminate]. }
  pose proof (confirmations_exclude last
                (CandlestickPatternDetector.candleAt candles (length candles - 2))
                (CandlestickPatternDetector.candleAt candles (length candles - 2))
                Ho Hc) as Hex.
  assert (Hexcl : (long2 || longPinbar) && (short2 || shortPinbar) = false).
  { destruct (long2 || longPinbar) eqn:EL; [|reflexivity].
    destruct (short2 || shortPinbar) eqn:ES; [|reflexivity].
    apply orb_prop in EL, ES.
    rewrite (Hbull EL), (Hbear ES) in Hex. discriminate. }
  split; [exact Hexcl|].
  assert (Hp : pattern =
               if (length candles <? 3)%nat
               then CandlestickPatternDetector.NoPattern
               else if long2
               then CandlestickPatternDetector.Long2CandlestickReversal
               else if short2
               then CandlestickPatternDetector.Short2CandlestickReversal
               else if longPinbar
               then CandlestickPatternDetector.LongPinbarReversal
               else if shortPinbar
               then CandlestickPatternDetector.ShortPinbarReversal
               else CandlestickPatternDetector.NoPattern) by reflexivity.
  assert (Hshort : (length candles <? 3)%nat = true ->
            long2 = false /\ short2 = false /\ longPinbar = false
            /\ shortPinbar = false).
  { intros E. unfold long2, short2, longPinbar, shortPinbar,
      CandlestickPatternDetector.DetectLong2CandlestickReversal,
      CandlestickPatternDetector.DetectShort2CandlestickReversal,
      CandlestickPatternDetector.DetectLongPinbarReversal,
      CandlestickPatternDetector.DetectShortPinbarReversal.
    rewrite E. repeat split; reflexivity. }
  rewrite Hp. destruct (length candles <? 3)%nat.
  - destruct (Hshort eq_refl) as (-> & -> & -> & ->). split; reflexivity.
  - revert Hexcl. destruct long2, short2, longPinbar, shortPinbar; cbn;
      intros; try discriminate; split; reflexivity.
Qed.

Lemma pattern_direction_unambiguous_witness :
  let long2 :=
    CandlestickPatternDetector.DetectLong2CandlestickReversal
      Examples.reversalTail 100 100 100 100 in
  let short2 :=
    CandlestickPatternDetector.DetectShort2CandlestickReversal
      Examples.reversalTail 100 100 100 100 in
  let longPinbar :=
    CandlestickPatternDetector.DetectLongPinbarReversal
      Examples.reversalTail 100 100 100 100 in
  let shortPinbar :=
    CandlestickPatternDetector.DetectShortPinbarReversal
      Examples.reversalTail 100 100 100 100 in
  let pattern :=
    CandlestickPatternDetector.DetectAllPatterns
      Examples.reversalTail 100 100 100 100 in
  (long2 || longPinbar) && (short2 || shortPinbar) = false
  /\ isLongPattern pattern = long2 || longPinbar
  /\ isShortPattern pattern = short2 || shortPinbar.
Proof.
  apply (pattern_direction_unambiguous Examples.reversalTail 100 100 100 100).
  - reflexivity.
  - reflexivity.
Defined.

(** * The overbought crossover *)

(** What a true crossover flag says of the %K trajectory. *)
Lemma crossover_inv prices r k d result :
  StochasticRSICalculator.Calculate prices r k d = Some result ->
  StochasticRSICalculator.Crossover result = true ->
  let ks := percentKValues prices r k in
  r + k + d <= length prices /\ 2 <= length ks
  /\ StochasticRSICalculator.K result = at_ ks (length ks - 1)
  /\ (at_ ks (length ks - 2) <? 30)%float = true
  /\ (at_ ks (length ks - 2) <? percentD (removelast ks) d)%float = true
  /\ (at_ ks (length ks - 1) >? percentD ks d)%float = true.
Proof.
  intros Hres Hc ks.
  destruct (Nat.ltb_spec (length prices) (r + k + d)) as [Hlt|Hge].
  { exfalso. revert Hres. unfold StochasticRSICalculator.Calculate.
    rewrite (proj2 (Nat.ltb_lt _ _)) by lia. intros [= <-]. discriminate. }
  split; [exact Hge|].
  destruct (StochasticRSICalculator.stochKTrajectory
              (StochasticRSICalculator.rsiTrajectory prices r) k) as [ks'|] eqn:Eks.
  2:{ exfalso. revert Hres. unfold StochasticRSICalculator.Calculate.
      pose proof (length_rsiTrajectory prices r) as Hr.
      destruct k; [|discriminate].
      rewrite (proj2 (Nat.ltb_ge _ _)) by lia.
      rewrite (proj2 (Nat.ltb_ge _ _)) by lia.
      rewrite Eks. discriminate. }
  assert (Eq : ks = ks') by (unfold ks, percentKValues; rewrite Eks; reflexivity).
  rewrite (stochastic_Calculate_long _ _ _ _ _ Hge Eks) in Hres.
  injection Hres as <-. cbn [StochasticRSICalculator.Crossover] in Hc.
  cbn [StochasticRSICalculator.K]. rewrite <- Eq in *. clear Eq Eks ks'.
  unfold crossoverTest in Hc.
  destruct (le_lt_dec 2 (length ks)) as [H2|H2].
  - destruct (rev_two ks 0%float H2) as [l' E]. rewrite E in Hc.
    apply andb_prop in Hc. destruct Hc as [Hc H30].
    apply andb_prop in Hc. destruct Hc as [Hp Hk].
    split; [exact H2|].
    split; [apply last_nth; intros ->; simpl in H2; lia|].
    unfold at_. repeat split; assumption.
  - exfalso. destruct ks as [|a [|b ks]]; simpl in *; try lia; discriminate.
Qed.

(** X9: IsOverboughtWithCrossover is true only on a series of at least
    r + k + d prices whose %K trajectory has at least two values and jumps
    from below 30 to above 70 at its last step: the previous %K is below 30
    and below the previous %D, the current %K is above 70 and above the
    current %D.  On such a series IsOversoldWithCrossover is false. *)
Theorem overbought_crossover_is_a_jump :
  forall (prices : list float) (r k d : nat),
  StochasticRSICalculator.IsOverboughtWithCrossover prices r k d = Some true ->
  let ks := percentKValues prices r k in
  r + k + d <= length prices /\ 2 <= length ks
  /\ (at_ ks (length ks - 2) <? 30)%float = true
  /\ (at_ ks (length ks - 1) >? 70)%float = true
  /\ (at_ ks (length ks - 2) <? percentD (removelast ks) d)%float = true
  /\ (at_ ks (length ks - 1) >? percentD ks d)%float = true
  /\ StochasticRSICalculator.IsOversoldWithCrossover prices r k d = Some false.
Proof.
  intros prices r k d H ks.
  unfold StochasticRSICalculator.IsOverboughtWithCrossover,
    StochasticRSICalculator.IsOversoldWithCrossover in *.
  destruct (StochasticRSICalculator.Calculate prices r k d) as [res|] eqn:E;
    [|discriminate].
  injection H as H. apply andb_prop in H. destruct H as [H70 Hc].
  destruct (crossover_inv _ _ _ _ _ E Hc) as (H1 & H2 & HK & H30 & Hp & Hk).
  fold ks in H2, HK, H30, Hp, Hk. rewrite HK in H70.
  split; [exact H1|]. split; [exact H2|]. split; [exact H30|].
  split; [exact H70|]. split; [exact Hp|]. split; [exact Hk|].
  rewrite Hc, andb_true_r. f_equal. rewrite HK.
  unfold gtb in H70. apply ltb_rank in H70. destruct H70 as (N70 & NK & H70).
  destruct (at_ ks (length ks - 1) <? 30)%float eqn:E30; [|reflexivity].
  exfalso. apply ltb_rank in E30. destruct E30 as (_ & _ & E30).
  assert (rank 30 < rank 70)%Z by (vm_compute; reflexivity). lia.
Qed.

Lemma overbought_crossover_is_a_jump_witness :
  let ks := percentKValues Examples.downtrendCloses 5 3 in
  5 + 3 + 3 <= length Examples.downtrendCloses /\ 2 <= length ks
  /\ (at_ ks (length ks - 2) <? 30)%float = true
  /\ (at_ ks (length ks - 1) >? 70)%float = true
  /\ (at_ ks (length ks - 2) <? percentD (removelast ks) 3)%float = true
  /\ (at_ ks (length ks - 1) >? percentD ks 3)%float = true
  /\ StochasticRSICalculator.IsOversoldWithCrossover
       Examples.downtrendCloses 5 3 3 = Some false.
Proof.
  apply (overbought_crossover_is_a_jump Examples.downtrendCloses 5 3 3).
  vm_compute. reflexivity.
Defined.

(** * MACD on a short series *)

Lemma length_slice_0 {A} (l : list A) (n : nat) :
  length (slice l 0 n) = Nat.min n (length l).
Proof. unfold slice. rewrite length_firstn, length_skipn. lia. Qed.

Lemma bearishScan_short prices f s g :
  length prices < s ->
  forall j c, MACDCalculator.bearishScan prices f s g j c = c.
Proof.
  intros Hlen. induction j as [|j IH]; intros c;
    cbn [MACDCalculator.bearishScan]; destruct (c <? 6)%nat; try reflexivity.
  rewrite (proj2 (Nat.leb_gt _ _)) by (rewrite length_slice_0; lia).
  apply IH.
Qed.

Lemma bullishScan_short prices f s g :
  length prices < s ->
  forall j c, MACDCalculator.bullishScan prices f s g j c = c.
Proof.
  intros Hlen. induction j as [|j IH]; intros c;
    cbn [MACDCalculator.bullishScan]; destruct (c <? 6)%nat; try reflexivity.
  rewrite (proj2 (Nat.leb_gt _ _)) by (rewrite length_slice_0; lia).
  apply IH.
Qed.

(** X10: on a series shorter than the slow period MACD cannot be computed:
    Calculate returns the zero result, IsBullMarket is false, and both
    IsBearMarketAcceptable and IsBullMarketAcceptable are true (the scan
    finds no bar to count). *)
Theorem MACD_short_series_is_acceptable :
  forall (prices : list float) (f s g : nat),
  length prices < s ->
  MACDCalculator.Calculate prices f s g = MACDCalculator.zeroResult
  /\ MACDCalculator.IsBullMarket prices f s g = false
  /\ MACDCalculator.IsBearMarketAcceptable prices f s g = true
  /\ MACDCalculator.IsBullMarketAcceptable prices f s g = true.
Proof.
  intros prices f s g Hlen.
  assert (E : MACDCalculator.Calculate prices f s g = MACDCalculator.zeroResult).
  { unfold MACDCalculator.Calculate.
    now rewrite (proj2 (Nat.ltb_lt _ _)) by lia. }
  unfold MACDCalculator.IsBullMarket, MACDCalculator.IsBearMarketAcceptable,
    MACDCalculator.IsBullMarketAcceptable. cbv zeta.
  rewrite E, bearishScan_short, bullishScan_short by assumption.
  repeat split; reflexivity.
Qed.

Lemma MACD_short_series_is_acceptable_witness :
  MACDCalculator.Calculate Examples.fallingPrices 12 26 9
  = MACDCalculator.zeroResult
  /\ MACDCalculator.IsBullMarket Examples.fallingPrices 12 26 9 = false
  /\ MACDCalculator.IsBearMarketAcceptable Examples.fallingPrices 12 26 9 = true
  /\ MACDCalculator.IsBullMarketAcceptable Examples.fallingPrices 12 26 9 = true.
Proof.
  apply (MACD_short_series_is_acceptable Examples.fallingPrices 12 26 9).
  vm_compute. lia.
Defined.

(** * The range of the RSI *)

Section RSIRange.
Local Open Scope Z_scope.

(** The sign of a rounded number is the sign asked for. *)
Lemma binary_round_aux_sign (m e : Z) (l : location) :
  SFnonnegOrNaN (binary_round_aux prec emax false m e l) = true.
Proof.
  unfold binary_round_aux.
  destruct (shr_fexp prec emax m e l) as [mrs' e'].
  destruct (shr_fexp prec emax _ e' loc_Exact) as [mrs'' e''].
  destruct (shr_m mrs''); [reflexivity| |reflexivity].
  destruct (e'' <=? emax - prec); reflexivity.
Qed.

Lemma binary_round_sign (p : positive) (e : Z) :
  SFnonnegOrNaN (binary_round prec emax false p e) = true.
Proof.
  unfold binary_round. destruct (shl_align p e _) as [mz ez].
  apply binary_round_aux_sign.
Qed.

(** Sums, products and quotients of numbers that are not negative are not
    negative (or are NaNs), the divisor not being the negative zero. *)
Lemma SFadd_nonneg (x y : spec_float) :
  SFnonnegOrNaN x = true -> SFnonnegOrNaN y = true ->
  SFnonnegOrNaN (SFadd prec emax x y) = true.
Proof.
  destruct x as [sx|sx| |sx mx ex], y as [sy|sy| |sy my ey]; cbn [SFnonnegOrNaN];
    intros Hx Hy; try reflexivity;
    try (destruct sx; try discriminate); try (destruct sy; try discriminate);
    try reflexivity.
  cbn [SFadd cond_Zopp].
  destruct (shl_align mx ex (Z.min ex ey)) as [ax ?].
  destruct (shl_align my ey (Z.min ex ey)) as [ay ?]. cbn [fst].
  cbn [Z.add binary_normalize]. apply binary_round_sign.
Qed.

Lemma SFmul_nonneg (x y : spec_float) :
  SFnonnegOrNaN x = true -> SFnonnegOrNaN y = true ->
  SFnonnegOrNaN (SFmul prec emax x y) = true.
Proof.
  destruct x as [sx|sx| |sx mx ex], y as [sy|sy| |sy my ey]; cbn [SFnonnegOrNaN];
    intros Hx Hy; try reflexivity;
    try (destruct sx; try discriminate); try (destruct sy; try discriminate);
    try reflexivity.
  cbn [SFmul xorb]. apply binary_round_aux_sign.
Qed.

Lemma SFdiv_nonneg (x y : spec_float) :
  SFnonnegOrNaN x = true -> SFnonnegOrNaN y = true -> y <> S754_zero true ->
  SFnonnegOrNaN (SFdiv prec emax x y) = true.
Proof.
  destruct x as [sx|sx| |sx mx ex], y as [sy|sy| |sy my ey]; cbn [SFnonnegOrNaN];
    intros Hx Hy Hz; try reflexivity;
    try (destruct sx; try discriminate); try (destruct sy; try discriminate);
    try congruence; try reflexivity.
  cbn [SFdiv xorb].
  destruct (SFdiv_core_binary prec emax (Zpos mx) ex (Zpos my) ey) as [[mz ez] lz].
  apply binary_round_aux_sign.
Qed.

(** The sum of two positive finite numbers is the rounding of the exact
    sum. *)
Lemma SFadd_scaled (mx my : positive) (ex ey : Z) :
  valid_binary (S754_finite false mx ex) = true ->
  valid_binary (S754_finite false my ey) = true ->
  let r := SFadd prec emax (S754_finite false mx ex) (S754_finite false my ey) in
  SFscaled r = roundZ (Zpos mx * 2 ^ (ex + 1074) + Zpos my * 2 ^ (ey + 1074))
  /\ SFltb (S754_zero false) r = true.
Proof.
  intros Vx Vy r. unfold r. clear r.
  pose proof (valid_finite _ _ _ Vx) as (Hex & _).
  pose proof (valid_finite _ _ _ Vy) as (Hey & _).
  cbn [SFadd cond_Zopp].
  pose proof (shl_align_scaled mx ex (Z.min ex ey) ltac:(lia) ltac:(lia)) as Ax.
  pose proof (shl_align_scaled my ey (Z.min ex ey) ltac:(lia) ltac:(lia)) as Ay.
  destruct (shl_align mx ex (Z.min ex ey)) as [ax ?].
  destruct (shl_align my ey (Z.min ex ey)) as [ay ?]. cbn [fst] in *.
  rewrite <- Ax, <- Ay, <- Z.mul_add_distr_r.
  cbn [Z.add binary_normalize].
  change (Zpos ax + Zpos ay) with (Zpos (ax + ay)).
  apply binary_round_scaled. lia.
Qed.

Lemma scaled_100 : SFscaled (Prim2SF 100) = 100 * 2 ^ 1074.
Proof.
  rewrite Prim2SF_100. cbn [SFscaled].
  change (Zpos 7036874417766400) with (100 * 2 ^ 46).
  rewrite <- Z.mul_assoc, <- Z.pow_add_r by lia. reflexivity.
Qed.

(** 100 divided by a finite number above 1 is at most 100. *)
Lemma SFdiv_100_le (mb : positive) (eb : Z) :
  valid_binary (S754_finite false mb eb) = true ->
  2 ^ 1074 < Zpos mb * 2 ^ (eb + 1074) ->
  let r := SFdiv prec emax (Prim2SF 100) (S754_finite false mb eb) in
  SFnonnegOrNaN r = true /\ r <> S754_nan /\ SFrank r <= SFrank (Prim2SF 100).
Proof.
  intros Vb Hlt r. unfold r. clear r.
  pose proof (valid_finite _ _ _ Vb) as (Heb & _).
  rewrite Prim2SF_100.
  set (ma := 7036874417766400%positive). set (ea := -46).
  cbn [SFdiv xorb]. unfold SFdiv_core_binary.
  set (e' := Z.min (fexp prec emax (Zdigits2 (Zpos ma) + ea - (Zdigits2 (Zpos mb) + eb)))
               (ea - eb)).
  pose proof (Zdigits2_pos_bounds (Zpos mb) ltac:(lia)) as (Hdb & _ & Hhib).
  assert (Hd : 1 <= Zdigits2 (Zpos mb) + eb).
  { assert (HXb : 0 < 2 ^ (eb + 1074)) by (apply Z.pow_pos_nonneg; lia).
    assert (H : 2 ^ 1074 < 2 ^ (Zdigits2 (Zpos mb) + (eb + 1074))).
    { rewrite (Z.pow_add_r 2 (Zdigits2 (Zpos mb))) by lia. nia. }
    apply Z.pow_lt_mono_r_iff in H; lia. }
  assert (Hda : Zdigits2 (Zpos ma) = 53) by reflexivity.
  assert (He' : e' <= -46 /\ e' <= ea - eb)
    by (unfold e', fexp, SpecFloat.emin, prec, emax, ea; lia).
  destruct He' as [He1 He2].
  set (m' := match ea - eb - e' with
             | 0 => Zpos ma
             | Zpos _ => Z.shiftl (Zpos ma) (ea - eb - e')
             | Zneg _ => 0
             end).
  assert (Em : m' = Zpos ma * 2 ^ (ea - eb - e')).
  { unfold m'. destruct (ea - eb - e') as [|p|p] eqn:Es; try lia.
    rewrite Z.shiftl_mul_pow2 by lia. reflexivity. }
  rewrite div_eucl_div_mod.
  assert (Hq : 0 <= m' / Zpos mb).
  { apply Z.div_pos; [|lia]. rewrite Em.
    assert (0 < 2 ^ (ea - eb - e')) by (apply Z.pow_pos_nonneg; lia). lia. }
  assert (Hs : 1 * 2 ^ (ea - eb - e') < Zpos mb * 2 ^ (ea - e')).
  { apply (pow2_lt_shift _ _ 1074 (eb + 1074)); unfold ea in *; lia. }
  assert (Hlt' : m' < Zpos mb * (Zpos ma * 2 ^ (ea - e'))).
  { rewrite Em. nia. }
  apply binary_round_aux_le; [exact Hq|reflexivity|unfold ea in *; lia|].
  assert (m' / Zpos mb < Zpos ma * 2 ^ (ea - e'))
    by (apply Z.div_lt_upper_bound; lia).
  fold ma. fold ea. lia.
Qed.

(** A positive number at most 100. *)
Lemma SFpercent_of_scaled (w : spec_float) :
  valid_binary w = true -> SFltb (S754_zero false) w = true ->
  SFscaled w <= SFscaled (Prim2SF 100) -> SFpercent w = true.
Proof.
  intros V Hp Hs.
  assert (N : w <> S754_nan) by (intros E; rewrite E in Hp; discriminate).
  assert (N100 : Prim2SF 100 <> S754_nan) by (rewrite Prim2SF_100; discriminate).
  apply SFpercent_bounded; [exact V| |exact N|].
  - destruct (SFltb_zero_inv _ Hp) as [->|(m & e & ->)]; reflexivity.
  - apply (SFscaled_le_rank w (Prim2SF 100) V (Prim2SF_valid _) N N100). exact Hs.
Qed.

(** [100 - 100 / (1 + rs)] for a relative strength that is not negative. *)
Lemma SFrsi_range (rs : spec_float) :
  valid_binary rs = true -> SFnonnegOrNaN rs = true ->
  valid_binary (SFadd prec emax (Prim2SF 1) rs) = true ->
  valid_binary (SFdiv prec emax (Prim2SF 100) (SFadd prec emax (Prim2SF 1) rs))
    = true ->
  valid_binary
    (SFsub prec emax (Prim2SF 100)
       (SFdiv prec emax (Prim2SF 100) (SFadd prec emax (Prim2SF 1) rs))) = true ->
  SFpercent
    (SFsub prec emax (Prim2SF 100)
       (SFdiv prec emax (Prim2SF 100) (SFadd prec emax (Prim2SF 1) rs))) = true.
Proof.
  intros Vrs Hrs Vy Vz Vw.
  assert (V1 : valid_binary (Prim2SF 1) = true) by apply Prim2SF_valid.
  assert (V100 : valid_binary (Prim2SF 100) = true) by apply Prim2SF_valid.
  assert (N1 : Prim2SF 1 <> S754_nan) by (rewrite Prim2SF_one; discriminate).
  assert (N100 : Prim2SF 100 <> S754_nan) by (rewrite Prim2SF_100; discriminate).
  destruct rs as [s|s| |s m e]; cbn [SFnonnegOrNaN] in Hrs.
  - destruct s; vm_compute; reflexivity.
  - destruct s; [discriminate|]. vm_compute. reflexivity.
  - reflexivity.
  - destruct s; [discriminate|]. cbn [negb] in Hrs.
    revert Vy Vz Vw. rewrite Prim2SF_one in *. intros Vy Vz Vw.
    destruct (SFadd_scaled _ _ _ _ V1 Vrs) as [Sy Py]. cbv zeta in Sy, Py.
    set (y := SFadd prec emax (S754_finite false 4503599627370496 (-52))
                (S754_finite false m e)) in *.
    pose proof (scaled_finite_bounds _ _ _ Vrs) as Brs.
    assert (Hy : 2 ^ 1074 <= SFscaled y).
    { rewrite Sy.
      pose proof (scaled_finite_bounds _ _ _ V1) as B1.
      pose proof (roundZ_finite false 4503599627370496 (-52) V1) as R1.
      assert (E1 : Zpos 4503599627370496 * 2 ^ (-52 + 1074) = 2 ^ 1074)
        by reflexivity.
      rewrite E1 in *. rewrite <- R1 at 1.
      clear R1 E1 Sy. generalize dependent (2 ^ 1074). intros one B1.
      generalize dependent (Zpos m * 2 ^ (e + 1074)). intros v Bv.
      apply roundZ_mono; lia. }
    destruct (SFltb_zero_inv _ Py) as [Ey|(my & ey & Ey)].
    { rewrite Ey. vm_compute. reflexivity. }
    rewrite Ey in *. cbn [SFscaled] in Hy.
    assert (Hcases : 2 ^ 1074 = Zpos my * 2 ^ (ey + 1074)
                     \/ 2 ^ 1074 < Zpos my * 2 ^ (ey + 1074)) by lia.
    destruct Hcases as [Heq|Hgt].
    { assert (Ny : S754_finite false my ey <> S754_nan) by discriminate.
      assert (Hr : SFrank (S754_finite false 4503599627370496 (-52))
                   = SFrank (S754_finite false my ey)).
      { apply (SFscaled_le_rank _ _ V1 Vy N1 Ny). exact Heq. }
      pose proof (SFrank_eq_inv _ _ V1 Vy N1 Ny Hr) as (_ & <- & <-).
      vm_compute. reflexivity. }
    destruct (SFdiv_100_le my ey Vy Hgt) as (Q1 & Q2 & Q3). cbv zeta in Q1, Q2, Q3.
    set (z := SFdiv prec emax (Prim2SF 100) (S754_finite false my ey)) in *.
    destruct z as [sz|sz| |sz mz ez] eqn:Ez; try congruence.
    + destruct sz; vm_compute; reflexivity.
    + exfalso. destruct sz; [discriminate|]. rewrite Prim2SF_100 in Q3.
      cbn [SFrank] in Q3. lia.
    + destruct sz; [discriminate|].
      assert (Hcases : SFrank (S754_finite false mz ez) = SFrank (Prim2SF 100)
                       \/ SFrank (S754_finite false mz ez) < SFrank (Prim2SF 100))
        by lia.
      destruct Hcases as [Heq|Hlt].
      * pose proof (SFrank_eq_inv _ _ Vz V100 Q2 N100 Heq) as Hinv.
        rewrite Prim2SF_100 in Hinv. destruct Hinv as (_ & -> & ->).
        vm_compute. reflexivity.
      * destruct (SFscaled_le_rank _ _ Vz V100 Q2 N100) as (_ & R2 & _).
        pose proof (proj1 R2 Hlt) as Hs.
        pose proof (scaled_finite_bounds _ _ _ Vz) as Bz.
        assert (F100 : SFfinite (Prim2SF 100) = true) by reflexivity.
        pose proof (SFsub_scaled (Prim2SF 100) (S754_finite false mz ez)
                      V100 Vz F100 eq_refl Hs) as Sw.
        apply SFpercent_of_scaled; [exact Vw| |].
        -- apply SFsub_lt_pos; [exact Vz|exact V100|].
           unfold SFltb. rewrite (SFcompare_rank _ _ Vz V100 Q2 N100).
           rewrite (proj2 (Z.compare_lt_iff _ _) Hlt). reflexivity.
        -- rewrite Sw. cbn [SFscaled] in *.
           rewrite Prim2SF_100 in *. cbn [SFscaled] in *.
           rewrite <- (roundZ_finite false 7036874417766400 (-46) V100) at 2.
           apply roundZ_mono; lia.
Qed.

End RSIRange.

Lemma rsi_formula_range (rs : float) :
  SFnonnegOrNaN (Prim2SF rs) = true ->
  percentOrNaN (100 - 100 / (1 + rs)) = true.
Proof.
  intros Hrs. rewrite percentOrNaN_spec.
  pose proof (Prim2SF_valid (1 + rs)) as Vy.
  pose proof (Prim2SF_valid (100 / (1 + rs))) as Vz.
  pose proof (Prim2SF_valid (100 - 100 / (1 + rs))) as Vw.
  rewrite FloatAxioms.sub_spec in *. rewrite FloatAxioms.div_spec in *.
  rewrite FloatAxioms.add_spec in *.
  apply SFrsi_range; try assumption. apply Prim2SF_valid.
Qed.

Lemma add_nonneg (x y : float) :
  nonnegOrNaN x = true -> nonnegOrNaN y = true -> nonnegOrNaN (x + y) = true.
Proof. unfold nonnegOrNaN. rewrite FloatAxioms.add_spec. apply SFadd_nonneg. Qed.

Lemma mul_nonneg (x y : float) :
  nonnegOrNaN x = true -> nonnegOrNaN y = true -> nonnegOrNaN (x * y) = true.
Proof. unfold nonnegOrNaN. rewrite FloatAxioms.mul_spec. apply SFmul_nonneg. Qed.

Lemma div_nonneg (x y : float) :
  nonnegOrNaN x = true -> nonnegOrNaN y = true -> Prim2SF y <> S754_zero true ->
  nonnegOrNaN (x / y) = true.
Proof. unfold nonnegOrNaN. rewrite FloatAxioms.div_spec. apply SFdiv_nonneg. Qed.

(** The conversion of an integer that is not negative. *)
Lemma float64_nonneg (n : Z) :
  (0 <= n)%Z ->
  nonnegOrNaN (float64 n) = true /\ Prim2SF (float64 n) <> S754_zero true.
Proof.
  intros Hn. unfold nonnegOrNaN, float64.
  rewrite (proj2 (Z.ltb_ge n 0)) by lia.
  rewrite of_uint63_spec.
  pose proof (Uint63.to_Z_bounded (Uint63.of_Z n)) as [Hb _].
  destruct (Uint63.to_Z (Uint63.of_Z n)) as [|p|p]; try lia.
  - split; [reflexivity|discriminate].
  - cbn [binary_normalize]. split; [apply binary_round_sign|].
    destruct (binary_round_pos false p 0 ltac:(lia)) as [(m & e & ->)|[-> _]];
      discriminate.
Qed.

Lemma at_nonneg (l : list float) (i : nat) :
  Forall (fun x => nonnegOrNaN x = true) l -> nonnegOrNaN (at_ l i) = true.
Proof.
  intros H. unfold at_. destruct (Nat.lt_ge_cases i (length l)) as [Hi|Hi].
  - rewrite List.Forall_forall in H. apply H. apply nth_In. exact Hi.
  - rewrite nth_overflow by exact Hi. reflexivity.
Qed.

(** No gain and no loss is negative. *)
Lemma gainsLosses_nonneg (prices : list float) :
  Forall (fun x => nonnegOrNaN x = true) (fst (RSICalculator.gainsLosses prices))
  /\ Forall (fun x => nonnegOrNaN x = true)
       (snd (RSICalculator.gainsLosses prices)).
Proof.
  unfold RSICalculator.gainsLosses.
  apply (for_range_inv
           (fun _ st => Forall (fun x => nonnegOrNaN x = true) (fst st)
                        /\ Forall (fun x => nonnegOrNaN x = true) (snd st))).
  - split; constructor.
  - intros c [gains losses] _ [Hg Hl]. cbn [fst snd] in *.
    set (change := (at_ prices (1 + c) - at_ prices (1 + c - 1))%float).
    destruct (change >? 0)%float eqn:E; cbn [fst snd];
      (split; apply Forall_app; split; try assumption; constructor;
       try constructor; try reflexivity).
    + unfold Go.gtb in E. rewrite FloatAxioms.ltb_spec, Prim2SF_zero in E.
      unfold nonnegOrNaN.
      destruct (Prim2SF change) as [s|s| |s m e]; try reflexivity;
        destruct s; try discriminate; reflexivity.
    + unfold Go.gtb in E. rewrite FloatAxioms.ltb_spec, Prim2SF_zero in E.
      unfold nonnegOrNaN. rewrite FloatAxioms.opp_spec.
      destruct (Prim2SF change) as [s|s| |s m e]; try reflexivity;
        destruct s; try discriminate; reflexivity.
Qed.

Lemma percentOrNaN_NaN (x : float) : isNaN x = true -> percentOrNaN x = true.
Proof. intros H. unfold percentOrNaN. rewrite H. reflexivity. Qed.

Lemma NaN_smoothed (a c g d : float) :
  isNaN a = true -> isNaN ((a * c + g) / d) = true.
Proof.
  intros Ha. apply isNaN_spec in Ha. apply isNaN_spec.
  rewrite FloatAxioms.div_spec, FloatAxioms.add_spec, FloatAxioms.mul_spec, Ha.
  reflexivity.
Qed.

(** The last step of [Calculate], from averages that are not negative. *)
Lemma rsi_result_range (avgGain avgLoss : float) :
  nonnegOrNaN avgGain = true -> nonnegOrNaN avgLoss = true ->
  percentOrNaN
    (if (avgLoss =? 0)%float then 100%float
     else (100 - 100 / (1 + avgGain / avgLoss))%float) = true.
Proof.
  intros Hg Hl. destruct (avgLoss =? 0)%float eqn:E; [reflexivity|].
  apply rsi_formula_range. apply div_nonneg; try assumption.
  intros Hz. rewrite FloatAxioms.eqb_spec, Hz in E. discriminate.
Qed.

(** X11: for every price series (any binary64 values) and every period, the
    RSI that Calculate returns is a NaN or lies within [0, 100]. *)
Theorem RSI_Calculate_range : forall (prices : list float) (period : nat),
  percentOrNaN (RSICalculator.Calculate prices period) = true.
Proof.
  intros prices period. unfold RSICalculator.Calculate.
  destruct (length prices <? period + 1)%nat; [reflexivity|].
  pose proof (gainsLosses_nonneg prices) as [Hg Hl].
  destruct (RSICalculator.gainsLosses prices) as [gains losses].
  cbn [fst snd] in Hg, Hl.
  destruct (length gains <? period)%nat; [reflexivity|].
  destruct period as [|p].
  - cbn [for_range].
    set (st := for_range _ _ _ _).
    assert (Hst : isNaN (fst st) = true /\ isNaN (snd st) = true).
    { unfold st.
      apply (for_range_inv
               (fun _ st => isNaN (fst st) = true /\ isNaN (snd st) = true)).
      - cbn [fst snd]. split; reflexivity.
      - intros c [a b] _ [Ha Hb]. cbn [fst snd] in *.
        split; apply NaN_smoothed; assumption. }
    destruct st as [avgGain avgLoss]. cbn [fst snd] in Hst.
    destruct Hst as [HG HL].
    apply rsi_result_range; unfold nonnegOrNaN.
    + apply isNaN_spec in HG. rewrite HG. reflexivity.
    + apply isNaN_spec in HL. rewrite HL. reflexivity.
  - destruct (float64_nonneg (Z.of_nat (S p)) ltac:(lia)) as [F1 F2].
    destruct (float64_nonneg (Z.of_nat (S p) - 1) ltac:(lia)) as [G1 _].
    set (sums := for_range (S p) 0 _ (0%float, 0%float)).
    assert (Hsums : nonnegOrNaN (fst sums) = true
                    /\ nonnegOrNaN (snd sums) = true).
    { unfold sums.
      apply (for_range_inv
               (fun _ st => nonnegOrNaN (fst st) = true
                            /\ nonnegOrNaN (snd st) = true)).
      - split; reflexivity.
      - intros c [a b] _ [Ha Hb]. cbn [fst snd] in *.
        split; apply add_nonneg; try assumption; apply at_nonneg; assumption. }
    destruct sums as [sumGain sumLoss]. cbn [fst snd] in Hsums.
    destruct Hsums as [HsG HsL].
    set (st := for_range _ _ _ _).
    assert (Hst : nonnegOrNaN (fst st) = true /\ nonnegOrNaN (snd st) = true).
    { unfold st.
      apply (for_range_inv
               (fun _ st => nonnegOrNaN (fst st) = true
                            /\ nonnegOrNaN (snd st) = true)).
      - cbn [fst snd]. split; apply div_nonneg; assumption.
      - intros c [a b] _ [Ha Hb]. cbn [fst snd] in *.
        split; (apply div_nonneg; [|assumption|assumption]);
          (apply add_nonneg; [|apply at_nonneg; assumption]);
          apply mul_nonneg; assumption. }
    destruct st as [avgGain avgLoss]. cbn [fst snd] in Hst.
    destruct Hst as [HG HL].
    apply rsi_result_range; assumption.
Qed.

(** * The configuration *)

Section Configuration.
Local Open Scope string_scope.

(** X12: LoadConfig fails exactly when the API key is not set or a numeric
    variable (WORKER_COUNT, REQUEST_DELAY_SECONDS, OUTPUT_SIZE) is set to a
    text Atoi rejects.  When it succeeds the key is the one of the
    environment, each numeric setting is the integer read from its variable
    (the delay that many seconds as an int64 of nanoseconds) or its default
    when the variable is not set (5 workers, 2 seconds, 200 candles), the
    URL and the stocks file are the values set or their defaults, and
    GetOptimalWorkerCount lies within [1, 10]. *)
Theorem LoadConfig_outcome :
  forall (Getenv : string -> string) (Atoi : string -> Z + string),
  let unset v := String.eqb (Getenv v) "" in
  let rejected v :=
    negb (unset v)
    && match Atoi (Getenv v) with inr _ => true | inl _ => false end in
  match Config.LoadConfig Getenv Atoi with
  | inr _ =>
      unset "ALPHA_VANTAGE_API_KEY" || rejected "WORKER_COUNT"
      || rejected "REQUEST_DELAY_SECONDS" || rejected "OUTPUT_SIZE" = true
  | inl c =>
      unset "ALPHA_VANTAGE_API_KEY" = false
      /\ rejected "WORKER_COUNT" = false
      /\ rejected "REQUEST_DELAY_SECONDS" = false
      /\ rejected "OUTPUT_SIZE" = false
      /\ Config.APIKey c = Getenv "ALPHA_VANTAGE_API_KEY"
      /\ (1 <= Config.GetOptimalWorkerCount c <= 10)%Z
      /\ (if unset "WORKER_COUNT" then Config.WorkerCount c = 5%Z
          else Atoi (Getenv "WORKER_COUNT") = inl (Config.WorkerCount c))
      /\ (if unset "REQUEST_DELAY_SECONDS"
          then Config.RequestDelay c = (2 * Config.Second)%Z
          else exists seconds,
                 Atoi (Getenv "REQUEST_DELAY_SECONDS") = inl seconds
                 /\ Config.RequestDelay c
                    = Config.int64 (seconds * Config.Second))
      /\ (if unset "OUTPUT_SIZE" then Config.OutputSize c = 200%Z
          else Atoi (Getenv "OUTPUT_SIZE") = inl (Config.OutputSize c))
      /\ Config.APIURL c
         = (if unset "ALPHA_VANTAGE_API_URL"
            then "https://www.alphavantage.co/query"%string
            else Getenv "ALPHA_VANTAGE_API_URL")
      /\ Config.StocksFile c
         = (if unset "STOCKS_FILE" then "dist/Stocks.json"%string
            else Getenv "STOCKS_FILE")
  end.
Proof.
  intros Getenv Atoi unset rejected.
  unfold Config.LoadConfig, rejected, unset, Config.GetOptimalWorkerCount.
  destruct (String.eqb (Getenv "ALPHA_VANTAGE_API_KEY") "");
    [reflexivity|].
  destruct (String.eqb (Getenv "ALPHA_VANTAGE_API_URL") "");
  destruct (String.eqb (Getenv "STOCKS_FILE") "");
  destruct (String.eqb (Getenv "WORKER_COUNT") "");
  destruct (Atoi (Getenv "WORKER_COUNT")) as [wc|e1];
  destruct (String.eqb (Getenv "REQUEST_DELAY_SECONDS") "");
  destruct (Atoi (Getenv "REQUEST_DELAY_SECONDS")) as [dl|e2];
  destruct (String.eqb (Getenv "OUTPUT_SIZE") "");
  destruct (Atoi (Getenv "OUTPUT_SIZE")) as [o|e3];
  cbn; try reflexivity;
  repeat split; try reflexivity; try (eexists; split; reflexivity);
  try lia;
  try (destruct (Z.gtb_spec wc 10); [lia|]; destruct (Z.ltb_spec wc 1); lia).
Qed.

End Configuration.

(** * The EMA levels *)

(** X13: when none of the four EMAs is a NaN, the support level getLowestEMA
    returns and the resistance level getHighestEMA returns are among the
    four, and every one of the four lies between them: the support is the
    lowest and the resistance the highest. *)
Theorem EMA_levels_are_extrema :
  forall ema20 ema50 ema100 ema200 : float,
  isNaN ema20 = false -> isNaN ema50 = false ->
  isNaN ema100 = false -> isNaN ema200 = false ->
  let emaSupport :=
    CandlestickPatternDetector.getLowestEMA ema20 ema50 ema100 ema200 in
  let emaResistance :=
    CandlestickPatternDetector.getHighestEMA ema20 ema50 ema100 ema200 in
  In emaSupport [ema20; ema50; ema100; ema200]
  /\ In emaResistance [ema20; ema50; ema100; ema200]
  /\ forall ema, In ema [ema20; ema50; ema100; ema200] ->
       (emaSupport <=? ema)%float = true
       /\ (ema <=? emaResistance)%float = true.
Proof.
  intros e20 e50 e100 e200 N20 N50 N100 N200.
  unfold CandlestickPatternDetector.getLowestEMA,
    CandlestickPatternDetector.getHighestEMA, Go.gtb.
  cbv zeta.
  assert (Hle : forall x y, isNaN x = false -> isNaN y = false ->
                            (rank x <= rank y)%Z -> (x <=? y)%float = true).
  { intros x y Hx Hy H. apply leb_rank. auto. }
  assert (Hlt : forall x y, (x <? y)%float = true -> (rank x < rank y)%Z).
  { intros x y H. apply ltb_rank in H. tauto. }
  assert (Hge : forall x y, isNaN x = false -> isNaN y = false ->
                            (x <? y)%float = false -> (rank y <= rank x)%Z).
  { intros x y Hx Hy H. apply ltb_false_rank; assumption. }
  split; [|split].
  - destruct (e50 <? e20)%float;
      [destruct (e100 <? e50)%float|destruct (e100 <? e20)%float];
      match goal with
      | |- context [(e200 <? ?x)%float] => destruct (e200 <? x)%float
      end; cbn [In]; tauto.
  - destruct (e20 <? e50)%float;
      [destruct (e50 <? e100)%float|destruct (e20 <? e100)%float];
      match goal with
      | |- context [(?x <? e200)%float] => destruct (x <? e200)%float
      end; cbn [In]; tauto.
  - intros ema Hin.
    assert (Nema : isNaN ema = false)
      by (cbn [In] in Hin; destruct Hin as [<-|[<-|[<-|[<-|[]]]]]; assumption).
    split.
    + destruct (e50 <? e20)%float eqn:E1;
        [destruct (e100 <? e50)%float eqn:E2
        |destruct (e100 <? e20)%float eqn:E2];
        match goal with
        | |- context [(e200 <? ?x)%float] => destruct (e200 <? x)%float eqn:E3
        end;
        repeat match goal with
               | H : (_ <? _)%float = true |- _ => apply Hlt in H
               | H : (_ <? _)%float = false |- _ => apply Hge in H; [|assumption..]
               end;
        apply Hle; try assumption;
        cbn [In] in Hin; destruct Hin as [<-|[<-|[<-|[<-|[]]]]]; lia.
    + destruct (e20 <? e50)%float eqn:E1;
        [destruct (e50 <? e100)%float eqn:E2
        |destruct (e20 <? e100)%float eqn:E2];
        match goal with
        | |- context [(?x <? e200)%float] => destruct (x <? e200)%float eqn:E3
        end;
        repeat match goal with
               | H : (_ <? _)%float = true |- _ => apply Hlt in H
               | H : (_ <? _)%float = false |- _ => apply Hge in H; [|assumption..]
               end;
        apply Hle; try assumption;
        cbn [In] in Hin; destruct Hin as [<-|[<-|[<-|[<-|[]]]]]; lia.
Qed.

Lemma EMA_levels_are_extrema_witness :
  let emaSupport := CandlestickPatternDetector.getLowestEMA 3 1 4 2 in
  let emaResistance := CandlestickPatternDetector.getHighestEMA 3 1 4 2 in
  In emaSupport [3; 1; 4; 2]%float
  /\ In emaResistance [3; 1; 4; 2]%float
  /\ forall ema, In ema [3; 1; 4; 2]%float ->
       (emaSupport <=? ema)%float = true
       /\ (ema <=? emaResistance)%float = true.
Proof.
  apply (EMA_levels_are_extrema 3 1 4 2); reflexivity.
Defined.

(** X14: on fewer than 100 prices the EMAs of the periods 100 and 200 are
    both the sentinel 0, so neither ValidateTrend nor ValidateDowntrend
    holds: the last comparison of each is between two zeros. *)
Theorem EMA_short_series :
  forall prices : list float,
  length prices < 100 ->
  EMACalculator.Calculate prices 100 = 0%float
  /\ EMACalculator.Calculate prices 200 = 0%float
  /\ EMACalculator.ValidateTrend prices = false
  /\ EMACalculator.ValidateDowntrend prices = false.
Proof.
  intros prices Hlen.
  assert (E100 : EMACalculator.Calculate prices 100 = 0%float).
  { unfold EMACalculator.Calculate.
    rewrite (proj2 (Nat.ltb_lt _ _)) by lia. reflexivity. }
  assert (E200 : EMACalculator.Calculate prices 200 = 0%float).
  { unfold EMACalculator.Calculate.
    rewrite (proj2 (Nat.ltb_lt _ _)) by lia. reflexivity. }
  split; [exact E100|]. split; [exact E200|].
  unfold EMACalculator.ValidateTrend, EMACalculator.ValidateDowntrend.
  cbv zeta. rewrite E100, E200.
  change (0 >? 0)%float with false. change (0 <? 0)%float with false.
  rewrite !andb_false_r. split; reflexivity.
Qed.

Lemma EMA_short_series_witness :
  EMACalculator.Calculate Examples.fallingPrices 100 = 0%float
  /\ EMACalculator.Calculate Examples.fallingPrices 200 = 0%float
  /\ EMACalculator.ValidateTrend Examples.fallingPrices = false
  /\ EMACalculator.ValidateDowntrend Examples.fallingPrices = false.
Proof.
  apply (EMA_short_series Examples.fallingPrices). vm_compute. lia.
Defined.

(** * The sign of the EMA *)

Section EMASign.
Local Open Scope Z_scope.

Lemma Prim2SF_two : Prim2SF 2 = S754_finite false 4503599627370496 (-51).
Proof. reflexivity. Qed.

(** 1 minus a number between 0 and 1 is not negative. *)
Lemma SFone_minus_nonneg (q : spec_float) :
  valid_binary q = true -> SFnonnegOrNaN q = true -> q <> S754_nan ->
  SFrank q <= SFrank (Prim2SF 1) ->
  SFnonnegOrNaN (SFsub prec emax (Prim2SF 1) q) = true.
Proof.
  intros Vq Sq Nq Rq.
  assert (V1 : valid_binary (Prim2SF 1) = true) by apply Prim2SF_valid.
  assert (N1 : Prim2SF 1 <> S754_nan) by (rewrite Prim2SF_one; discriminate).
  destruct q as [s|s| |s m e]; try congruence.
  - destruct s; reflexivity.
  - exfalso. destruct s; [discriminate|]. rewrite Prim2SF_one in Rq.
    cbn [SFrank] in Rq. lia.
  - destruct s; [discriminate|].
    assert (Hcases : SFrank (S754_finite false m e) = SFrank (Prim2SF 1)
                     \/ SFrank (S754_finite false m e) < SFrank (Prim2SF 1))
      by lia.
    destruct Hcases as [Heq|Hlt].
    + pose proof (SFrank_eq_inv _ _ Vq V1 Nq N1 Heq) as Hinv.
      rewrite Prim2SF_one in Hinv. destruct Hinv as (_ & -> & ->). reflexivity.
    + assert (Hp : SFltb (S754_zero false)
                     (SFsub prec emax (Prim2SF 1) (S754_finite false m e)) = true).
      { apply SFsub_lt_pos; [exact Vq|exact V1|].
        unfold SFltb. rewrite (SFcompare_rank _ _ Vq V1 Nq N1).
        rewrite (proj2 (Z.compare_lt_iff _ _) Hlt). reflexivity. }
      destruct (SFltb_zero_inv _ Hp) as [->|(m' & e' & ->)]; reflexivity.
Qed.

(** The smoothing factor [2 / (n + 1)] of a number [n] that is at least 1,
    and what is left of 1. *)
Lemma SFmultiplier_range (mf : positive) (ef : Z) :
  let f := S754_finite false mf ef in
  let d := SFadd prec emax f (Prim2SF 1) in
  let q := SFdiv prec emax (Prim2SF 2) d in
  valid_binary f = true -> 2 ^ 1074 <= Zpos mf * 2 ^ (ef + 1074) ->
  valid_binary d = true -> valid_binary q = true ->
  SFnonnegOrNaN q = true
  /\ SFnonnegOrNaN (SFsub prec emax (Prim2SF 1) q) = true.
Proof.
  intros f d q. unfold q, d, f. clear q d f.
  assert (V1 : valid_binary (Prim2SF 1) = true) by apply Prim2SF_valid.
  assert (V2 : valid_binary (Prim2SF 2) = true) by apply Prim2SF_valid.
  assert (N2 : Prim2SF 2 <> S754_nan) by (rewrite Prim2SF_two; discriminate).
  rewrite Prim2SF_one in *.
  intros Vf Hf Vd Vq.
  destruct (SFadd_scaled _ _ _ _ Vf V1) as [Sd Pd]. cbv zeta in Sd, Pd.
  set (d := SFadd prec emax (S754_finite false mf ef)
              (S754_finite false 4503599627370496 (-52))) in *.
  assert (E1 : Zpos 4503599627370496 * 2 ^ (-52 + 1074) = 2 ^ 1074)
    by reflexivity.
  assert (E2 : 2 * 2 ^ 1074 = 2 ^ 1075) by reflexivity.
  assert (Hd : 2 ^ 1075 <= SFscaled d).
  { rewrite Sd, E1, <- E2. rewrite <- (roundZ_small 2) at 1 by (split; reflexivity).
    pose proof (scaled_finite_bounds _ _ _ Vf) as Bf.
    assert (H1 : 0 < 2 ^ 1074) by (apply Z.pow_pos_nonneg; lia).
    clear - Hf Bf H1. generalize dependent (Zpos mf * 2 ^ (ef + 1074)).
    generalize dependent (2 ^ 1074). intros one H1 v Hv Bv.
    apply roundZ_mono; lia. }
  destruct (SFltb_zero_inv _ Pd) as [Ed|(md & ed & Ed)].
  { rewrite Ed. rewrite Prim2SF_two. split; reflexivity. }
  rewrite Ed in *. cbn [SFscaled] in Hd.
  assert (Nd : S754_finite false md ed <> S754_nan) by discriminate.
  assert (S2 : SFscaled (Prim2SF 2) = 2 ^ 1075) by reflexivity.
  assert (Hcases : 2 ^ 1075 = Zpos md * 2 ^ (ed + 1074)
                   \/ 2 ^ 1075 < Zpos md * 2 ^ (ed + 1074)) by lia.
  destruct Hcases as [Heq|Hgt].
  { assert (Hr : SFrank (Prim2SF 2) = SFrank (S754_finite false md ed)).
    { apply (SFscaled_le_rank _ _ V2 Vd N2 Nd). rewrite S2. exact Heq. }
    pose proof (SFrank_eq_inv _ _ V2 Vd N2 Nd Hr) as Hinv.
    rewrite Prim2SF_two in Hinv. destruct Hinv as (_ & <- & <-).
    rewrite Prim2SF_two. split; reflexivity. }
  revert Vq. rewrite Prim2SF_two in *. intros Vq.
  assert (Hlt : Zpos 4503599627370496 * 2 ^ (-51 + 1074)
                < Zpos md * 2 ^ (ed + 1074)).
  { change (Zpos 4503599627370496 * 2 ^ (-51 + 1074)) with (2 ^ 1075). exact Hgt. }
  destruct (SFdiv_le_one _ _ _ _ V2 Vd Hlt) as (Q1 & Q2 & Q3).
  cbv zeta in Q1, Q2, Q3.
  split; [exact Q1|].
  rewrite <- Prim2SF_one.
  apply SFone_minus_nonneg; assumption.
Qed.

End EMASign.

(** A NaN, or a number that is not negative. *)
Lemma nonnegOrNaN_spec (x : float) :
  nonnegOrNaN x = isNaN x || (0 <=? x)%float.
Proof.
  unfold nonnegOrNaN. rewrite FloatAxioms.leb_spec, Prim2SF_zero.
  destruct (isNaN x) eqn:En.
  - apply isNaN_spec in En. rewrite En. reflexivity.
  - apply isNaN_false in En.
    destruct (Prim2SF x) as [s|s| |s m e]; try congruence;
      destruct s; reflexivity.
Qed.

(** The conversion of a positive integer is at least 1. *)
Lemma float64_ge_one (n : Z) :
  (0 < n < 2 ^ 63)%Z ->
  exists m e, Prim2SF (float64 n) = S754_finite false m e
              /\ (2 ^ 1074 <= Zpos m * 2 ^ (e + 1074))%Z.
Proof.
  intros Hn. destruct (float64_pos n Hn) as (m & e & E).
  exists m, e. split; [exact E|].
  revert E. unfold float64.
  rewrite (proj2 (Z.ltb_ge n 0)) by lia.
  rewrite of_uint63_spec, Uint63.of_Z_spec.
  rewrite Z.mod_small by (change wB with (2 ^ 63)%Z; lia).
  destruct n as [|p|p]; try lia. cbn [binary_normalize].
  destruct (binary_round_scaled p 0 ltac:(lia)) as [Hs _].
  intros E. rewrite E in Hs. cbn [SFscaled] in Hs. rewrite Hs.
  rewrite Z.add_0_l.
  rewrite <- (roundZ_small 1) at 1 by (split; reflexivity).
  assert (0 < 2 ^ 1074)%Z by (apply Z.pow_pos_nonneg; lia).
  apply roundZ_mono; nia.
Qed.

(** The two weights of the EMA recurrence are not negative. *)
Lemma multiplier_range (n : Z) :
  (0 < n < 2 ^ 63)%Z ->
  nonnegOrNaN (2 / (float64 n + 1)) = true
  /\ nonnegOrNaN (1 - 2 / (float64 n + 1)) = true.
Proof.
  intros Hn. destruct (float64_ge_one n Hn) as (m & e & E & Hge).
  unfold nonnegOrNaN.
  pose proof (Prim2SF_valid (float64 n)) as Vf.
  pose proof (Prim2SF_valid (float64 n + 1)) as Vd.
  pose proof (Prim2SF_valid (2 / (float64 n + 1))) as Vq.
  rewrite FloatAxioms.sub_spec. rewrite FloatAxioms.div_spec in *.
  rewrite FloatAxioms.add_spec in *. rewrite E in *.
  apply SFmultiplier_range; assumption.
Qed.

(** X15: the EMA of prices none of which is negative is never negative: for
    every period (a Go int, below 2^63) and every series whose prices are
    each a NaN or at least 0, the value Calculate returns is a NaN or at
    least 0. *)
Theorem EMA_Calculate_nonneg :
  forall (prices : list float) (period : nat),
  (Z.of_nat period < 2 ^ 63)%Z ->
  forallb (fun price => isNaN price || (0 <=? price)%float) prices = true ->
  let ema := EMACalculator.Calculate prices period in
  isNaN ema || (0 <=? ema)%float = true.
Proof.
  intros prices period Hp Hall. cbv zeta. rewrite <- nonnegOrNaN_spec.
  assert (Hprices : Forall (fun x => nonnegOrNaN x = true) prices).
  { apply List.Forall_forall. intros x Hx.
    rewrite forallb_forall in Hall. rewrite nonnegOrNaN_spec. apply Hall, Hx. }
  unfold EMACalculator.Calculate.
  destruct (length prices <? period)%nat; [reflexivity|].
  cbv zeta.
  destruct period as [|p].
  - cbn [for_range].
    assert (H : isNaN
                  (for_range (length prices - 0) 0
                     (fun i ema =>
                        (at_ prices i * (2.0 / (float64 (Z.of_nat 0) + 1.0))
                         + ema * (1 - 2.0 / (float64 (Z.of_nat 0) + 1.0)))%float)
                     (0 / float64 (Z.of_nat 0))%float) = true).
    { apply (for_range_inv (fun _ ema => isNaN ema = true)).
      - reflexivity.
      - intros c ema _ Hema. apply isNaN_spec in Hema. apply isNaN_spec.
        rewrite FloatAxioms.add_spec, (FloatAxioms.mul_spec ema), Hema.
        unfold SF64mul, SF64add. cbn [SFmul].
        match goal with
        | |- SFadd _ _ ?a _ = _ => destruct a; reflexivity
        end. }
    rewrite nonnegOrNaN_spec, H. reflexivity.
  - destruct (multiplier_range (Z.of_nat (S p)) ltac:(lia)) as [M1 M2].
    destruct (float64_nonneg (Z.of_nat (S p)) ltac:(lia)) as [F1 F2].
    change 2.0%float with 2%float. change 1.0%float with 1%float.
    apply (for_range_inv (fun _ ema => nonnegOrNaN ema = true)).
    + apply div_nonneg; [|exact F1|exact F2].
      apply (for_range_inv (fun _ sum => nonnegOrNaN sum = true)).
      * reflexivity.
      * intros c sum _ Hsum. apply add_nonneg; [exact Hsum|].
        apply at_nonneg. exact Hprices.
    + intros c ema _ Hema. apply add_nonneg.
      * apply mul_nonneg; [apply at_nonneg; exact Hprices|exact M1].
      * apply mul_nonneg; [exact Hema|exact M2].
Qed.

Lemma EMA_Calculate_nonneg_witness :
  let ema := EMACalculator.Calculate Examples.trendCloses 20 in
  isNaN ema || (0 <=? ema)%float = true.
Proof.
  apply (EMA_Calculate_nonneg Examples.trendCloses 20).
  - reflexivity.
  - vm_compute. reflexivity.
Defined.

(** * The range of the Stochastic RSI *)

Section Quotients.
Local Open Scope Z_scope.

(** A multiple of [2^n] is shifted by [n] without rounding. *)
Lemma rne_multiple (M n : Z) : 0 <= n -> rne (M * 2 ^ n) n = M.
Proof.
  intros Hn. replace n with (0 + n) at 2 by lia. rewrite rne_shift by lia.
  unfold rne. simpl (2 ^ 0). rewrite Z.mod_1_r, Z.div_1_r. reflexivity.
Qed.

(** The rounding of an exact mantissa whose value is at most a number of the
    format gives at most that number. *)
Lemma binary_round_aux_le_exact (m e : Z) (mB : positive) (eB : Z) :
  0 <= m -> valid_binary (S754_finite false mB eB) = true ->
  e <= eB -> m <= Zpos mB * 2 ^ (eB - e) ->
  SFnonnegOrNaN (binary_round_aux prec emax false m e loc_Exact) = true
  /\ binary_round_aux prec emax false m e loc_Exact <> S754_nan
  /\ SFrank (binary_round_aux prec emax false m e loc_Exact)
     <= SFrank (S754_finite false mB eB).
Proof.
  intros Hm VB He Hle.
  pose proof (valid_finite _ _ _ VB) as (HeB & _).
  pose proof (finite_mantissa_bounds _ _ _ VB) as [HmB _].
  unfold binary_round_aux.
  rewrite shr_fexp_exact by exact Hm.
  pose proof (shr_under_bound m e mB eB Hm VB He Hle) as (B1 & B2 & _ & _).
  cbv zeta in B1, B2.
  set (n := Z.max 0 (fexp prec emax (Zdigits2 m + e) - e)) in *.
  assert (Hn : 0 <= n) by (unfold n; lia).
  rewrite rne_shifted by assumption.
  pose proof (rne_bounds m n) as Hr.
  set (m1 := rne m n) in *.
  assert (Hq : 0 <= m / 2 ^ n)
    by (apply Z.div_pos; [lia|apply Z.pow_pos_nonneg; lia]).
  assert (Hm1 : 0 <= m1) by lia.
  assert (Hm1B : m1 <= Zpos mB * 2 ^ (eB - (e + n))).
  { unfold m1. rewrite <- (rne_multiple (Zpos mB * 2 ^ (eB - (e + n))) n Hn).
    apply rne_mono; [exact Hn|].
    rewrite <- Z.mul_assoc, <- Z.pow_add_r by lia.
    replace (eB - (e + n) + n) with (eB - e) by lia. exact Hle. }
  pose proof (shr_fexp_m m1 (e + n) loc_Exact Hm1) as [F1 F2].
  pose proof (shr_under_bound m1 (e + n) mB eB Hm1 VB B1 Hm1B)
    as (C1 & C2 & _ & C4).
  cbv zeta in C1, C2, C4.
  destruct (shr_fexp prec emax m1 (e + n) loc_Exact) as [mrs'' e''].
  cbn [fst snd] in F1, F2.
  set (n2 := Z.max 0 (fexp prec emax (Zdigits2 m1 + (e + n)) - (e + n))) in *.
  rewrite F1. rewrite F2 in *.
  assert (Hq2 : 0 <= m1 / 2 ^ n2)
    by (apply Z.div_pos; [lia|apply Z.pow_pos_nonneg; unfold n2; lia]).
  destruct (m1 / 2 ^ n2) as [|p|p] eqn:Ep; try lia.
  - cbn [SFnonnegOrNaN SFrank]. split; [reflexivity|]. split; [discriminate|]. lia.
  - rewrite (proj2 (Z.leb_le (e + n + n2) (emax - prec)))
      by (unfold emax, prec; lia).
    cbn [SFnonnegOrNaN SFrank negb]. split; [reflexivity|]. split; [discriminate|].
    destruct (Z.eq_dec (e + n + n2) eB) as [Ee|Ee].
    + rewrite Ee in *. rewrite Z.sub_diag in C2. simpl (2 ^ 0) in C2. lia.
    + nia.
Qed.

(** An inequality between two scaled integers does not depend on the common
    part of the two shifts. *)
Lemma pow2_le_shift (A B x y x' y' : Z) :
  0 <= x -> 0 <= y -> 0 <= x' -> 0 <= y' -> x - y = x' - y' ->
  A * 2 ^ x <= B * 2 ^ y -> A * 2 ^ x' <= B * 2 ^ y'.
Proof.
  intros Hx Hy Hx' Hy' E H.
  destruct (Z_le_gt_dec x x') as [Hle|Hgt].
  - replace x' with (x + (x' - x)) by lia. replace y' with (y + (x' - x)) by lia.
    rewrite !Z.pow_add_r by lia.
    assert (0 < 2 ^ (x' - x)) by (apply Z.pow_pos_nonneg; lia). nia.
  - replace x with (x' + (x - x')) in H by lia.
    replace y with (y' + (x - x')) in H by lia.
    rewrite !Z.pow_add_r in H by lia.
    assert (0 < 2 ^ (x - x')) by (apply Z.pow_pos_nonneg; lia). nia.
Qed.

(** The quotient of two positive numbers is at most a number of the format
    that the exact quotient does not exceed. *)
Lemma SFdiv_le_bound (ma mb mB : positive) (ea eb eB : Z) :
  valid_binary (S754_finite false ma ea) = true ->
  valid_binary (S754_finite false mb eb) = true ->
  valid_binary (S754_finite false mB eB) = true ->
  Zpos ma * 2 ^ (ea + 1074) * 2 ^ 1074
  <= (Zpos mB * 2 ^ (eB + 1074)) * (Zpos mb * 2 ^ (eb + 1074)) ->
  let r := SFdiv prec emax (S754_finite false ma ea) (S754_finite false mb eb) in
  SFnonnegOrNaN r = true /\ r <> S754_nan
  /\ SFrank r <= SFrank (S754_finite false mB eB).
Proof.
  intros Va Vb VB Hle r. unfold r. clear r.
  pose proof (valid_finite _ _ _ Va) as (Hea & _).
  pose proof (valid_finite _ _ _ Vb) as (Heb & _).
  pose proof (valid_finite _ _ _ VB) as (HeB & HdB & HnB).
  change (Zpos (digits2_pos mB)) with (Zdigits2 (Zpos mB)) in HdB, HnB.
  assert (H0 : Zpos ma * 2 ^ (ea + 2148)
               <= (Zpos mB * Zpos mb) * 2 ^ (eB + eb + 2148)).
  { replace (ea + 2148) with ((ea + 1074) + 1074) by lia.
    replace (eB + eb + 2148) with ((eB + 1074) + (eb + 1074)) by lia.
    rewrite (Z.pow_add_r 2 (ea + 1074) 1074) by lia.
    rewrite (Z.pow_add_r 2 (eB + 1074) (eb + 1074)) by lia.
    revert Hle. generalize (2 ^ (ea + 1074)) (2 ^ 1074) (2 ^ (eB + 1074))
      (2 ^ (eb + 1074)). intros a b c d Hle.
    replace (Zpos ma * (a * b)) with (Zpos ma * a * b) by ring.
    replace (Zpos mB * Zpos mb * (c * d)) with (Zpos mB * c * (Zpos mb * d))
      by ring.
    exact Hle. }
  cbn [SFdiv xorb]. unfold SFdiv_core_binary.
  set (e' := Z.min (fexp prec emax (Zdigits2 (Zpos ma) + ea - (Zdigits2 (Zpos mb) + eb)))
               (ea - eb)).
  pose proof (Zdigits2_pos_bounds (Zpos ma) ltac:(lia)) as (Hda & Hloa & _).
  pose proof (Zdigits2_pos_bounds (Zpos mb) ltac:(lia)) as (Hdb & _ & Hhib).
  pose proof (Zdigits2_pos_bounds (Zpos mB) ltac:(lia)) as (HdB0 & _ & HhiB).
  assert (Hd : Zdigits2 (Zpos ma) + ea - (Zdigits2 (Zpos mb) + eb)
               <= Zdigits2 (Zpos mB) + eB).
  { assert (HXa : 0 < 2 ^ (ea + 2148)) by (apply Z.pow_pos_nonneg; lia).
    assert (HXb : 0 < 2 ^ (eB + eb + 2148)) by (apply Z.pow_pos_nonneg; lia).
    assert (H : 2 ^ (Zdigits2 (Zpos ma) - 1 + (ea + 2148))
                < 2 ^ (Zdigits2 (Zpos mB) + Zdigits2 (Zpos mb) + (eB + eb + 2148))).
    { rewrite (Z.pow_add_r 2 (Zdigits2 (Zpos ma) - 1)) by lia.
      rewrite (Z.pow_add_r 2 (Zdigits2 (Zpos mB) + Zdigits2 (Zpos mb))) by lia.
      rewrite (Z.pow_add_r 2 (Zdigits2 (Zpos mB))) by lia.
      assert (Zpos mB * Zpos mb
              < 2 ^ Zdigits2 (Zpos mB) * 2 ^ Zdigits2 (Zpos mb)) by nia.
      nia. }
    apply Z.pow_lt_mono_r_iff in H; [|lia|lia]. lia. }
  assert (He' : e' <= eB /\ e' <= ea - eb).
  { unfold e', fexp, SpecFloat.emin, prec, emax in *.
    destruct (Z.eq_dec eB (-1074)); [lia|]. specialize (HnB ltac:(lia)). lia. }
  destruct He' as [He1 He2].
  set (m' := match ea - eb - e' with
             | 0 => Zpos ma
             | Zpos _ => Z.shiftl (Zpos ma) (ea - eb - e')
             | Zneg _ => 0
             end).
  assert (Em : m' = Zpos ma * 2 ^ (ea - eb - e')).
  { unfold m'. destruct (ea - eb - e') as [|p|p] eqn:Es; try lia.
    rewrite Z.shiftl_mul_pow2 by lia. reflexivity. }
  rewrite div_eucl_div_mod.
  assert (Hm' : 0 <= m').
  { rewrite Em.
    assert (0 < 2 ^ (ea - eb - e')) by (apply Z.pow_pos_nonneg; lia). lia. }
  assert (Hq : 0 <= m' / Zpos mb) by (apply Z.div_pos; lia).
  assert (Hb : m' <= (Zpos mB * Zpos mb) * 2 ^ (eB - e')).
  { rewrite Em.
    apply (pow2_le_shift _ _ (ea + 2148) (eB + eb + 2148)); lia. }
  pose proof (Z.div_mod m' (Zpos mb) ltac:(lia)) as Hdm.
  pose proof (Z.mod_pos_bound m' (Zpos mb) ltac:(lia)) as Hmod.
  destruct (Z.eq_dec (m' mod Zpos mb) 0) as [E0|E0].
  - rewrite E0, new_location_0.
    apply binary_round_aux_le_exact; [exact Hq|exact VB|exact He1|].
    set (q := m' / Zpos mb) in *. set (X := 2 ^ (eB - e')) in *.
    assert (0 < X) by (apply Z.pow_pos_nonneg; lia). nia.
  - apply binary_round_aux_le; [exact Hq|exact VB|exact He1|].
    set (q := m' / Zpos mb) in *. set (X := 2 ^ (eB - e')) in *.
    assert (0 < X) by (apply Z.pow_pos_nonneg; lia). nia.
Qed.


(** A number within [0, c], for an integer [c]. *)
Lemma SFadd_within (s x : spec_float) (c : Z) :
  valid_binary s = true -> valid_binary x = true ->
  0 <= c -> c + 100 < 2 ^ 53 ->
  SFnonnegOrNaN s = true -> s <> S754_nan -> SFscaled s <= c * 2 ^ 1074 ->
  SFnonnegOrNaN x = true -> x <> S754_nan -> SFscaled x <= 100 * 2 ^ 1074 ->
  let r := SFadd prec emax s x in
  SFnonnegOrNaN r = true /\ r <> S754_nan
  /\ SFscaled r <= (c + 100) * 2 ^ 1074.
Proof.
  intros Vs Vx Hc Hc' Ss Ns Bs Sx Nx Bx r. unfold r. clear r.
  assert (HP : 0 < 2 ^ 1074) by (apply Z.pow_pos_nonneg; lia).
  assert (Hinf : (c + 100) * 2 ^ 1074 < 2 ^ 2098).
  { rewrite pow2_2098.
    assert (2 ^ 1074 <= 2 ^ 2045) by (apply Z.pow_le_mono_r; lia). nia. }
  destruct s as [ss|ss| |ss ms es]; try congruence.
  - (* the sum so far is zero *)
    destruct x as [sx|sx| |sx mx ex]; try congruence.
    + cbn [SFadd]. destruct ss, sx; cbn [Bool.eqb];
        (split; [reflexivity|]; split; [discriminate|]; cbn [SFscaled]; nia).
    + exfalso. destruct sx; [discriminate|]. cbn [SFscaled] in Bx. nia.
    + destruct sx; [discriminate|]. cbn [SFadd].
      split; [reflexivity|]. split; [discriminate|].
      cbn [SFscaled] in *. nia.
  - exfalso. destruct ss; [discriminate|]. cbn [SFscaled] in Bs. nia.
  - destruct ss; [discriminate|].
    destruct x as [sx|sx| |sx mx ex]; try congruence.
    + cbn [SFadd]. split; [reflexivity|]. split; [discriminate|].
      cbn [SFscaled] in *. nia.
    + exfalso. destruct sx; [discriminate|]. cbn [SFscaled] in Bx. nia.
    + destruct sx; [discriminate|].
      destruct (SFadd_scaled _ _ _ _ Vs Vx) as [Sr Pr]. cbv zeta in Sr, Pr.
      set (r := SFadd prec emax (S754_finite false ms es)
                  (S754_finite false mx ex)) in *.
      pose proof (scaled_finite_bounds _ _ _ Vs) as B1.
      pose proof (scaled_finite_bounds _ _ _ Vx) as B2.
      split; [destruct (SFltb_zero_inv _ Pr) as [->|(m & e & ->)]; reflexivity|].
      split; [intros E; rewrite E in Pr; discriminate|].
      rewrite Sr. rewrite <- (roundZ_small (c + 100)) by lia.
      cbn [SFscaled] in Bs, Bx. apply roundZ_mono; lia.
Qed.

End Quotients.

Section PercentD.
Local Open Scope Z_scope.

(** A value within [0, 100], read on integers. *)
Lemma SFpercent_inv (r : spec_float) :
  valid_binary r = true -> SFpercent r = true -> r <> S754_nan ->
  SFnonnegOrNaN r = true /\ SFscaled r <= 100 * 2 ^ 1074.
Proof.
  intros V H N.
  assert (V100 : valid_binary (Prim2SF 100) = true) by apply Prim2SF_valid.
  assert (N100 : Prim2SF 100 <> S754_nan) by (rewrite Prim2SF_100; discriminate).
  assert (H' : SFleb (S754_zero false) r && SFleb r (Prim2SF 100) = true)
    by (destruct r; try congruence; exact H).
  apply andb_prop in H'. destruct H' as [H0 H1].
  split.
  - destruct r as [s|s| |s m e]; try reflexivity; destruct s; try reflexivity;
      discriminate.
  - rewrite <- scaled_100. unfold SFleb in H1.
    rewrite (SFcompare_scaled r (Prim2SF 100) V V100 N N100) in H1.
    destruct (Z.compare_spec (SFscaled r) (SFscaled (Prim2SF 100)));
      try lia; discriminate.
Qed.

(** The quotient of a sum of [d] values within [0, 100] by [d]. *)
Lemma SFmean_percent (s : spec_float) (d : Z) (mf : positive) (ef : Z) :
  valid_binary s = true -> valid_binary (S754_finite false mf ef) = true ->
  valid_binary (SFdiv prec emax s (S754_finite false mf ef)) = true ->
  0 < d -> 100 * d < 2 ^ 53 ->
  Zpos mf * 2 ^ (ef + 1074) = d * 2 ^ 1074 ->
  SFnonnegOrNaN s = true -> s <> S754_nan -> SFscaled s <= (100 * d) * 2 ^ 1074 ->
  SFpercent (SFdiv prec emax s (S754_finite false mf ef)) = true.
Proof.
  intros Vs Vf Vr Hd Hd' Ef Ss Ns Bs.
  assert (V100 : valid_binary (Prim2SF 100) = true) by apply Prim2SF_valid.
  assert (HP : 0 < 2 ^ 1074) by (apply Z.pow_pos_nonneg; lia).
  destruct s as [ss|ss| |ss ms es]; try congruence.
  - destruct ss; reflexivity.
  - exfalso. destruct ss; [discriminate|]. cbn [SFscaled] in Bs.
    rewrite pow2_2098 in Bs.
    assert (2 ^ 1074 <= 2 ^ 2045) by (apply Z.pow_le_mono_r; lia).
    nia.
  - destruct ss; [discriminate|]. cbn [SFscaled] in Bs.
    rewrite Prim2SF_100 in V100.
    destruct (SFdiv_le_bound ms mf 7036874417766400 es ef (-46) Vs Vf V100)
      as (Q1 & Q2 & Q3).
    { rewrite Ef.
      change (Zpos 7036874417766400 * 2 ^ (-46 + 1074)) with (100 * 2 ^ 1074).
      set (S := Zpos ms * 2 ^ (es + 1074)) in *.
      set (X := 2 ^ 1074) in *. clearbody S X. nia. }
    cbv zeta in Q1, Q2, Q3.
    apply SFpercent_bounded; assumption.
Qed.

End PercentD.

Lemma at_percent (l : list float) (i : nat) :
  Forall (fun x => percentOrNaN x = true) l -> percentOrNaN (at_ l i) = true.
Proof.
  intros H. unfold at_. destruct (Nat.lt_ge_cases i (length l)) as [Hi|Hi].
  - rewrite List.Forall_forall in H. apply H. apply nth_In. exact Hi.
  - rewrite nth_overflow by exact Hi. reflexivity.
Qed.

(** The mean of [d] consecutive values, each a NaN or within [0, 100], as
    [Calculate] computes %D. *)
Lemma mean_percent (ks : list float) (d start : nat) :
  (100 * Z.of_nat d < 2 ^ 53)%Z ->
  Forall (fun x => percentOrNaN x = true) ks ->
  percentOrNaN
    (for_range d start (fun i sum => (sum + at_ ks i)%float) 0%float
     / float64 (Z.of_nat d)) = true.
Proof.
  intros Hd Hks.
  set (sum := for_range d start _ 0%float).
  assert (Hsum : isNaN sum = true
                 \/ (SFnonnegOrNaN (Prim2SF sum) = true
                     /\ Prim2SF sum <> S754_nan
                     /\ (SFscaled (Prim2SF sum)
                         <= (100 * Z.of_nat d) * 2 ^ 1074)%Z)).
  { unfold sum.
    apply (for_range_inv
             (fun c sum =>
                c <= d ->
                isNaN sum = true
                \/ (SFnonnegOrNaN (Prim2SF sum) = true
                    /\ Prim2SF sum <> S754_nan
                    /\ (SFscaled (Prim2SF sum)
                        <= (100 * Z.of_nat c) * 2 ^ 1074)%Z)));
      [| |lia].
    - intros _. right. split; [reflexivity|]. split; [discriminate|].
      cbn. lia.
    - intros c s Hc IH _. specialize (IH ltac:(lia)).
      pose proof (at_percent ks (start + c) Hks) as Hx.
      rewrite percentOrNaN_spec in Hx.
      destruct IH as [IH|(I1 & I2 & I3)].
      { left. apply isNaN_spec in IH. apply isNaN_spec.
        rewrite FloatAxioms.add_spec, IH. reflexivity. }
      destruct (isNaN (at_ ks (start + c))) eqn:En.
      { left. apply isNaN_spec in En. apply isNaN_spec.
        rewrite FloatAxioms.add_spec, En. destruct (Prim2SF s); reflexivity. }
      apply isNaN_false in En.
      destruct (SFpercent_inv _ (Prim2SF_valid _) Hx En) as [X1 X2].
      right. rewrite FloatAxioms.add_spec.
      replace (100 * Z.of_nat (S c))%Z with (100 * Z.of_nat c + 100)%Z by lia.
      apply SFadd_within; try assumption; try apply Prim2SF_valid; lia. }
  rewrite percentOrNaN_spec, FloatAxioms.div_spec.
  destruct Hsum as [Hn|(S1 & S2 & S3)].
  { apply isNaN_spec in Hn. rewrite Hn. reflexivity. }
  destruct d as [|d'].
  - (* no value is summed: 0 / 0 *)
    unfold sum. cbn [for_range]. reflexivity.
  - destruct (float64_scaled (Z.of_nat (S d')) ltac:(lia)) as (mf & ef & Ef & Es).
    pose proof (Prim2SF_valid (float64 (Z.of_nat (S d')))) as Vf.
    pose proof (Prim2SF_valid (sum / float64 (Z.of_nat (S d')))) as Vr.
    rewrite FloatAxioms.div_spec in Vr. rewrite Ef in *.
    apply (SFmean_percent _ (Z.of_nat (S d'))); try assumption;
      try apply Prim2SF_valid; lia.
Qed.

(** Every %K value is a NaN or lies within [0, 100]. *)
Lemma stochK_percent (rsiValues : list float) (k : nat) (ks : list float) :
  StochasticRSICalculator.stochKTrajectory rsiValues k = Some ks ->
  Forall (fun x => percentOrNaN x = true) ks.
Proof.
  intros Hks. apply List.Forall_forall. intros x Hx.
  destruct (In_nth ks x 0%float Hx) as (n & Hn & <-).
  change (nth n ks 0%float) with (at_ ks n).
  destruct (stochKTrajectory_nth _ _ _ _ Hks Hn) as (Hk & Hi & ->).
  rewrite stochKAt_window by lia. cbv zeta.
  apply window_percentK.
  set (i := k - 1 + n) in *.
  assert (Hlenw : length (window rsiValues k i) = k).
  { unfold window. rewrite length_firstn, length_skipn. lia. }
  unfold window, at_ in *.
  replace i with ((i + 1 - k) + (k - 1)) at 1 by lia.
  rewrite <- nth_skipn.
  assert (E : nth (k - 1) (firstn k (skipn (i + 1 - k) rsiValues)) 0%float
              = nth (k - 1) (skipn (i + 1 - k) rsiValues) 0%float).
  { rewrite nth_firstn. rewrite (proj2 (Nat.ltb_lt (k - 1) k)) by lia.
    reflexivity. }
  rewrite <- E. apply nth_In. lia.
Qed.

(** X16: for a %D period d with 100 * d below 2^53, both lines of the result
    Calculate returns are a NaN or lie within [0, 100]: the %K line, and the
    %D line, the mean of the last d %K values. *)
Theorem stochastic_result_range :
  forall (prices : list float) (r k d : nat)
         (result : StochasticRSICalculator.StochasticRSIResult),
  (100 * Z.of_nat d < 2 ^ 53)%Z ->
  StochasticRSICalculator.Calculate prices r k d = Some result ->
  percentOrNaN (StochasticRSICalculator.K result) = true
  /\ percentOrNaN (StochasticRSICalculator.D result) = true.
Proof.
  intros prices r k d result Hd. unfold StochasticRSICalculator.Calculate.
  destruct (length prices <? r + k + d)%nat;
    [intros [= <-]; split; reflexivity|].
  cbv zeta.
  destruct (length (StochasticRSICalculator.rsiTrajectory prices r) <? k + d)%nat;
    [intros [= <-]; split; reflexivity|].
  destruct (StochasticRSICalculator.stochKTrajectory
              (StochasticRSICalculator.rsiTrajectory prices r) k)
    as [ks|] eqn:Hks; [|discriminate].
  pose proof (stochK_percent _ _ _ Hks) as Hall.
  destruct (length ks <? d)%nat; [intros [= <-]; split; reflexivity|].
  intros [= <-]. cbn [StochasticRSICalculator.K StochasticRSICalculator.D].
  split; [apply at_percent; exact Hall|].
  apply mean_percent; assumption.
Qed.

Lemma stochastic_result_range_witness :
  percentOrNaN (StochasticRSICalculator.K Examples.swingResult) = true
  /\ percentOrNaN (StochasticRSICalculator.D Examples.swingResult) = true.
Proof.
  apply (stochastic_result_range Examples.swingPrices 5 3 3 Examples.swingResult).
  - vm_compute. reflexivity.
  - vm_compute. reflexivity.
Defined.
